(** * Trading system: screening, sizing, ranking and position tracking

    A shallow embedding of the signal-generation and position-lifecycle
    engine of the repository:

    - [scripts/1_data_collector.py] : [load_watchlist],
      [check_market_regime], [main];
    - [scripts/2_screener.py]  : [load_filters], [layer1_filter],
      [layer2_filter], [layer3_filter], [main];
    - [scripts/3_analyzer.py]  : [calculate_position_size],
      [calculate_charges], [generate_signals], [select_top_trades], [main];
    - [scripts/5_tracker.py]   : [add_new_trades], [update_current_prices],
      [calculate_pnl], [update_days_held], [check_triggers], [main];
    - [scripts/6_reporter.py]  : [load_trade_history], [weekly_metrics],
      [monthly_metrics];
    - [scripts/7_cleanup.py]   : [should_preserve], [clean_directory].

    Modelling conventions.  A pandas DataFrame is a list of row records,
    in index order.  A finite float64 cell is the rational number it
    denotes ([Q]); the non-finite values that the scripts themselves
    can produce by dividing by zero (pandas yields [inf] or [NaN] there
    and raises nothing) are modelled by [xnum].  Calendar dates are day
    numbers.  Files are optional values ([None] when the file is
    absent).

    Arithmetic is read in two ways.  Module [B64] is binary64: each
    operation is the exact result rounded to the nearest double, ties
    to even, with gradual underflow and overflow to infinity.  Layer 3
    of the screener and the screener's [main] are embedded in it
    ([Screener64], [Pipeline64]), because there the rounding decides
    which rows are kept and what is written.  The other modules compute
    in exact rationals; what is proved about them is order, structure
    and inequalities, not the last digit of a computed value. *)

From Stdlib Require Import ZArith QArith Qround Qabs Qpower Lqa Lia.
From Stdlib Require Import List String Bool Permutation Sorted.
Import ListNotations.

Local Open Scope Q_scope.

(* ================================================================== *)
(** ** Numbers as the scripts use them *)
(* ================================================================== *)

Module Num.

(** Strict comparison of rationals as a boolean. *)
Definition Qltb (a b : Q) : bool := negb (Qle_bool b a).

(** Python's [min(a, b)] returns [a] unless [b < a]. *)
Definition py_min (a b : Q) : Q := if Qltb b a then b else a.

(** Python's [max(a, b)] returns [a] unless [b > a]. *)
Definition py_max (a b : Q) : Q := if Qltb a b then b else a.

(** Python's [int(x)] on a float truncates toward zero. *)
Definition py_int (q : Q) : Z := Z.quot (Qnum q) (Zpos (Qden q)).

(** Rounding to the nearest integer, ties to the even neighbour. *)
Definition round_half_even (q : Q) : Z :=
  let f := Qfloor q in
  match Qcompare (q - inject_Z f) (1 # 2) with
  | Lt => f
  | Gt => (f + 1)%Z
  | Eq => if Z.even f then f else (f + 1)%Z
  end.

(** [round(x, 2)]. *)
Definition round2 (q : Q) : Q := inject_Z (round_half_even (q * 100)) / 100.

(** A float64 value: finite, or one of the three special values. *)
Inductive xnum : Type :=
| Fin (q : Q)
| PInf
| NInf
| NaN.

Definition Qsign (q : Q) : comparison := Qcompare q 0.

(** IEEE addition (signed zeros aside). *)
Definition xadd (a b : xnum) : xnum :=
  match a, b with
  | NaN, _ | _, NaN => NaN
  | Fin x, Fin y => Fin (x + y)
  | PInf, NInf | NInf, PInf => NaN
  | PInf, _ | _, PInf => PInf
  | NInf, _ | _, NInf => NInf
  end.

Definition xopp (a : xnum) : xnum :=
  match a with
  | Fin x => Fin (- x)
  | PInf => NInf
  | NInf => PInf
  | NaN => NaN
  end.

Definition xsub (a b : xnum) : xnum := xadd a (xopp b).

(** An infinity of the sign given by a comparison with zero; a zero
    factor gives NaN. *)
Definition inf_of_sign (c : comparison) : xnum :=
  match c with
  | Gt => PInf
  | Lt => NInf
  | Eq => NaN
  end.

Definition xsign (a : xnum) : option comparison :=
  match a with
  | Fin x => Some (Qsign x)
  | PInf => Some Gt
  | NInf => Some Lt
  | NaN => None
  end.

Definition mul_sign (c d : comparison) : comparison :=
  match c, d with
  | Eq, _ | _, Eq => Eq
  | Gt, Gt | Lt, Lt => Gt
  | _, _ => Lt
  end.

(** IEEE multiplication: [0 * inf] is NaN. *)
Definition xmul (a b : xnum) : xnum :=
  match a, b with
  | Fin x, Fin y => Fin (x * y)
  | _, _ =>
      match xsign a, xsign b with
      | Some c, Some d => inf_of_sign (mul_sign c d)
      | _, _ => NaN
      end
  end.

(** IEEE division as numpy performs it: no exception, [x / 0] is an
    infinity of the sign of [x], [0 / 0] is NaN (a zero divisor is
    taken as positive zero). *)
Definition xdiv (a b : xnum) : xnum :=
  match a, b with
  | NaN, _ | _, NaN => NaN
  | Fin x, Fin y =>
      if Qeq_bool y 0 then inf_of_sign (Qsign x) else Fin (x / y)
  | Fin _, _ => Fin 0
  | _, Fin y =>
      match xsign a, Qsign y with
      | Some c, Lt => inf_of_sign (mul_sign c Lt)
      | Some c, _ => inf_of_sign c
      | None, _ => NaN
      end
  | _, _ => NaN
  end.

(** Comparisons: every comparison with NaN is false. *)
Definition xle (a b : xnum) : bool :=
  match a, b with
  | NaN, _ | _, NaN => false
  | Fin x, Fin y => Qle_bool x y
  | NInf, _ => true
  | _, PInf => true
  | _, _ => false
  end.

Definition xlt (a b : xnum) : bool :=
  match a, b with
  | NaN, _ | _, NaN => false
  | Fin x, Fin y => Qltb x y
  | PInf, _ => false
  | _, NInf => false
  | _, _ => true
  end.

Definition xge (a b : xnum) : bool := xle b a.
Definition xgt (a b : xnum) : bool := xlt b a.

(** [round(x, 2)] leaves the special values alone. *)
Definition xround2 (a : xnum) : xnum :=
  match a with
  | Fin x => Fin (round2 x)
  | _ => a
  end.

End Num.
Import Num.

(* ================================================================== *)
(** ** Binary64 arithmetic *)
(* ================================================================== *)

(** The float64 operations of numpy and Python: the exact result of
    each operation, rounded to binary64.  A finite float is the
    rational it denotes; signed zeros are not distinguished. *)
Module B64.

(** [mag q] is the exponent of the leading bit of a nonzero [q]:
    2^(mag q) <= |q| < 2^(mag q + 1). *)
Definition mag (q : Q) : Z :=
  let k := (Z.log2 (Z.abs (Qnum q)) - Z.log2 (Zpos (Qden q)))%Z in
  if Qle_bool (2 ^ k) (Qabs q) then k else (k - 1)%Z.

(** Rounding of an exact result to binary64: to the nearest number
    with a 53-bit significand, ties to the even significand, with
    gradual underflow below 2^-1022 and overflow to an infinity from
    2^1024. *)
Definition fl (q : Q) : xnum :=
  if Qeq_bool q 0 then Fin 0
  else
    let e := Z.max (mag q - 52) (-1074) in
    let r := inject_Z (round_half_even (q / 2 ^ e)) * 2 ^ e in
    if Qle_bool (2 ^ 1024) (Qabs r) then (if Qle_bool 0 q then PInf else NInf)
    else Fin r.

Definition rnd (x : xnum) : xnum :=
  match x with
  | Fin q => fl q
  | _ => x
  end.

Definition add (a b : xnum) : xnum := rnd (xadd a b).
Definition sub (a b : xnum) : xnum := rnd (xsub a b).
Definition mul (a b : xnum) : xnum := rnd (xmul a b).
Definition div (a b : xnum) : xnum := rnd (xdiv a b).

(** The double that a decimal literal denotes. *)
Definition lit (q : Q) : Q :=
  match fl q with
  | Fin r => r
  | _ => 0
  end.

Definition is_double (q : Q) : bool :=
  match fl q with
  | Fin r => Qeq_bool r q
  | _ => false
  end.


(** [rint]: to the nearest integer, ties to even. *)
Definition rint (x : xnum) : xnum :=
  match x with
  | Fin q => Fin (inject_Z (round_half_even q))
  | _ => x
  end.

(** [numpy.round(x, 2)], which [Series.round(2)] and
    [DataFrame.round(2)] apply: [rint(x * 100) / 100]. *)
Definition np_round2 (x : xnum) : xnum := div (rint (mul x (Fin 100))) (Fin 100).

(** An integer cell converted to float64. *)
Definition of_int (z : Z) : xnum := fl (inject_Z z).

(** The unit roundoff and the underflow unit of binary64. *)
Definition u64 : Q := 2 ^ (-53).
Definition eta64 : Q := 2 ^ (-1075).

(** Numerals for error bounds: the unit roundoff 2^-53, an absolute
    term 2^-200 that covers the underflow unit, and a magnitude 2^200
    far below the overflow threshold. *)
Definition ulp_half : Q := 1 # 9007199254740992.
Definition tiny : Q :=
  1 # 1606938044258990275541962092341162602522202993782792835301376.
Definition big : Q :=
  1606938044258990275541962092341162602522202993782792835301376.

End B64.

(* ================================================================== *)
(** ** The tables exchanged between the scripts *)
(* ================================================================== *)

(** A row of [data/raw_data_<day>.csv] with the columns [layer3_filter]
    reads. *)
Module Snap.
Record t : Type := mk {
  Symbol : string;
  Close : Q;
  MA20 : Q;
  High_20D : Q;
  Support : Q;
  ATR : Q
}.
End Snap.

(** A row of [output/shortlist_<day>.csv], written by the screener and
    read by the analyzer. *)
Module Short.
Record t : Type := mk {
  Symbol : string;
  Entry : Q;
  SL : Q;
  Target : Q;
  RR : Q;
  Risk_Pct : Q;
  ATR : Q;
  Mode : string
}.
End Short.

(** A row of [output/daily_signals_<day>.csv], written by the analyzer
    and read by the tracker. *)
Module Sig.
Record t : Type := mk {
  Date : Z;
  Stock : string;
  Entry : Q;
  SL : Q;
  T1 : Q;
  T2 : Q;
  RR : Q;
  Quantity : Z;
  Position : Q;
  Risk_Rs : Q;
  Risk_Pct : Q;
  Charges : Q;
  Breakeven : xnum;
  Net_Expectancy_Pct : xnum;
  ATR : Q;
  Mode : string
}.
End Sig.

(** A row of [output/trade_tracker.csv], with the schema of
    [load_tracker]. *)
Module Pos.
Record t : Type := mk {
  Date : Z;
  Stock : string;
  Entry : Q;
  SL : Q;
  T1 : Q;
  T2 : Q;
  Quantity : Z;
  Position : Q;
  Current : Q;
  PnL_Rs : Q;
  PnL_Pct : xnum;
  Days_Held : Z;
  Status : string;
  Notes : string;
  ATR : Q;
  T1_Hit : bool
}.

Definition set_SL (v : Q) (r : t) : t :=
  mk (Date r) (Stock r) (Entry r) v (T1 r) (T2 r) (Quantity r)
     (Position r) (Current r) (PnL_Rs r) (PnL_Pct r) (Days_Held r)
     (Status r) (Notes r) (ATR r) (T1_Hit r).

Definition set_Current (v : Q) (r : t) : t :=
  mk (Date r) (Stock r) (Entry r) (SL r) (T1 r) (T2 r) (Quantity r)
     (Position r) v (PnL_Rs r) (PnL_Pct r) (Days_Held r)
     (Status r) (Notes r) (ATR r) (T1_Hit r).

Definition set_PnL (rs : Q) (pct : xnum) (r : t) : t :=
  mk (Date r) (Stock r) (Entry r) (SL r) (T1 r) (T2 r) (Quantity r)
     (Position r) (Current r) rs pct (Days_Held r)
     (Status r) (Notes r) (ATR r) (T1_Hit r).

Definition set_Days_Held (v : Z) (r : t) : t :=
  mk (Date r) (Stock r) (Entry r) (SL r) (T1 r) (T2 r) (Quantity r)
     (Position r) (Current r) (PnL_Rs r) (PnL_Pct r) v
     (Status r) (Notes r) (ATR r) (T1_Hit r).

Definition set_Status (v : string) (r : t) : t :=
  mk (Date r) (Stock r) (Entry r) (SL r) (T1 r) (T2 r) (Quantity r)
     (Position r) (Current r) (PnL_Rs r) (PnL_Pct r) (Days_Held r)
     v (Notes r) (ATR r) (T1_Hit r).

Definition set_T1_Hit (v : bool) (r : t) : t :=
  mk (Date r) (Stock r) (Entry r) (SL r) (T1 r) (T2 r) (Quantity r)
     (Position r) (Current r) (PnL_Rs r) (PnL_Pct r) (Days_Held r)
     (Status r) (Notes r) (ATR r) v.

(** [df['Status'] == 'ACTIVE'] on one row. *)
Definition is_active (r : t) : bool := String.eqb (Status r) "ACTIVE".
End Pos.

(** A row of [output/trade_history.csv] with the columns that
    [load_trade_history] requires. *)
Module Hist.
Record t : Type := mk {
  Date : Z;
  Exit_Date : Z;
  PnL_Rs : Q;
  PnL_Pct : Q
}.
End Hist.

(** The files of [output/] through which state crosses invocations. *)
Record Files : Type := mkFiles {
  trade_tracker_csv : option (list Pos.t);
  trade_history_csv : option (list Hist.t)
}.

(* ================================================================== *)
(** ** [scripts/2_screener.py]: layer 3 *)
(* ================================================================== *)

Module Screener.

(** The part of the filter dictionary that layer 3 reads. *)
Record Filters : Type := mkFilters {
  mode : option string;
  max_extension : Q;
  min_rr : Q
}.

(** The embedded profiles of [load_filters]; the standard profile is
    [config/filters.json]. *)
Definition testing_filters : Filters := mkFilters (Some "testing"%string) 25 1.2.
Definition relaxed_filters : Filters := mkFilters (Some "relaxed"%string) 15 1.8.

Definition load_filters (BASE_FILTERS : Filters) (m : string) : Filters :=
  if String.eqb m "testing" then testing_filters
  else if String.eqb m "relaxed" then relaxed_filters
  else mkFilters (Some "standard"%string)
                 (max_extension BASE_FILTERS) (min_rr BASE_FILTERS).

(** The derived columns, each a function of the row it is computed
    from (lines 180 to 193). *)
Definition Pct_Above_MA20 (s : Snap.t) : xnum :=
  xmul (xdiv (Fin (Snap.Close s - Snap.MA20 s)) (Fin (Snap.MA20 s))) (Fin 100).
Definition Entry (s : Snap.t) : Q := Snap.Close s.
Definition SL (s : Snap.t) : Q := Snap.Support s * 0.995.
Definition Risk_Per_Share (s : Snap.t) : Q := Entry s - SL s.
Definition Target (s : Snap.t) : Q := Entry s + 2 * Risk_Per_Share s.
Definition RR (s : Snap.t) : xnum :=
  xdiv (Fin (Target s - Entry s)) (Fin (Risk_Per_Share s)).
Definition Risk_Pct (s : Snap.t) : xnum :=
  xmul (xdiv (Fin (Risk_Per_Share s)) (Fin (Entry s))) (Fin 100).

Definition breakout (s : Snap.t) : bool := Qltb (Snap.High_20D s) (Snap.Close s).
Definition extension_ok (F : Filters) (s : Snap.t) : bool :=
  xle (Pct_Above_MA20 s) (Fin (max_extension F)).
Definition rr_ok (F : Filters) (s : Snap.t) : bool :=
  xge (RR s) (Fin (min_rr F)).

Definition is_testing (F : Filters) : bool :=
  match mode F with
  | Some m => String.eqb m "testing"
  | None => false
  end.

Definition risk_ok (F : Filters) (s : Snap.t) : bool :=
  if is_testing F then xle (Risk_Pct s) (Fin 12) else xle (Risk_Pct s) (Fin 5).

(** The frame on which line 188 evaluates the reward:risk division:
    the rows left by the breakout and extension filters. *)
Definition rr_frame (df : list Snap.t) (F : Filters) : list Snap.t :=
  filter (extension_ok F) (filter breakout df).

Definition layer3_filter (df : list Snap.t) (F : Filters) : list Snap.t :=
  let df := filter breakout df in
  let df := filter (extension_ok F) df in
  let df := filter (rr_ok F) df in
  let df := filter (risk_ok F) df in
  df.

End Screener.

(** The same layer in the arithmetic the program runs in: every
    operation of lines 180 to 193 rounded to binary64, the decimal
    literals read as the doubles they denote. *)
Module Screener64.

Definition testing_filters : Screener.Filters :=
  Screener.mkFilters (Some "testing"%string) 25 (B64.lit 1.2).
Definition relaxed_filters : Screener.Filters :=
  Screener.mkFilters (Some "relaxed"%string) 15 (B64.lit 1.8).

Definition load_filters (BASE_FILTERS : Screener.Filters) (m : string)
  : Screener.Filters :=
  if String.eqb m "testing" then testing_filters
  else if String.eqb m "relaxed" then relaxed_filters
  else Screener.mkFilters (Some "standard"%string)
                          (Screener.max_extension BASE_FILTERS)
                          (Screener.min_rr BASE_FILTERS).

Definition Pct_Above_MA20 (s : Snap.t) : xnum :=
  B64.mul (B64.div (B64.sub (Fin (Snap.Close s)) (Fin (Snap.MA20 s)))
                   (Fin (Snap.MA20 s)))
          (Fin 100).
Definition Entry (s : Snap.t) : xnum := Fin (Snap.Close s).
Definition SL (s : Snap.t) : xnum :=
  B64.mul (Fin (Snap.Support s)) (Fin (B64.lit 0.995)).
Definition Risk_Per_Share (s : Snap.t) : xnum := B64.sub (Entry s) (SL s).
Definition Target (s : Snap.t) : xnum :=
  B64.add (Entry s) (B64.mul (Fin 2) (Risk_Per_Share s)).
Definition RR (s : Snap.t) : xnum :=
  B64.div (B64.sub (Target s) (Entry s)) (Risk_Per_Share s).
Definition Risk_Pct (s : Snap.t) : xnum :=
  B64.mul (B64.div (Risk_Per_Share s) (Entry s)) (Fin 100).

Definition breakout (s : Snap.t) : bool := Qltb (Snap.High_20D s) (Snap.Close s).
Definition extension_ok (F : Screener.Filters) (s : Snap.t) : bool :=
  xle (Pct_Above_MA20 s) (Fin (Screener.max_extension F)).
Definition rr_ok (F : Screener.Filters) (s : Snap.t) : bool :=
  xge (RR s) (Fin (Screener.min_rr F)).
Definition risk_ok (F : Screener.Filters) (s : Snap.t) : bool :=
  if Screener.is_testing F then xle (Risk_Pct s) (Fin 12)
  else xle (Risk_Pct s) (Fin 5).

Definition rr_frame (df : list Snap.t) (F : Screener.Filters) : list Snap.t :=
  filter (extension_ok F) (filter breakout df).

Definition layer3_filter (df : list Snap.t) (F : Screener.Filters) : list Snap.t :=
  let df := filter breakout df in
  let df := filter (extension_ok F) df in
  let df := filter (rr_ok F) df in
  let df := filter (risk_ok F) df in
  df.

End Screener64.

(* ================================================================== *)
(** ** [scripts/3_analyzer.py]: sizing, costs, signals, ranking *)
(* ================================================================== *)

(** [config/settings.json], read at import time. *)
Record Config : Type := mkConfig {
  capital : Q;
  risk_per_trade_pct : Q;
  max_position_pct : Q;
  max_concurrent_trades : Z
}.

Module Analyzer.

Definition CAPITAL (cfg : Config) : Q := capital cfg.
Definition RISK_PER_TRADE (cfg : Config) : Q := risk_per_trade_pct cfg / 100.
Definition MAX_POSITION_PCT (cfg : Config) : Q := max_position_pct cfg / 100.
Definition MAX_TRADES (cfg : Config) : Z := max_concurrent_trades cfg.

Definition load_shortlist (file : option (list Short.t)) : list Short.t :=
  match file with
  | Some df => df
  | None => []
  end.

Definition check_existing_positions (fs : Files) : Z :=
  match trade_tracker_csv fs with
  | Some tracker => Z.of_nat (List.length (filter Pos.is_active tracker))
  | None => 0
  end.

(** Line 79 divides by the entry price only when the notional of the
    risk-budget quantity exceeds the position cap; the results on this
    function are for a nonzero entry price.  The quotients are exact
    here; [int] of the binary64 quotient can be one share less than
    the exact floor. *)
Definition calculate_position_size (cfg : Config) (entry sl capital : Q)
  : Z * Q :=
  let max_risk_amount := capital * RISK_PER_TRADE cfg in
  let risk_per_share := entry - sl in
  if Qle_bool risk_per_share 0 then (0%Z, 0)
  else
    let qty := py_int (max_risk_amount / risk_per_share) in
    let position_value := inject_Z qty * entry in
    let max_position := capital * MAX_POSITION_PCT cfg in
    if Qltb max_position position_value then
      let qty := py_int (max_position / entry) in
      (qty, inject_Z qty * entry)
    else (qty, position_value).

Definition calculate_charges (position_value : Q) : Q :=
  let brokerage_buy := py_min (position_value * 0.0005) 20 in
  let exchange_txn := position_value * 0.0000297 in
  let gst := (brokerage_buy + exchange_txn) * 0.18 in
  let stamp := position_value * 0.00015 in
  let sebi := position_value * 0.000001 in
  let buy := brokerage_buy + exchange_txn + gst + stamp + sebi in
  let brokerage_sell := py_min (position_value * 0.0005) 20 in
  let stt := position_value * 0.001 in
  let exchange_txn_sell := position_value * 0.0000297 in
  let gst_sell := (brokerage_sell + exchange_txn_sell) * 0.18 in
  let dp := 18.5 * 1.18 in
  let sell := brokerage_sell + stt + exchange_txn_sell + gst_sell + dp in
  round2 (buy + sell).

(** [min_target] of line 119, for a sized row. *)
Definition min_target (entry charges position : Q) : xnum :=
  let breakeven_pct := xmul (xdiv (Fin charges) (Fin position)) (Fin 100) in
  xmul (Fin entry)
       (xadd (xadd (Fin 1) (xdiv breakeven_pct (Fin 100))) (Fin 0.02)).

(** One iteration of the loop of [generate_signals]: [None] when the
    row is skipped by a [continue].  The shortlist that the screener
    writes has the ATR and Mode columns, so the defaults of [row.get]
    are not used.  On a sized row with a zero entry price the notional
    is zero and line 118 raises ZeroDivisionError, which ends the run:
    the results on this function are for rows with a nonzero entry
    price. *)
Definition generate_signal (cfg : Config) (today : Z) (row : Short.t)
  : option Sig.t :=
  let '(qty, position) :=
    calculate_position_size cfg (Short.Entry row) (Short.SL row) (CAPITAL cfg) in
  if (qty =? 0)%Z then None
  else
    let charges := calculate_charges position in
    let mt := min_target (Short.Entry row) charges position in
    if xlt (Fin (Short.Target row)) mt then None
    else
      let expected_profit := (Short.Target row - Short.Entry row) * inject_Z qty in
      let net_profit := expected_profit - charges in
      let net_expectancy_pct :=
        xmul (xdiv (Fin net_profit) (Fin position)) (Fin 100) in
      let atr := Short.ATR row in
      let t2 := round2 (Short.Target row + 1.5 * atr) in
      Some (Sig.mk today (Short.Symbol row) (Short.Entry row) (Short.SL row)
              (Short.Target row) t2 (Short.RR row) qty position
              (round2 ((Short.Entry row - Short.SL row) * inject_Z qty))
              (Short.Risk_Pct row) charges (xround2 mt)
              (xround2 net_expectancy_pct) atr (Short.Mode row)).

Fixpoint generate_signals (cfg : Config) (today : Z) (df : list Short.t)
  : list Sig.t :=
  match df with
  | [] => []
  | row :: rest =>
      match generate_signal cfg today row with
      | Some signal => signal :: generate_signals cfg today rest
      | None => generate_signals cfg today rest
      end
  end.

(** [sort_values(by=["RR", "Net_Expectancy_Pct"], ascending=[False,
    False])]: a stable sort, larger keys first, NaN keys last. *)
Definition desc_before (a b : xnum) : bool :=
  match a, b with
  | NaN, _ => false
  | _, NaN => true
  | _, _ => xlt b a
  end.

Definition before (a b : Sig.t) : bool :=
  Qltb (Sig.RR b) (Sig.RR a)
  || (Qeq_bool (Sig.RR a) (Sig.RR b)
      && desc_before (Sig.Net_Expectancy_Pct a) (Sig.Net_Expectancy_Pct b)).

(** [ranked a b]: the sort may leave [a] ahead of [b], because [b]
    does not rank strictly before [a]. *)
Definition ranked (a b : Sig.t) : Prop := before b a = false.

Fixpoint insert (x : Sig.t) (l : list Sig.t) : list Sig.t :=
  match l with
  | [] => [x]
  | y :: l' => if before y x then y :: insert x l' else x :: l
  end.

Fixpoint sort_values (l : list Sig.t) : list Sig.t :=
  match l with
  | [] => []
  | x :: l' => insert x (sort_values l')
  end.

(** [DataFrame.head(n)]: the first [n] rows, or all but the last [-n]
    rows when [n] is negative. *)
Definition head (n : Z) (l : list Sig.t) : list Sig.t :=
  if (0 <=? n)%Z then firstn (Z.to_nat n) l
  else firstn (List.length l - Z.to_nat (- n)) l.

Definition select_top_trades (signals : list Sig.t) (max_trades : Z)
  : list Sig.t :=
  if (Z.of_nat (List.length signals) <=? max_trades)%Z then signals
  else head max_trades (sort_values signals).

(** [main]: the content written to [daily_signals_<day>.csv], or
    [None] when [main] returns without writing it. *)
Definition main (cfg : Config) (today : Z)
           (shortlist_file : option (list Short.t)) (fs : Files)
  : option (list Sig.t) :=
  let df := load_shortlist shortlist_file in
  match df with
  | [] => None
  | _ =>
      let active := check_existing_positions fs in
      let available := (MAX_TRADES cfg - active)%Z in
      if (available <=? 0)%Z then None
      else
        match generate_signals cfg today df with
        | [] => None
        | signals => Some (select_top_trades signals available)
        end
  end.

(** The allocation step of [main] on the day's accepted signals with
    [available] free slots: the signals handed to the tracker. *)
Definition allocate (signals : list Sig.t) (available : Z) : list Sig.t :=
  if (available <=? 0)%Z then []
  else
    match signals with
    | [] => []
    | _ => select_top_trades signals available
    end.

End Analyzer.

(* ================================================================== *)
(** ** [scripts/5_tracker.py]: the position lifecycle *)
(* ================================================================== *)

Module Tracker.

(** What one invocation reads from outside the ledger: the clock, the
    day's signal file and the price source.  [quote sym] is the last
    close that [yf.Ticker(sym).history(period='1d')] returns, [None]
    when the history is empty or the call raises. *)
Record Env : Type := mkEnv {
  today : Z;
  signals_file : option (list Sig.t);
  quote : string -> option Q
}.

(** The text of an action, kept as the value it prints. *)
Inductive Message : Type :=
| SL_hit_exit (current : Q)
| Move_SL_to_entry (new_sl : Q)
| T1_hit_trail (trail_sl : Q)
| Prepare_exit (days_held : Z).

Record Action : Type := mkAction {
  Stock : string;
  Rule : string;
  Message_of : Message
}.

Definition load_tracker (fs : Files) : list Pos.t :=
  match trade_tracker_csv fs with
  | Some df => df
  | None => []
  end.

(** The row that [add_new_trades] appends for one signal.  The signal
    file that the analyzer writes has the T2 and ATR columns, so the
    defaults of [row.get] are not used. *)
Definition new_trade (now : Z) (row : Sig.t) : Pos.t :=
  Pos.mk now (Sig.Stock row) (Sig.Entry row) (Sig.SL row) (Sig.T1 row)
         (Sig.T2 row) (Sig.Quantity row) (Sig.Position row) (Sig.Entry row)
         0 (Fin 0) 0%Z "ACTIVE" "" (Sig.ATR row) false.

Definition add_new_trades (env : Env) (tracker : list Pos.t) : list Pos.t :=
  match signals_file env with
  | Some signals =>
      fold_left (fun tracker row => tracker ++ [new_trade (today env) row])
                signals tracker
  | None => tracker
  end.

(** The body of the loop of [update_current_prices]. *)
Definition refresh_row (env : Env) (r : Pos.t) : Pos.t :=
  if Pos.is_active r then
    let symbol := (Pos.Stock r ++ ".NS")%string in
    match quote env symbol with
    | Some close => Pos.set_Current (round2 close) r
    | None => r
    end
  else r.

Definition update_current_prices (env : Env) (df : list Pos.t) : list Pos.t :=
  map (refresh_row env) df.

(** [calculate_pnl] on one row; the coercion of its first loop is the
    identity on numeric cells. *)
Definition pnl_row (r : Pos.t) : Pos.t :=
  let pnl_rs := (Pos.Current r - Pos.Entry r) * inject_Z (Pos.Quantity r) in
  let pnl_pct :=
    xmul (xdiv (Fin (Pos.Current r - Pos.Entry r)) (Fin (Pos.Entry r)))
         (Fin 100) in
  Pos.set_PnL (round2 pnl_rs) (xround2 pnl_pct) r.

Definition calculate_pnl (df : list Pos.t) : list Pos.t :=
  map pnl_row df.

(** The body of the loop of [update_days_held]. *)
Definition days_row (env : Env) (r : Pos.t) : Pos.t :=
  if Pos.is_active r
  then Pos.set_Days_Held (today env - Pos.Date r)%Z r
  else r.

Definition update_days_held (env : Env) (df : list Pos.t) : list Pos.t :=
  map (days_row env) df.

(** The body of the loop of [check_triggers] for one ACTIVE row.
    [row] is the snapshot taken by [df.loc[idx]]; [cur] is the row of
    the frame as the assignments through [df.at] update it. *)
Definition trigger_row (row : Pos.t) : list Action * Pos.t :=
  if Qle_bool (Pos.Current row) (Pos.SL row) then
    ([mkAction (Pos.Stock row) "SL_HIT" (SL_hit_exit (Pos.Current row))],
     Pos.set_Status "CLOSED" row)
  else
    let cur := row in
    let '(a1, cur) :=
      if xge (Pos.PnL_Pct row) (Fin 3) && Qltb (Pos.SL row) (Pos.Entry row) then
        let new_sl := Pos.Entry row in
        ([mkAction (Pos.Stock row) "BREAKEVEN" (Move_SL_to_entry new_sl)],
         Pos.set_SL new_sl cur)
      else ([], cur) in
    let '(a2, cur) :=
      if Qle_bool (Pos.T1 row) (Pos.Current row) && negb (Pos.T1_Hit row) then
        let cur := Pos.set_T1_Hit true cur in
        let trail_sl := round2 (Pos.Current row - 1.5 * Pos.ATR row) in
        let cur := Pos.set_SL (py_max (Pos.SL cur) trail_sl) cur in
        ([mkAction (Pos.Stock row) "T1_HIT" (T1_hit_trail trail_sl)], cur)
      else ([], cur) in
    let a3 :=
      if (25 <=? Pos.Days_Held row)%Z then
        [mkAction (Pos.Stock row) "MONTH_END" (Prepare_exit (Pos.Days_Held row))]
      else [] in
    (a1 ++ a2 ++ a3, cur).

(** One index of the loop: rows that are not ACTIVE are not visited. *)
Definition check_row (r : Pos.t) : list Action * Pos.t :=
  if Pos.is_active r then trigger_row r else ([], r).

Fixpoint check_triggers (df : list Pos.t) : list Action * list Pos.t :=
  match df with
  | [] => ([], [])
  | r :: rest =>
      let '(a, r') := check_row r in
      let '(actions, rest') := check_triggers rest in
      (a ++ actions, r' :: rest')
  end.

(** [main]: one daily invocation, from the files it finds to the
    actions it prints and the files it leaves. *)
Definition main (env : Env) (fs : Files) : list Action * Files :=
  let tracker := load_tracker fs in
  let tracker := add_new_trades env tracker in
  let tracker := update_current_prices env tracker in
  let tracker := calculate_pnl tracker in
  let tracker := update_days_held env tracker in
  let '(actions, tracker) := check_triggers tracker in
  (actions, mkFiles (Some tracker) (trade_history_csv fs)).

(** The rows printed under ACTIVE POSITIONS. *)
Definition active (tracker : list Pos.t) : list Pos.t :=
  filter Pos.is_active tracker.

(** The rows appended by [add_new_trades], in the order of the
    signal file. *)
Definition new_rows (env : Env) : list Pos.t :=
  match signals_file env with
  | Some signals => map (new_trade (today env)) signals
  | None => []
  end.

(** What one invocation does to one row of the frame before the
    rules are checked: price refresh, P&L, days held. *)
Definition prepare (env : Env) (r : Pos.t) : Pos.t :=
  days_row env (pnl_row (refresh_row env r)).

(** What one invocation does to one row of the frame. *)
Definition tick_row (env : Env) (r : Pos.t) : list Action * Pos.t :=
  check_row (prepare env r).

(** Successive daily invocations, oldest first. *)
Fixpoint run (envs : list Env) (fs : Files) : Files :=
  match envs with
  | [] => fs
  | env :: rest => run rest (snd (main env fs))
  end.

(** The life of one row over successive invocations: the actions of
    each invocation for the row, and the row it leaves. *)
Fixpoint trace (envs : list Env) (r : Pos.t) : list (list Action * Pos.t) :=
  match envs with
  | [] => []
  | env :: rest =>
      let o := tick_row env r in
      o :: trace rest (snd o)
  end.

Fixpoint row_after (envs : list Env) (r : Pos.t) : Pos.t :=
  match envs with
  | [] => r
  | env :: rest => row_after rest (snd (tick_row env r))
  end.

(** Whether a list of actions holds one of the given rule. *)
Definition fired (rule : string) (acts : list Action) : bool :=
  existsb (fun a => String.eqb (Rule a) rule) acts.

(** The number of actions of a given rule in a list of actions. *)
Definition count_rule (rule : string) (acts : list Action) : nat :=
  List.length (filter (fun a => String.eqb (Rule a) rule) acts).

End Tracker.

(** [load_trade_history] of [scripts/6_reporter.py]: the closed-trade
    ledger is the only file the reporter reads; an absent or empty file
    gives the empty frame.  A history file is one that carries the RR
    column besides the four required ones (without it line 79 raises
    inside the [try] and the frame is empty), and its rows are those
    left by the [dropna] of line 81. *)
Module Reporter.

Definition load_trade_history (fs : Files) : list Hist.t :=
  match trade_history_csv fs with
  | Some df => df
  | None => []
  end.

End Reporter.

(* ================================================================== *)
(** ** [scripts/2_screener.py]: the three layers and their chaining *)
(* ================================================================== *)

(** A row of [data/raw_data_<day>.csv] with every column the screener
    reads: the columns of layer 3 and those of layers 1 and 2.  The two
    volume averages are written as integers by the data collector. *)
Module Raw.
Record t : Type := mk {
  snap : Snap.t;
  MA50 : Q;
  MA200 : Q;
  RSI : Q;
  ADX : Q;
  Vol_20D_Avg : Z;
  Vol_5D_Avg : Z
}.

Definition Close (r : t) : Q := Snap.Close (snap r).
Definition MA20 (r : t) : Q := Snap.MA20 (snap r).
End Raw.

Module Pipeline.

(** The whole filter dictionary: the thresholds of layers 1 and 2 and,
    for layer 3 and the mode, the part that [Screener.Filters] holds. *)
Record Filters : Type := mkFilters {
  min_volume : Q;
  min_price : Q;
  max_price : Q;
  rsi_min : Q;
  rsi_max : Q;
  adx_min : Q;
  volume_surge : Q;
  layer3 : Screener.Filters
}.

Definition testing_filters : Filters :=
  mkFilters 100000 50 10000 40 80 10 0.8 Screener.testing_filters.

Definition relaxed_filters : Filters :=
  mkFilters 200000 100 5000 45 75 15 1.1 Screener.relaxed_filters.

Definition load_filters (BASE_FILTERS : Filters) (m : string) : Filters :=
  if String.eqb m "testing" then testing_filters
  else if String.eqb m "relaxed" then relaxed_filters
  else mkFilters (min_volume BASE_FILTERS) (min_price BASE_FILTERS)
                 (max_price BASE_FILTERS) (rsi_min BASE_FILTERS)
                 (rsi_max BASE_FILTERS) (adx_min BASE_FILTERS)
                 (volume_surge BASE_FILTERS)
                 (Screener.load_filters (layer3 BASE_FILTERS) m).

Definition load_latest_data (file : option (list Raw.t)) : list Raw.t :=
  match file with
  | Some df => df
  | None => []
  end.

(** Layer 1. *)
Definition volume_ok (F : Filters) (r : Raw.t) : bool :=
  Qle_bool (min_volume F) (inject_Z (Raw.Vol_20D_Avg r)).

Definition price_ok (F : Filters) (r : Raw.t) : bool :=
  Qle_bool (min_price F) (Raw.Close r) && Qle_bool (Raw.Close r) (max_price F).

Definition layer1_filter (df : list Raw.t) (F : Filters) : list Raw.t :=
  let df := filter (volume_ok F) df in
  let df := filter (price_ok F) df in
  df.

(** Layer 2.  [F.get("mode", "standard")] selects the trend rule. *)
Definition mode_of (F : Filters) : string :=
  match Screener.mode (layer3 F) with
  | Some m => m
  | None => "standard"
  end.

Definition ma_testing (r : Raw.t) : bool := Qltb (Raw.MA20 r) (Raw.Close r).

Definition ma_relaxed (r : Raw.t) : bool :=
  Qltb (Raw.MA50 r) (Raw.Close r) && Qltb (Raw.MA200 r) (Raw.MA50 r).

Definition ma_standard (r : Raw.t) : bool :=
  Qltb (Raw.MA50 r) (Raw.Close r) && Qltb (Raw.MA200 r) (Raw.Close r)
  && Qltb (Raw.MA50 r) (Raw.MA20 r) && Qltb (Raw.MA200 r) (Raw.MA50 r).

Definition ma_ok (F : Filters) (r : Raw.t) : bool :=
  if String.eqb (mode_of F) "testing" then ma_testing r
  else if String.eqb (mode_of F) "relaxed" then ma_relaxed r
  else ma_standard r.

Definition rsi_ok (F : Filters) (r : Raw.t) : bool :=
  Qle_bool (rsi_min F) (Raw.RSI r) && Qle_bool (Raw.RSI r) (rsi_max F).

Definition adx_ok (F : Filters) (r : Raw.t) : bool :=
  Qle_bool (adx_min F) (Raw.ADX r).

Definition Vol_Ratio (r : Raw.t) : xnum :=
  xdiv (Fin (inject_Z (Raw.Vol_5D_Avg r))) (Fin (inject_Z (Raw.Vol_20D_Avg r))).

Definition surge_ok (F : Filters) (r : Raw.t) : bool :=
  xge (Vol_Ratio r) (Fin (volume_surge F)).

Definition layer2_filter (df : list Raw.t) (F : Filters) : list Raw.t :=
  let df := filter (ma_ok F) df in
  let df := filter (rsi_ok F) df in
  let df := filter (adx_ok F) df in
  let df := filter (surge_ok F) df in
  df.

(** Layer 3 on full rows: the filters of [Screener.layer3_filter], each
    reading the layer-3 columns of the row. *)
Definition layer3_filter (df : list Raw.t) (F : Filters) : list Raw.t :=
  let df := filter (fun r => Screener.breakout (Raw.snap r)) df in
  let df := filter (fun r => Screener.extension_ok (layer3 F) (Raw.snap r)) df in
  let df := filter (fun r => Screener.rr_ok (layer3 F) (Raw.snap r)) df in
  let df := filter (fun r => Screener.risk_ok (layer3 F) (Raw.snap r)) df in
  df.

End Pipeline.

(** The three layers and [main] in binary64, down to the frame that is
    written. *)
Module Pipeline64.

Definition testing_filters : Pipeline.Filters :=
  Pipeline.mkFilters 100000 50 10000 40 80 10 (B64.lit 0.8)
                     Screener64.testing_filters.

Definition relaxed_filters : Pipeline.Filters :=
  Pipeline.mkFilters 200000 100 5000 45 75 15 (B64.lit 1.1)
                     Screener64.relaxed_filters.

Definition load_filters (BASE_FILTERS : Pipeline.Filters) (m : string)
  : Pipeline.Filters :=
  if String.eqb m "testing" then testing_filters
  else if String.eqb m "relaxed" then relaxed_filters
  else Pipeline.mkFilters
         (Pipeline.min_volume BASE_FILTERS) (Pipeline.min_price BASE_FILTERS)
         (Pipeline.max_price BASE_FILTERS) (Pipeline.rsi_min BASE_FILTERS)
         (Pipeline.rsi_max BASE_FILTERS) (Pipeline.adx_min BASE_FILTERS)
         (Pipeline.volume_surge BASE_FILTERS)
         (Screener64.load_filters (Pipeline.layer3 BASE_FILTERS) m).

(** Layer 2: the volume ratio is a float division of the two integer
    columns. *)
Definition Vol_Ratio (r : Raw.t) : xnum :=
  B64.div (B64.of_int (Raw.Vol_5D_Avg r)) (B64.of_int (Raw.Vol_20D_Avg r)).

Definition surge_ok (F : Pipeline.Filters) (r : Raw.t) : bool :=
  xge (Vol_Ratio r) (Fin (Pipeline.volume_surge F)).

Definition layer2_filter (df : list Raw.t) (F : Pipeline.Filters) : list Raw.t :=
  let df := filter (Pipeline.ma_ok F) df in
  let df := filter (Pipeline.rsi_ok F) df in
  let df := filter (Pipeline.adx_ok F) df in
  let df := filter (surge_ok F) df in
  df.

Definition layer3_filter (df : list Raw.t) (F : Pipeline.Filters) : list Raw.t :=
  let df := filter (fun r => Screener64.breakout (Raw.snap r)) df in
  let df := filter (fun r => Screener64.extension_ok (Pipeline.layer3 F) (Raw.snap r)) df in
  let df := filter (fun r => Screener64.rr_ok (Pipeline.layer3 F) (Raw.snap r)) df in
  let df := filter (fun r => Screener64.risk_ok (Pipeline.layer3 F) (Raw.snap r)) df in
  df.

(** A row of [output/shortlist_<day>.csv]: the columns of
    [output_cols], the numeric ones rounded to two decimals, and the
    mode. *)
Record Row : Type := mkRow {
  Symbol : string;
  Entry : xnum;
  SL : xnum;
  Target : xnum;
  RR : xnum;
  Risk_Pct : xnum;
  MA20 : xnum;
  MA50 : xnum;
  MA200 : xnum;
  RSI : xnum;
  ADX : xnum;
  ATR : xnum;
  Mode : string
}.

Definition shortlist_row (mode : string) (r : Raw.t) : Row :=
  let s := Raw.snap r in
  mkRow (Snap.Symbol s)
        (B64.np_round2 (Screener64.Entry s))
        (B64.np_round2 (Screener64.SL s))
        (B64.np_round2 (Screener64.Target s))
        (B64.np_round2 (Screener64.RR s))
        (B64.np_round2 (Screener64.Risk_Pct s))
        (B64.np_round2 (Fin (Snap.MA20 s)))
        (B64.np_round2 (Fin (Raw.MA50 r)))
        (B64.np_round2 (Fin (Raw.MA200 r)))
        (B64.np_round2 (Fin (Raw.RSI r)))
        (B64.np_round2 (Fin (Raw.ADX r)))
        (B64.np_round2 (Fin (Snap.ATR s)))
        mode.

(** [main]: the content written to [shortlist_<day>.csv], or [None]
    when [main] returns before writing because the data or the result
    of a layer is empty. *)
Definition main (BASE_FILTERS : Pipeline.Filters) (mode : string)
           (file : option (list Raw.t)) : option (list Row) :=
  let FILTERS := load_filters BASE_FILTERS mode in
  match Pipeline.load_latest_data file with
  | [] => None
  | df =>
      match Pipeline.layer1_filter df FILTERS with
      | [] => None
      | df =>
          match layer2_filter df FILTERS with
          | [] => None
          | df =>
              match layer3_filter df FILTERS with
              | [] => None
              | df => Some (map (shortlist_row mode) df)
              end
          end
      end
  end.

(** All the conditions of the three layers on one row. *)
Definition passes (F : Pipeline.Filters) (r : Raw.t) : bool :=
  Pipeline.volume_ok F r && Pipeline.price_ok F r
  && (Pipeline.ma_ok F r && Pipeline.rsi_ok F r && Pipeline.adx_ok F r
      && surge_ok F r)
  && (Screener64.breakout (Raw.snap r)
      && Screener64.extension_ok (Pipeline.layer3 F) (Raw.snap r)
      && Screener64.rr_ok (Pipeline.layer3 F) (Raw.snap r)
      && Screener64.risk_ok (Pipeline.layer3 F) (Raw.snap r)).

End Pipeline64.

(* ================================================================== *)
(** ** [scripts/6_reporter.py]: weekly and monthly metrics *)
(* ================================================================== *)

Module Metrics.

(** The clock of the report: [now] in days, with its fraction of a day,
    and the day of the month of [now].  Exit dates are dates, that is
    whole days. *)
Record Clock : Type := mkClock {
  now : Q;
  day_of_month : Z
}.

(** [datetime.now() - timedelta(days=7)]. *)
Definition week_start (c : Clock) : Q := now c - 7.

(** [datetime.now().replace(day=1)]: the time of day is kept. *)
Definition month_start (c : Clock) : Q :=
  now c - inject_Z (day_of_month c - 1).

Definition exited_since (t : Q) (r : Hist.t) : bool :=
  Qle_bool t (inject_Z (Hist.Exit_Date r)).

Definition is_win (r : Hist.t) : bool := Qltb 0 (Hist.PnL_Rs r).
Definition is_loss (r : Hist.t) : bool := Qltb (Hist.PnL_Rs r) 0.

Definition Qsum (l : list Q) : Q := fold_right Qplus 0 l.

Definition count (l : list Hist.t) : Z := Z.of_nat (List.length l).

(** The mean of a series; the scripts take it of a nonempty series
    only. *)
Definition mean (l : list Q) : Q := Qsum l / inject_Z (Z.of_nat (List.length l)).

Definition Qmax2 (a b : Q) : Q := if Qle_bool a b then b else a.
Definition Qmin2 (a b : Q) : Q := if Qle_bool a b then a else b.

(** Maximum and minimum of a nonempty series. *)
Definition series_max (x : Q) (rest : list Q) : Q := fold_left Qmax2 rest x.
Definition series_min (x : Q) (rest : list Q) : Q := fold_left Qmin2 rest x.

(** [Series.min()]: NaN on an empty series. *)
Definition min_of (l : list Q) : xnum :=
  match l with
  | [] => NaN
  | x :: rest => Fin (series_min x rest)
  end.

Record Weekly : Type := mkWeekly {
  W_Trades : Z;
  W_Wins : Z;
  W_Losses : Z;
  W_WinRate : Q;
  W_Total_PnL_Rs : Q;
  W_Avg_PnL : Q;
  W_Avg_Win : Q;
  W_Avg_Loss : Q;
  W_Best_Trade : Q;
  W_Worst_Trade : Q
}.

Definition weekly_metrics (c : Clock) (df : list Hist.t) : option Weekly :=
  let week := filter (exited_since (week_start c)) df in
  match week with
  | [] => None
  | r :: rs =>
      let p := Hist.PnL_Pct r in
      let ps := map Hist.PnL_Pct rs in
      let wins := filter is_win week in
      let losses := filter is_loss week in
      Some (mkWeekly
              (count week)
              (count wins)
              (count losses)
              (round2 (inject_Z (count wins) / inject_Z (count week) * 100))
              (round2 (Qsum (map Hist.PnL_Rs week)))
              (round2 (mean (p :: ps)))
              (match wins with
               | [] => 0
               | _ => round2 (mean (map Hist.PnL_Pct wins))
               end)
              (match losses with
               | [] => 0
               | _ => round2 (mean (map Hist.PnL_Pct losses))
               end)
              (round2 (series_max p ps))
              (round2 (series_min p ps)))
  end.

Fixpoint cumsum_from (acc : Q) (l : list Q) : list Q :=
  match l with
  | [] => []
  | x :: rest => (acc + x) :: cumsum_from (acc + x) rest
  end.

Definition cumsum (l : list Q) : list Q := cumsum_from 0 l.

Fixpoint cummax_from (m : Q) (l : list Q) : list Q :=
  match l with
  | [] => []
  | x :: rest => Qmax2 m x :: cummax_from (Qmax2 m x) rest
  end.

Definition cummax (l : list Q) : list Q :=
  match l with
  | [] => []
  | x :: rest => x :: cummax_from x rest
  end.

(** [cum - cum.cummax()], index by index. *)
Fixpoint series_sub (a b : list Q) : list Q :=
  match a, b with
  | x :: a', y :: b' => (x - y) :: series_sub a' b'
  | _, _ => []
  end.

Definition drawdown (pnl : list Q) : list Q :=
  series_sub (cumsum pnl) (cummax (cumsum pnl)).

(** The loop of lines 129 to 134. *)
Fixpoint loss_streak (losses : list bool) (max_consecutive current_streak : Z)
  : Z :=
  match losses with
  | [] => max_consecutive
  | loss :: rest =>
      if loss then
        loss_streak rest (Z.max max_consecutive (current_streak + 1))
                    (current_streak + 1)
      else loss_streak rest max_consecutive 0
  end.

Record Monthly : Type := mkMonthly {
  M_Trades : Z;
  M_Wins : Z;
  M_Losses : Z;
  M_WinRate : Q;
  M_Total_PnL_Rs : Q;
  M_Avg_Win : Q;
  M_Avg_Loss : Q;
  M_Expectancy : Q;
  M_Max_Drawdown_Rs : xnum;
  M_Max_Consecutive_Losses : Z
}.

Definition win_rate (month : list Hist.t) : Q :=
  inject_Z (count (filter is_win month)) / inject_Z (count month).

Definition avg_win (month : list Hist.t) : Q :=
  match filter is_win month with
  | [] => 0
  | wins => mean (map Hist.PnL_Pct wins)
  end.

Definition avg_loss (month : list Hist.t) : Q :=
  match filter is_loss month with
  | [] => 0
  | losses => mean (map Hist.PnL_Pct losses)
  end.

Definition expectancy (month : list Hist.t) : Q :=
  win_rate month * avg_win month + (1 - win_rate month) * avg_loss month.

(** [monthly_metrics].  [sort_by_exit_date] is
    [sort_values("Exit_Date")]; the order it gives to trades of one
    exit date is not fixed by the script. *)
Definition monthly_metrics
           (sort_by_exit_date : list Hist.t -> list Hist.t)
           (c : Clock) (df : list Hist.t) : option Monthly :=
  let month := filter (exited_since (month_start c)) df in
  match month with
  | [] => None
  | _ =>
      let dd := drawdown (map Hist.PnL_Rs (sort_by_exit_date month)) in
      let month_sorted := sort_by_exit_date month in
      let max_consecutive := loss_streak (map is_loss month_sorted) 0 0 in
      Some (mkMonthly
              (count month)
              (count (filter is_win month))
              (count (filter is_loss month))
              (round2 (win_rate month * 100))
              (round2 (Qsum (map Hist.PnL_Rs month)))
              (round2 (avg_win month))
              (round2 (avg_loss month))
              (round2 (expectancy month))
              (xround2 (min_of dd))
              max_consecutive)
  end.

End Metrics.

(* ================================================================== *)
(** ** [scripts/7_cleanup.py]: what a cleanup deletes *)
(* ================================================================== *)

Module Cleanup.

Definition PRESERVE_config : list string :=
  ["settings.json"; "credentials.json"; "filters.json";
   "google_service_account.json"]%string.

Definition PRESERVE_data : list string :=
  ["master_watchlist.csv"; "trade_history.csv"; "trade_tracker.csv"]%string.

Definition PRESERVE_root : list string :=
  ["requirements.txt"; "README.md"; "run_daily.sh"; "run_weekly.sh"]%string.

Definition PRESERVE_latest : list string :=
  ["latest_report.txt"; "latest_metrics.json"]%string.

Definition mem (s : string) (l : list string) : bool :=
  existsb (String.eqb s) l.

(** [should_preserve], on the base name of the path. *)
Definition should_preserve (filename : string) (preserve_latest : bool) : bool :=
  if mem filename PRESERVE_config then true
  else if mem filename PRESERVE_data then true
  else if mem filename PRESERVE_root then true
  else if preserve_latest && mem filename PRESERVE_latest then true
  else false.

(** An entry of a directory: its name, whether it is a regular file,
    its size, its age in whole days ([None] when reading the
    modification time raises) and whether [stat] and [unlink] succeed
    on it. *)
Record Entry : Type := mkEntry {
  name : string;
  is_file : bool;
  size : Z;
  age : option Z;
  removable : bool
}.

(** [get_file_age_days]: 0 when the modification time cannot be
    read. *)
Definition get_file_age_days (e : Entry) : Z :=
  match age e with
  | Some a => a
  | None => 0
  end.

(** Whether the loop of [clean_directory] unlinks the entry.  [pattern]
    tells which names [directory.glob] yields. *)
Definition deletes (pattern : string -> bool) (older_than_days : option Z)
           (preserve_latest dry_run : bool) (e : Entry) : bool :=
  if negb (pattern (name e)) then false
  else if negb (is_file e) then false
  else if should_preserve (name e) preserve_latest then false
  else if match older_than_days with
          | Some d => (get_file_age_days e <? d)%Z
          | None => false
          end then false
  else if negb (removable e) then false
  else negb dry_run.

(** [clean_directory]: the count and the bytes it returns, and the
    directory it leaves.  [None] is a directory that does not exist. *)
Fixpoint clean_entries (pattern : string -> bool) (older_than_days : option Z)
         (preserve_latest dry_run : bool) (entries : list Entry)
  : (Z * Z) * list Entry :=
  match entries with
  | [] => ((0%Z, 0%Z), [])
  | e :: rest =>
      let '((files_deleted, space_freed), kept) :=
        clean_entries pattern older_than_days preserve_latest dry_run rest in
      if deletes pattern older_than_days preserve_latest dry_run e
      then (((files_deleted + 1)%Z, (space_freed + size e)%Z), kept)
      else ((files_deleted, space_freed), e :: kept)
  end.

Definition clean_directory (directory : option (list Entry))
           (pattern : string -> bool) (older_than_days : option Z)
           (preserve_latest dry_run : bool)
  : (Z * Z) * option (list Entry) :=
  match directory with
  | None => ((0%Z, 0%Z), None)
  | Some entries =>
      let '(stats, kept) :=
        clean_entries pattern older_than_days preserve_latest dry_run entries in
      (stats, Some kept)
  end.

Definition total_size (entries : list Entry) : Z :=
  fold_right (fun e acc => (size e + acc)%Z) 0%Z entries.

End Cleanup.

(* ================================================================== *)
(** ** [scripts/1_data_collector.py]: the market regime and [main] *)
(* ================================================================== *)

Module Collector.

(** The dictionary that [check_market_regime] returns: the full one, or
    [{'Trade': False}] when anything in the check raises. *)
Inductive Regime : Type :=
| Checked (nifty_close ma50 ma200 : xnum) (above_ma50 above_ma200 : bool)
          (vix : xnum) (status : string) (trade : bool)
| Failed.

(** [nifty] is the last row of the index history (close, 50-day and
    200-day rolling means, which are NaN when the history is shorter
    than the window) and [vix] the last close of the volatility index;
    [None] when the fetch raises or the history is empty.  [saved]
    tells whether writing [market_regime.json] succeeds. *)
Definition check_market_regime (nifty : option (xnum * xnum * xnum))
           (vix : option xnum) (saved : bool) : Regime :=
  match nifty, vix with
  | Some (close, ma50, ma200), Some v =>
      let above_ma50 := xgt close ma50 in
      let above_ma200 := xgt close ma200 in
      let vix_r := xround2 v in
      let status_trade :=
        if above_ma50 && above_ma200 && xlt vix_r (Fin 20)
        then ("GREEN"%string, true)
        else ("YELLOW"%string, false) in
      if saved then
        Checked (xround2 close) (xround2 ma50) (xround2 ma200)
                above_ma50 above_ma200 vix_r
                (fst status_trade) (snd status_trade)
      else Failed
  | _, _ => Failed
  end.

Definition trade_of (r : Regime) : bool :=
  match r with
  | Checked _ _ _ _ _ _ _ trade => trade
  | Failed => false
  end.

Definition status_of (r : Regime) : option string :=
  match r with
  | Checked _ _ _ _ _ _ status _ => Some status
  | Failed => None
  end.

(** [load_watchlist]: the Symbol column of the watchlist, [None] cells
    dropped, with the exchange suffix; the empty list when the file is
    missing, has no Symbol column ([None]) or has no row. *)
Definition load_watchlist (file : option (list (option string))) : list string :=
  match file with
  | None => []
  | Some [] => []
  | Some rows =>
      map (fun s => (s ++ ".NS")%string)
          (flat_map (fun c => match c with Some s => [s] | None => [] end) rows)
  end.

(** How [main] ends: with the [KeyError] of [regime['Status']], by
    skipping on a RED regime, by aborting on an empty watchlist, or by
    fetching the prices of the watchlist. *)
Inductive Outcome : Type :=
| Raised_KeyError
| Skipped_RED
| Aborted_empty_watchlist
| Fetched (symbols : list string).

Definition main (nifty : option (xnum * xnum * xnum)) (vix : option xnum)
           (saved : bool) (watchlist_file : option (list (option string)))
  : Outcome :=
  match status_of (check_market_regime nifty vix saved) with
  | None => Raised_KeyError
  | Some status =>
      if String.eqb status "RED" then Skipped_RED
      else
        match load_watchlist watchlist_file with
        | [] => Aborted_empty_watchlist
        | watchlist => Fetched watchlist
        end
  end.

End Collector.

(* ================================================================== *)
(** ** Facts about the numeric operations *)
(* ================================================================== *)

Section NumFacts.

Lemma Qltb_lt (a b : Q) : Qltb a b = true <-> a < b.
Proof.
  unfold Qltb. rewrite negb_true_iff.
  split; intro H.
  - apply Qnot_le_lt. intro Hle. apply Qle_bool_iff in Hle. congruence.
  - destruct (Qle_bool b a) eqn:E; [|reflexivity].
    apply Qle_bool_iff in E. exfalso. exact (Qlt_not_le _ _ H E).
Qed.

Lemma Qltb_ge (a b : Q) : Qltb a b = false <-> b <= a.
Proof.
  unfold Qltb. rewrite negb_false_iff. apply Qle_bool_iff.
Qed.

Lemma Qle_bool_false (a b : Q) : Qle_bool a b = false <-> b < a.
Proof.
  rewrite <- Qltb_lt. unfold Qltb. rewrite negb_true_iff. reflexivity.
Qed.

Lemma py_max_ge_l (a b : Q) : a <= py_max a b.
Proof.
  unfold py_max. destruct (Qltb a b) eqn:E.
  - apply Qltb_lt in E. apply Qlt_le_weak, E.
  - apply Qle_refl.
Qed.

(** On a nonnegative number, truncation toward zero is the floor. *)
Lemma py_int_floor (q : Q) : 0 <= q -> py_int q = Qfloor q.
Proof.
  destruct q as [n d]. unfold py_int, Qfloor, Qle. simpl.
  intro H. apply Z.quot_div_nonneg; lia.
Qed.

Lemma floor_mul_le (m e : Q) :
  0 < e -> inject_Z (Qfloor (m / e)) * e <= m.
Proof.
  intro He.
  pose proof (Qfloor_le (m / e)) as Hf.
  assert (Hm : m == (m / e) * e) by (field; lra).
  rewrite Hm at 2.
  apply Qmult_le_compat_r; [exact Hf | lra].
Qed.

End NumFacts.

(* ================================================================== *)
(** ** Position sizing *)
(* ================================================================== *)

Section Sizing.

Variable cfg : Config.
Variables entry sl cap : Q.

Hypothesis capital_nonneg : 0 <= cap.
Hypothesis risk_fraction_nonneg : 0 <= Analyzer.RISK_PER_TRADE cfg.
Hypothesis position_fraction_nonneg : 0 <= Analyzer.MAX_POSITION_PCT cfg.
Hypothesis entry_pos : 0 < entry.
Hypothesis risk_pos : 0 < entry - sl.

Let max_risk_amount := cap * Analyzer.RISK_PER_TRADE cfg.
Let max_position := cap * Analyzer.MAX_POSITION_PCT cfg.
Let raw_qty := Qfloor (max_risk_amount / (entry - sl)).

Lemma max_risk_nonneg : 0 <= max_risk_amount.
Proof. unfold max_risk_amount. apply Qmult_le_0_compat; assumption. Qed.

Lemma max_position_nonneg : 0 <= max_position.
Proof. unfold max_position. apply Qmult_le_0_compat; assumption. Qed.

Lemma sizing_unfold :
  Analyzer.calculate_position_size cfg entry sl cap =
  if Qltb max_position (inject_Z raw_qty * entry)
  then (Qfloor (max_position / entry),
        inject_Z (Qfloor (max_position / entry)) * entry)
  else (raw_qty, inject_Z raw_qty * entry).
Proof.
  unfold Analyzer.calculate_position_size.
  assert (E : Qle_bool (entry - sl) 0 = false)
    by (apply Qle_bool_false; exact risk_pos).
  rewrite E.
  fold max_risk_amount max_position.
  assert (Hr : 0 <= max_risk_amount / (entry - sl)).
  { apply Qle_shift_div_l; [exact risk_pos|]. pose proof max_risk_nonneg. lra. }
  rewrite (py_int_floor _ Hr). fold raw_qty.
  destruct (Qltb max_position (inject_Z raw_qty * entry)); [|reflexivity].
  assert (Hp : 0 <= max_position / entry).
  { apply Qle_shift_div_l; [exact entry_pos|]. pose proof max_position_nonneg. lra. }
  rewrite (py_int_floor _ Hp). reflexivity.
Qed.


End Sizing.



(* ================================================================== *)
(** ** Break-even check of the signal generator *)
(* ================================================================== *)

Lemma Qeq_bool_false (a b : Q) : ~ a == b -> Qeq_bool a b = false.
Proof.
  intro H. destruct (Qeq_bool a b) eqn:E; [|reflexivity].
  apply Qeq_bool_iff in E. contradiction.
Qed.

(** With a nonzero notional the break-even price is finite and is
    entry * (1 + charges / notional + 0.02). *)
Lemma min_target_finite (entry charges position : Q) :
  ~ position == 0 ->
  exists q : Q,
    Analyzer.min_target entry charges position = Fin q
    /\ q == entry * (1 + charges / position + 0.02).
Proof.
  intro Hp.
  unfold Analyzer.min_target, xdiv, xmul, xadd.
  rewrite (Qeq_bool_false _ _ Hp).
  replace (Qeq_bool 100 0) with false by reflexivity.
  eexists. split; [reflexivity|].
  field. exact Hp.
Qed.

Lemma sizing_notional (cfg : Config) (entry sl cap : Q) :
  let r := Analyzer.calculate_position_size cfg entry sl cap in
  fst r = 0%Z \/ snd r = inject_Z (fst r) * entry.
Proof.
  cbv zeta. unfold Analyzer.calculate_position_size.
  destruct (Qle_bool (entry - sl) 0); [left; reflexivity|].
  destruct (Qltb _ _); right; reflexivity.
Qed.

Lemma sized_notional_nonzero (cfg : Config) (entry sl cap : Q) :
  ~ entry == 0 ->
  fst (Analyzer.calculate_position_size cfg entry sl cap) <> 0%Z ->
  ~ snd (Analyzer.calculate_position_size cfg entry sl cap) == 0.
Proof.
  intros He Hq.
  destruct (sizing_notional cfg entry sl cap) as [H | H]; [contradiction|].
  rewrite H. intro Hz.
  apply Qmult_integral in Hz. destruct Hz as [Hz | Hz]; [|contradiction].
  apply Hq. unfold Qeq in Hz. simpl in Hz. lia.
Qed.

Lemma generate_signals_In (cfg : Config) (today : Z) (df : list Short.t)
      (sig : Sig.t) :
  In sig (Analyzer.generate_signals cfg today df) <->
  exists row, In row df /\ Analyzer.generate_signal cfg today row = Some sig.
Proof.
  induction df as [|row rest IH]; simpl.
  - split; [contradiction | intros [row [[] _]]].
  - destruct (Analyzer.generate_signal cfg today row) as [s|] eqn:E; simpl;
      rewrite IH; split.
    + intros [-> | [row' [Hin Hg]]]; [exists row; auto | exists row'; auto].
    + intros [row' [[<- | Hin] Hg]]; [left; congruence | right; exists row'; auto].
    + intros [row' [Hin Hg]]; exists row'; auto.
    + intros [row' [[<- | Hin] Hg]]; [congruence | exists row'; auto].
Qed.

(** What an emitted signal records about the row it was made from. *)
Lemma generate_signal_some (cfg : Config) (today : Z) (row : Short.t)
      (sig : Sig.t) :
  Analyzer.generate_signal cfg today row = Some sig ->
  let r := Analyzer.calculate_position_size
             cfg (Short.Entry row) (Short.SL row) (Analyzer.CAPITAL cfg) in
  fst r <> 0%Z
  /\ Sig.Quantity sig = fst r
  /\ Sig.Position sig = snd r
  /\ Sig.Charges sig = Analyzer.calculate_charges (snd r)
  /\ Sig.Entry sig = Short.Entry row
  /\ Sig.T1 sig = Short.Target row
  /\ xlt (Fin (Short.Target row))
         (Analyzer.min_target (Short.Entry row)
                              (Analyzer.calculate_charges (snd r)) (snd r))
     = false.
Proof.
  cbv zeta. unfold Analyzer.generate_signal.
  destruct (Analyzer.calculate_position_size _ _ _ _) as [qty position].
  cbn [fst snd].
  destruct (qty =? 0)%Z eqn:Eq; [discriminate|].
  destruct (xlt _ _) eqn:El; [discriminate|].
  intro H. injection H as <-. cbn.
  apply Z.eqb_neq in Eq. repeat split; auto.
Qed.

(** C5.  On a shortlist whose entry prices are not zero, every signal
    that [generate_signals] emits has a nonzero notional and a first
    target that is at least the break-even price entry * (1 + charges
    / notional + 0.02), where charges is the round-trip cost of the
    notional; and a row whose target is below the break-even price of
    its sized position produces no signal. *)
Theorem signal_target_clears_break_even
        (cfg : Config) (today : Z) (df : list Short.t) :
  (forall row, In row df -> ~ Short.Entry row == 0) ->
  (forall sig, In sig (Analyzer.generate_signals cfg today df) ->
     Sig.Charges sig = Analyzer.calculate_charges (Sig.Position sig)
     /\ ~ Sig.Position sig == 0
     /\ Sig.Entry sig * (1 + Sig.Charges sig / Sig.Position sig + 0.02)
        <= Sig.T1 sig)
  /\ (forall row, In row df ->
        let position :=
          snd (Analyzer.calculate_position_size
                 cfg (Short.Entry row) (Short.SL row) (Analyzer.CAPITAL cfg)) in
        Short.Target row
        < Short.Entry row
          * (1 + Analyzer.calculate_charges position / position + 0.02) ->
        Analyzer.generate_signal cfg today row = None).
Proof.
  intro Hentry. split.
  - intros sig Hin.
    apply generate_signals_In in Hin. destruct Hin as [row [Hrow Hgen]].
    pose proof (generate_signal_some _ _ _ _ Hgen) as H. cbv zeta in H.
    destruct H as (Hq & _ & Hpos & Hch & He & Ht & Hlt).
    pose proof (sized_notional_nonzero cfg _ (Short.SL row) (Analyzer.CAPITAL cfg)
                  (Hentry row Hrow) Hq) as Hnz.
    destruct (min_target_finite (Short.Entry row)
                (Analyzer.calculate_charges
                   (snd (Analyzer.calculate_position_size cfg (Short.Entry row)
                           (Short.SL row) (Analyzer.CAPITAL cfg))))
                _ Hnz) as [q [Hq1 Hq2]].
    rewrite Hq1 in Hlt. cbn [xlt] in Hlt. apply Qltb_ge in Hlt.
    rewrite Hch, Hpos, He, Ht.
    split; [reflexivity|]. split; [exact Hnz|].
    rewrite <- Hq2. exact Hlt.
  - intros row Hrow position Hlow.
    destruct (Analyzer.generate_signal cfg today row) as [sig|] eqn:Hgen;
      [|reflexivity].
    exfalso.
    pose proof (generate_signal_some _ _ _ _ Hgen) as H. cbv zeta in H.
    destruct H as (Hq & _ & _ & _ & _ & _ & Hlt).
    pose proof (sized_notional_nonzero cfg _ (Short.SL row) (Analyzer.CAPITAL cfg)
                  (Hentry row Hrow) Hq) as Hnz.
    fold position in Hnz, Hlt.
    destruct (min_target_finite (Short.Entry row)
                (Analyzer.calculate_charges position) _ Hnz) as [q [Hq1 Hq2]].
    rewrite Hq1 in Hlt. cbn [xlt] in Hlt. apply Qltb_ge in Hlt.
    rewrite Hq2 in Hlt. lra.
Qed.

Lemma signal_target_clears_break_even_witness :
  let cfg := mkConfig 100000 1 10 5 in
  let row := Short.mk "X" 100 95 110 2 5 4 "relaxed" in
  let low := Short.mk "L" 100 95 101 2 5 4 "relaxed" in
  (forall r, In r [row; low] -> ~ Short.Entry r == 0)
  /\ (forall sig, In sig (Analyzer.generate_signals cfg 7 [row; low]) ->
        Sig.Entry sig * (1 + Sig.Charges sig / Sig.Position sig + 0.02)
        <= Sig.T1 sig)
  /\ Analyzer.generate_signal cfg 7 low = None.
Proof.
  intros cfg row low.
  assert (H : forall r, In r [row; low] -> ~ Short.Entry r == 0).
  { intros r [<- | [<- | []]]; vm_compute; discriminate. }
  split; [exact H|]. split.
  - intros sig Hin.
    exact (proj2 (proj2 (proj1 (signal_target_clears_break_even
                                  cfg 7 [row; low] H) sig Hin))).
  - apply (proj2 (signal_target_clears_break_even cfg 7 [row; low] H) low).
    + right. left. reflexivity.
    + vm_compute. reflexivity.
Defined.

(* ================================================================== *)
(** ** Ranking and capacity allocation *)
(* ================================================================== *)

Section Ranking.

Import Analyzer.

Lemma Qltb_cases (a b : Q) :
  (Qltb a b = true /\ a < b) \/ (Qltb a b = false /\ b <= a).
Proof.
  destruct (Qltb a b) eqn:E.
  - left. split; [reflexivity | apply Qltb_lt; exact E].
  - right. split; [reflexivity | apply Qltb_ge; exact E].
Qed.

Ltac qltb_all :=
  repeat match goal with
         | |- context [Qltb ?a ?b] =>
             let H := fresh "H" in
             destruct (Qltb_cases a b) as [[-> H] | [-> H]]
         | H : context [Qltb ?a ?b] |- _ =>
             let H' := fresh "H" in
             destruct (Qltb_cases a b) as [[Hr H'] | [Hr H']];
             rewrite Hr in H; clear Hr
         end.

Lemma desc_before_asym (a b : xnum) :
  desc_before a b = true -> desc_before b a = false.
Proof.
  destruct a, b; cbn; try congruence.
  intro H. qltb_all; try reflexivity; try discriminate. lra.
Qed.

Lemma desc_before_negtrans (a b c : xnum) :
  desc_before a c = true ->
  desc_before a b = true \/ desc_before b c = true.
Proof.
  destruct a, b, c; cbn; auto; try discriminate.
  intro H. qltb_all; auto; try discriminate. lra.
Qed.

Lemma before_spec (a b : Sig.t) :
  before a b = true <->
  Sig.RR b < Sig.RR a
  \/ (Sig.RR a == Sig.RR b
      /\ desc_before (Sig.Net_Expectancy_Pct a) (Sig.Net_Expectancy_Pct b)
         = true).
Proof.
  unfold before.
  rewrite orb_true_iff, andb_true_iff, Qltb_lt, Qeq_bool_iff. reflexivity.
Qed.

Lemma before_asym (a b : Sig.t) :
  before a b = true -> before b a = false.
Proof.
  intro H. apply before_spec in H.
  destruct (before b a) eqn:E; [|reflexivity].
  apply before_spec in E. exfalso.
  destruct H as [H | [H1 H2]], E as [E | [E1 E2]]; try lra.
  apply desc_before_asym in H2. congruence.
Qed.

Lemma before_negtrans (a b c : Sig.t) :
  before a c = true -> before a b = true \/ before b c = true.
Proof.
  intro H. apply before_spec in H.
  destruct (Qlt_le_dec (Sig.RR b) (Sig.RR a)) as [Hba | Hab].
  { left. apply before_spec. left. exact Hba. }
  destruct (Qlt_le_dec (Sig.RR c) (Sig.RR b)) as [Hcb | Hbc].
  { right. apply before_spec. left. exact Hcb. }
  destruct H as [H | [H1 H2]]; [lra|].
  destruct (desc_before_negtrans _ (Sig.Net_Expectancy_Pct b) _ H2) as [D | D].
  - left. apply before_spec. right. split; [lra | exact D].
  - right. apply before_spec. right. split; [lra | exact D].
Qed.

Lemma ranked_trans (a b c : Sig.t) : ranked a b -> ranked b c -> ranked a c.
Proof.
  unfold ranked. intros Hab Hbc.
  destruct (before c a) eqn:E; [|reflexivity].
  destruct (before_negtrans c b a E); congruence.
Qed.

Lemma insert_perm (x : Sig.t) (l : list Sig.t) :
  Permutation (insert x l) (x :: l).
Proof.
  induction l as [|y l IH]; simpl; [reflexivity|].
  destruct (before y x); [|reflexivity].
  rewrite IH. apply perm_swap.
Qed.

Lemma sort_values_perm (l : list Sig.t) : Permutation (sort_values l) l.
Proof.
  induction l as [|x l IH]; simpl; [reflexivity|].
  rewrite insert_perm. constructor. exact IH.
Qed.

Lemma insert_sorted (x : Sig.t) (l : list Sig.t) :
  StronglySorted ranked l -> StronglySorted ranked (insert x l).
Proof.
  induction 1 as [|y l Hs IH Hall]; simpl.
  - repeat constructor.
  - destruct (before y x) eqn:E.
    + constructor; [exact IH|].
      apply (Permutation_Forall (Permutation_sym (insert_perm x l))).
      constructor; [|exact Hall].
      unfold ranked. apply before_asym. exact E.
    + constructor; [constructor; assumption|].
      constructor; [exact E|].
      rewrite Forall_forall in Hall |- *.
      intros z Hz. apply (ranked_trans x y z); [exact E | apply Hall, Hz].
Qed.

Lemma sort_values_sorted (l : list Sig.t) :
  StronglySorted ranked (sort_values l).
Proof.
  induction l as [|x l IH]; simpl; [constructor|].
  apply insert_sorted. exact IH.
Qed.

Lemma sorted_app_ranked (l1 l2 : list Sig.t) :
  StronglySorted ranked (l1 ++ l2) ->
  forall s e, In s l1 -> In e l2 -> ranked s e.
Proof.
  induction l1 as [|x l1 IH]; simpl; intros Hs s e Hin1 Hin2; [contradiction|].
  inversion Hs as [|? ? Hs' Hall]; subst.
  destruct Hin1 as [<- | Hin1].
  - rewrite Forall_forall in Hall. apply Hall, in_or_app. right. exact Hin2.
  - apply IH; assumption.
Qed.

(** What [ranked] says about the two sort keys. *)
Lemma ranked_keys (s e : Sig.t) :
  ranked s e ->
  Sig.RR e <= Sig.RR s
  /\ (Sig.RR e == Sig.RR s ->
      desc_before (Sig.Net_Expectancy_Pct e) (Sig.Net_Expectancy_Pct s)
      = false).
Proof.
  unfold ranked. intro H. split.
  - destruct (Qlt_le_dec (Sig.RR s) (Sig.RR e)) as [Hlt | Hle]; [|exact Hle].
    assert (before e s = true) by (apply before_spec; left; exact Hlt).
    congruence.
  - intro Heq.
    destruct (desc_before _ _) eqn:D; [|reflexivity].
    assert (before e s = true) by (apply before_spec; right; split; assumption).
    congruence.
Qed.

End Ranking.

(** The allocation step is the tail of [main]: what [main] writes is
    the allocation of the day's generated signals to the free slots,
    and when [main] returns without writing, that allocation is
    empty. *)
Lemma main_allocates (cfg : Config) (today : Z)
      (file : option (list Short.t)) (fs : Files) :
  let signals :=
    Analyzer.generate_signals cfg today (Analyzer.load_shortlist file) in
  let available :=
    (Analyzer.MAX_TRADES cfg - Analyzer.check_existing_positions fs)%Z in
  match Analyzer.main cfg today file fs with
  | Some out => out = Analyzer.allocate signals available
  | None => Analyzer.allocate signals available = []
  end.
Proof.
  cbv zeta. unfold Analyzer.main, Analyzer.allocate.
  destruct (Analyzer.load_shortlist file) as [|row rest] eqn:Edf.
  - simpl. destruct (_ <=? 0)%Z; reflexivity.
  - destruct (_ <=? 0)%Z; [reflexivity|].
    destruct (Analyzer.generate_signals cfg today (row :: rest)); reflexivity.
Qed.

Lemma allocate_truncates (signals : list Sig.t) (available : Z) :
  (0 < available < Z.of_nat (List.length signals))%Z ->
  Analyzer.allocate signals available
  = firstn (Z.to_nat available) (Analyzer.sort_values signals).
Proof.
  intros [Hpos Hlt]. unfold Analyzer.allocate.
  destruct (available <=? 0)%Z eqn:E; [apply Z.leb_le in E; lia|].
  destruct signals as [|s rest]; [simpl in Hlt; lia|].
  unfold Analyzer.select_top_trades.
  destruct (_ <=? available)%Z eqn:E2; [apply Z.leb_le in E2; lia|].
  unfold Analyzer.head.
  destruct (0 <=? available)%Z eqn:E3; [reflexivity|].
  apply Z.leb_gt in E3. lia.
Qed.

Lemma allocate_passes_through (signals : list Sig.t) (available : Z) :
  (Z.of_nat (List.length signals) <= available)%Z ->
  Analyzer.allocate signals available = signals.
Proof.
  intro Hle. unfold Analyzer.allocate.
  destruct (available <=? 0)%Z eqn:E.
  - apply Z.leb_le in E. destruct signals; [reflexivity | simpl in Hle; lia].
  - destruct signals as [|s rest]; [reflexivity|].
    unfold Analyzer.select_top_trades.
    apply Z.leb_le in Hle. rewrite Hle. reflexivity.
Qed.

(** C9.  The allocation of the accepted signals to the free slots has
    size min (signal count, free slots) when there is a free slot; it
    is the signal list unchanged when the count is within the free
    slots; when it truncates, the selected and the excluded signals
    together are the accepted ones, every selected signal has a
    reward:risk at least that of every excluded one and, at equal
    reward:risk, the excluded one does not have the larger net
    expectancy percent; with no free slot the allocation is empty. *)
Theorem allocation_selects_top_ranked (signals : list Sig.t) (available : Z) :
  let out := Analyzer.allocate signals available in
  ((0 < available)%Z ->
   Z.of_nat (List.length out) = Z.min (Z.of_nat (List.length signals)) available)
  /\ ((Z.of_nat (List.length signals) <= available)%Z -> out = signals)
  /\ ((0 < available < Z.of_nat (List.length signals))%Z ->
      exists excluded : list Sig.t,
        Permutation (out ++ excluded) signals
        /\ forall s e, In s out -> In e excluded ->
             Sig.RR e <= Sig.RR s
             /\ (Sig.RR e == Sig.RR s ->
                 Analyzer.desc_before (Sig.Net_Expectancy_Pct e)
                                      (Sig.Net_Expectancy_Pct s) = false)
             /\ (Sig.RR e == Sig.RR s ->
                 forall x y : Q,
                   Sig.Net_Expectancy_Pct s = Fin x ->
                   Sig.Net_Expectancy_Pct e = Fin y -> y <= x))
  /\ ((available <= 0)%Z -> out = []).
Proof.
  cbv zeta. split; [|split; [|split]].
  - intro Hpos.
    destruct (Z.le_gt_cases (Z.of_nat (List.length signals)) available) as [Hle | Hgt].
    + rewrite (allocate_passes_through _ _ Hle). lia.
    + rewrite allocate_truncates by lia.
      rewrite length_firstn.
      rewrite (Permutation_length (sort_values_perm signals)). lia.
  - apply allocate_passes_through.
  - intro Hrange.
    rewrite (allocate_truncates _ _ Hrange).
    exists (skipn (Z.to_nat available) (Analyzer.sort_values signals)).
    split.
    + rewrite firstn_skipn. apply sort_values_perm.
    + intros s e Hs He.
      assert (Hr : Analyzer.ranked s e).
      { apply (sorted_app_ranked
                 (firstn (Z.to_nat available) (Analyzer.sort_values signals))
                 (skipn (Z.to_nat available) (Analyzer.sort_values signals)));
          [|assumption|assumption].
        rewrite firstn_skipn. apply sort_values_sorted. }
      destruct (ranked_keys s e Hr) as [H1 H2].
      split; [exact H1|]. split; [exact H2|].
      intros Heq x y Hx Hy. specialize (H2 Heq).
      rewrite Hx, Hy in H2. cbn in H2. apply Qltb_ge in H2. exact H2.
  - intro Hle. unfold Analyzer.allocate.
    apply Z.leb_le in Hle. rewrite Hle. reflexivity.
Qed.

Lemma allocation_selects_top_ranked_witness :
  let mk rr ne :=
    Sig.mk 0 "S" 100 95 110 116 rr 10 1000 50 5 3 (Fin 102) (Fin ne) 4 "relaxed" in
  let signals := [mk 2 1; mk 2 3; mk 1.5 9] in
  ((0 < 2 < Z.of_nat (List.length signals))%Z
   /\ Z.of_nat (List.length (Analyzer.allocate signals 2))
      = Z.min (Z.of_nat (List.length signals)) 2
   /\ exists excluded : list Sig.t,
       Permutation (Analyzer.allocate signals 2 ++ excluded) signals
       /\ forall s e, In s (Analyzer.allocate signals 2) -> In e excluded ->
            Sig.RR e <= Sig.RR s)
  /\ ((Z.of_nat (List.length signals) <= 5)%Z
      /\ Analyzer.allocate signals 5 = signals)
  /\ ((-1 <= 0)%Z /\ Analyzer.allocate signals (-1) = []).
Proof.
  intros mk signals.
  assert (H : (0 < 2 < Z.of_nat (List.length signals))%Z) by (simpl; lia).
  assert (H5 : (Z.of_nat (List.length signals) <= 5)%Z) by (simpl; lia).
  assert (Hn : (-1 <= 0)%Z) by lia.
  split; [|split].
  - split; [exact H|]. split.
    + exact (proj1 (allocation_selects_top_ranked signals 2) (proj1 H)).
    + destruct (proj1 (proj2 (proj2 (allocation_selects_top_ranked signals 2))) H)
        as [excluded [Hperm Hkeys]].
      exists excluded. split; [exact Hperm|].
      intros s e Hs He. exact (proj1 (Hkeys s e Hs He)).
  - split; [exact H5|].
    exact (proj1 (proj2 (allocation_selects_top_ranked signals 5)) H5).
  - split; [exact Hn|].
    exact (proj2 (proj2 (proj2 (allocation_selects_top_ranked signals (-1)))) Hn).
Defined.

(* ================================================================== *)
(** ** The tracker, one invocation *)
(* ================================================================== *)

Section TrackerTick.

Import Tracker.

Lemma fold_left_append (f : Sig.t -> Pos.t) (signals : list Sig.t)
      (tracker : list Pos.t) :
  fold_left (fun t row => t ++ [f row]) signals tracker
  = tracker ++ map f signals.
Proof.
  revert tracker. induction signals as [|row rest IH]; intro tracker; simpl.
  - rewrite app_nil_r. reflexivity.
  - rewrite IH, <- app_assoc. reflexivity.
Qed.

Lemma add_new_trades_app (env : Env) (tracker : list Pos.t) :
  add_new_trades env tracker = tracker ++ new_rows env.
Proof.
  unfold add_new_trades, new_rows.
  destruct (signals_file env) as [signals|].
  - apply fold_left_append.
  - rewrite app_nil_r. reflexivity.
Qed.

Lemma check_triggers_rows (df : list Pos.t) :
  check_triggers df
  = (flat_map (fun r => fst (check_row r)) df,
     map (fun r => snd (check_row r)) df).
Proof.
  induction df as [|r rest IH]; simpl; [reflexivity|].
  rewrite IH. destruct (check_row r). reflexivity.
Qed.

(** [main] treats the rows of the frame one by one. *)
Lemma main_rows (env : Env) (fs : Files) :
  main env fs
  = (flat_map (fun r => fst (tick_row env r))
              (add_new_trades env (load_tracker fs)),
     mkFiles (Some (map (fun r => snd (tick_row env r))
                        (add_new_trades env (load_tracker fs))))
             (trade_history_csv fs)).
Proof.
  unfold main. rewrite check_triggers_rows.
  unfold update_days_held, calculate_pnl, update_current_prices.
  rewrite !map_map. f_equal.
  induction (add_new_trades env (load_tracker fs)) as [|r rest IH]; simpl;
    [reflexivity|].
  rewrite IH. reflexivity.
Qed.

(** A row of the ledger keeps its index across an invocation. *)
Lemma main_nth_error (env : Env) (fs : Files) (i : nat) (r : Pos.t) :
  nth_error (load_tracker fs) i = Some r ->
  nth_error (load_tracker (snd (main env fs))) i
  = Some (snd (tick_row env r)).
Proof.
  intro H. rewrite main_rows. cbn [snd load_tracker trade_tracker_csv].
  apply (map_nth_error (fun r => snd (tick_row env r))).
  rewrite add_new_trades_app, nth_error_app1; [exact H|].
  apply nth_error_Some. congruence.
Qed.

Lemma run_nth_error (envs : list Env) (fs : Files) (i : nat) (r : Pos.t) :
  nth_error (load_tracker fs) i = Some r ->
  nth_error (load_tracker (run envs fs)) i = Some (row_after envs r).
Proof.
  revert fs r. induction envs as [|env rest IH]; intros fs r H; simpl.
  - exact H.
  - apply IH. apply main_nth_error. exact H.
Qed.

(** The preparation of a row leaves its stop, its flag, its status
    and its identity alone. *)
Lemma prepare_keeps (env : Env) (r : Pos.t) :
  Pos.SL (prepare env r) = Pos.SL r
  /\ Pos.T1_Hit (prepare env r) = Pos.T1_Hit r
  /\ Pos.Status (prepare env r) = Pos.Status r
  /\ Pos.Stock (prepare env r) = Pos.Stock r
  /\ Pos.Entry (prepare env r) = Pos.Entry r.
Proof.
  unfold prepare, days_row, pnl_row, refresh_row, Pos.is_active.
  destruct r; cbn.
  destruct (String.eqb Status "ACTIVE"); cbn;
    [destruct (quote env _); cbn|]; rewrite ?String.eqb_refl; cbn;
    repeat split; try reflexivity.
  all: destruct (String.eqb Status "ACTIVE"); cbn; reflexivity.
Qed.

End TrackerTick.

(* ================================================================== *)
(** ** The exit and adjustment rules on one row *)
(* ================================================================== *)

Section Rules.

Import Tracker.

Lemma count_rule_app (rule : string) (a b : list Action) :
  count_rule rule (a ++ b) = (count_rule rule a + count_rule rule b)%nat.
Proof.
  unfold count_rule. rewrite filter_app, length_app. reflexivity.
Qed.

Lemma fired_count (rule : string) (acts : list Action) :
  fired rule acts = true <-> (0 < count_rule rule acts)%nat.
Proof.
  unfold fired, count_rule.
  induction acts as [|a acts IH]; simpl.
  - split; [discriminate | lia].
  - destruct (String.eqb (Rule a) rule); simpl; [split; [lia | reflexivity]|].
    exact IH.
Qed.

Lemma is_active_eq (r : Pos.t) :
  Pos.is_active r = true <-> Pos.Status r = "ACTIVE"%string.
Proof. unfold Pos.is_active. apply String.eqb_eq. Qed.

Lemma is_active_prepare (env : Env) (r : Pos.t) :
  Pos.is_active (prepare env r) = Pos.is_active r.
Proof.
  unfold Pos.is_active.
  destruct (prepare_keeps env r) as (_ & _ & -> & _). reflexivity.
Qed.

(** The stop of a visited row is never lowered. *)
Lemma trigger_row_SL (row : Pos.t) :
  Pos.SL row <= Pos.SL (snd (trigger_row row)).
Proof.
  unfold trigger_row.
  destruct (Qle_bool (Pos.Current row) (Pos.SL row));
    [destruct row; cbn; apply Qle_refl|].
  destruct (xge (Pos.PnL_Pct row) (Fin 3) && Qltb (Pos.SL row) (Pos.Entry row))
    eqn:Eb;
    destruct (Qle_bool (Pos.T1 row) (Pos.Current row) && negb (Pos.T1_Hit row));
    destruct row; cbn [fst snd Pos.SL Pos.Entry Pos.set_SL Pos.set_T1_Hit] in *.
  - apply andb_true_iff in Eb. destruct Eb as [_ Eb]. apply Qltb_lt in Eb.
    eapply Qle_trans; [apply Qlt_le_weak, Eb | apply py_max_ge_l].
  - apply andb_true_iff in Eb. destruct Eb as [_ Eb]. apply Qltb_lt in Eb.
    apply Qlt_le_weak, Eb.
  - apply py_max_ge_l.
  - apply Qle_refl.
Qed.

(** The first-target rule fires at most once in a visit, only on a
    row whose flag is down, and raises the flag; nothing lowers the
    flag. *)
Lemma trigger_row_T1 (row : Pos.t) :
  let o := trigger_row row in
  (count_rule "T1_HIT" (fst o) <= 1)%nat
  /\ (count_rule "T1_HIT" (fst o) = 1%nat ->
      Pos.T1_Hit row = false /\ Pos.T1_Hit (snd o) = true)
  /\ (count_rule "T1_HIT" (fst o) = 0%nat ->
      Pos.T1_Hit (snd o) = Pos.T1_Hit row).
Proof.
  cbv zeta. unfold trigger_row.
  destruct (Qle_bool (Pos.Current row) (Pos.SL row));
    [destruct row; cbn; repeat split; auto; discriminate|].
  destruct (xge (Pos.PnL_Pct row) (Fin 3) && Qltb (Pos.SL row) (Pos.Entry row));
    destruct (Qle_bool (Pos.T1 row) (Pos.Current row)) eqn:Et;
    destruct (Pos.T1_Hit row) eqn:Eh;
    destruct (25 <=? Pos.Days_Held row)%Z;
    destruct row; cbn in *; subst;
    repeat split; auto; try discriminate; try lia.
Qed.

(** The status of a visited row stays ACTIVE or becomes CLOSED. *)
Lemma trigger_row_status (row : Pos.t) :
  Pos.Status (snd (trigger_row row)) = Pos.Status row
  \/ Pos.Status (snd (trigger_row row)) = "CLOSED"%string.
Proof.
  unfold trigger_row.
  destruct (Qle_bool (Pos.Current row) (Pos.SL row));
    [right; destruct row; reflexivity|].
  left.
  destruct (xge (Pos.PnL_Pct row) (Fin 3) && Qltb (Pos.SL row) (Pos.Entry row));
    destruct (Qle_bool (Pos.T1 row) (Pos.Current row) && negb (Pos.T1_Hit row));
    destruct row; reflexivity.
Qed.

Lemma check_row_inactive (r : Pos.t) :
  Pos.is_active r = false -> check_row r = ([], r).
Proof. intro H. unfold check_row. rewrite H. reflexivity. Qed.

Lemma tick_row_inactive (env : Env) (r : Pos.t) :
  Pos.is_active r = false -> tick_row env r = ([], prepare env r).
Proof.
  intro H. unfold tick_row. apply check_row_inactive.
  rewrite is_active_prepare. exact H.
Qed.

Lemma tick_row_SL (env : Env) (r : Pos.t) :
  Pos.SL r <= Pos.SL (snd (tick_row env r)).
Proof.
  destruct (prepare_keeps env r) as (Hsl & _).
  unfold tick_row, check_row.
  destruct (Pos.is_active (prepare env r)).
  - rewrite <- Hsl. apply trigger_row_SL.
  - cbn. rewrite Hsl. apply Qle_refl.
Qed.

Lemma tick_row_T1 (env : Env) (r : Pos.t) :
  let o := tick_row env r in
  (count_rule "T1_HIT" (fst o) <= 1)%nat
  /\ (count_rule "T1_HIT" (fst o) = 1%nat ->
      Pos.T1_Hit r = false /\ Pos.T1_Hit (snd o) = true)
  /\ (count_rule "T1_HIT" (fst o) = 0%nat ->
      Pos.T1_Hit (snd o) = Pos.T1_Hit r).
Proof.
  cbv zeta.
  destruct (prepare_keeps env r) as (_ & Hh & _).
  unfold tick_row, check_row.
  destruct (Pos.is_active (prepare env r)).
  - rewrite <- Hh. apply trigger_row_T1.
  - cbn. repeat split; auto; try discriminate.
Qed.

Lemma tick_row_status (env : Env) (r : Pos.t) :
  Pos.Status (snd (tick_row env r)) = Pos.Status r
  \/ (Pos.Status r = "ACTIVE"%string
      /\ Pos.Status (snd (tick_row env r)) = "CLOSED"%string).
Proof.
  destruct (prepare_keeps env r) as (_ & _ & Hs & _).
  unfold tick_row, check_row.
  destruct (Pos.is_active (prepare env r)) eqn:Ea.
  - rewrite is_active_prepare in Ea. apply is_active_eq in Ea.
    destruct (trigger_row_status (prepare env r)) as [H | H].
    + left. rewrite H. exact Hs.
    + right. split; assumption.
  - left. exact Hs.
Qed.

End Rules.

(* ================================================================== *)
(** ** The tracker over successive invocations *)
(* ================================================================== *)

Section Lifetime.

Import Tracker.

Lemma prepare_current (env : Env) (r : Pos.t) :
  Pos.is_active r = true ->
  Pos.Current (prepare env r)
  = match quote env (Pos.Stock r ++ ".NS")%string with
    | Some close => round2 close
    | None => Pos.Current r
    end.
Proof.
  unfold prepare, days_row, pnl_row, refresh_row, Pos.is_active.
  destruct r; cbn. intro Ha. rewrite Ha.
  destruct (quote env _); cbn; rewrite Ha; reflexivity.
Qed.

Lemma row_after_SL (envs : list Env) (r : Pos.t) :
  Pos.SL r <= Pos.SL (row_after envs r).
Proof.
  revert r. induction envs as [|env rest IH]; intro r; simpl.
  - apply Qle_refl.
  - eapply Qle_trans; [apply tick_row_SL | apply IH].
Qed.

Lemma row_after_inactive (envs : list Env) (r : Pos.t) :
  Pos.is_active r = false ->
  Pos.Status (row_after envs r) = Pos.Status r
  /\ Pos.is_active (row_after envs r) = false.
Proof.
  revert r. induction envs as [|env rest IH]; intros r H; simpl.
  - split; [reflexivity | exact H].
  - rewrite (tick_row_inactive env r H). cbn [snd].
    assert (H' : Pos.is_active (prepare env r) = false)
      by (rewrite is_active_prepare; exact H).
    destruct (IH _ H') as [IH1 IH2].
    split; [|exact IH2].
    rewrite IH1. destruct (prepare_keeps env r) as (_ & _ & Hs & _). exact Hs.
Qed.

Lemma row_after_T1 (envs : list Env) (r : Pos.t) :
  Pos.T1_Hit r = true -> Pos.T1_Hit (row_after envs r) = true.
Proof.
  revert r. induction envs as [|env rest IH]; intros r H; simpl; [exact H|].
  apply IH.
  destruct (tick_row_T1 env r) as (Hle & H1 & H0). cbv zeta in *.
  destruct (count_rule "T1_HIT" (fst (tick_row env r))) as [|[|n]] eqn:E.
  - rewrite (H0 eq_refl). exact H.
  - destruct (H1 eq_refl) as [Hf _]. congruence.
  - lia.
Qed.

Lemma trace_T1 (envs : list Env) (r : Pos.t) :
  (count_rule "T1_HIT" (flat_map fst (trace envs r)) <= 1)%nat
  /\ (Pos.T1_Hit r = true ->
      count_rule "T1_HIT" (flat_map fst (trace envs r)) = 0%nat).
Proof.
  revert r. induction envs as [|env rest IH]; intro r; simpl.
  - split; [cbv; lia | reflexivity].
  - rewrite count_rule_app.
    destruct (tick_row_T1 env r) as (Hle & H1 & H0). cbv zeta in *.
    destruct (IH (snd (tick_row env r))) as [IHle IH0].
    destruct (count_rule "T1_HIT" (fst (tick_row env r))) as [|[|n]] eqn:E.
    + specialize (H0 eq_refl). split; [simpl; exact IHle|].
      intro H. simpl. apply IH0. congruence.
    + destruct (H1 eq_refl) as [Hf Ht]. rewrite (IH0 Ht).
      split; [lia | intro H; congruence].
    + lia.
Qed.

Lemma trace_nth (envs : list Env) (r : Pos.t) (k : nat) (env : Env) :
  nth_error envs k = Some env ->
  nth_error (trace envs r) k
  = Some (tick_row env (row_after (firstn k envs) r)).
Proof.
  revert r k. induction envs as [|e rest IH]; intros r k H.
  - destruct k; discriminate H.
  - destruct k as [|k]; simpl in *.
    + injection H as ->. reflexivity.
    + apply IH. exact H.
Qed.

End Lifetime.

(** The first-target example of the specification: entry 100, stop 95,
    ATR 4, first target 106, price 109.  The rule fires and the stop
    becomes max (stop, 109 - 6) = 103. *)
Example first_target_example :
  let p := Pos.mk 0 "ABC" 100 95 106 112 100 10000 100 0 (Fin 0) 0
                  "ACTIVE" "" 4 false in
  let env := Tracker.mkEnv 3 None (fun _ => Some 109) in
  Tracker.fired "T1_HIT" (fst (Tracker.tick_row env p)) = true
  /\ Pos.SL (snd (Tracker.tick_row env p)) == 103
  /\ Pos.T1_Hit (snd (Tracker.tick_row env p)) = true.
Proof. intros p env. repeat split; reflexivity. Qed.

(** The stop-hit example of the specification: entry 100, stop 100 after
    the breakeven lock, price 99.  SL_HIT fires and the row is CLOSED. *)
Example stop_hit_example :
  let p := Pos.mk 0 "ABC" 100 100 106 112 100 10000 104 400 (Fin 4) 2
                  "ACTIVE" "" 4 false in
  let env := Tracker.mkEnv 3 None (fun _ => Some 99) in
  map Tracker.Rule (fst (Tracker.tick_row env p)) = ["SL_HIT"%string]
  /\ Pos.Status (snd (Tracker.tick_row env p)) = "CLOSED"%string.
Proof. intros p env. split; reflexivity. Qed.

(** C6.  Over any sequence of invocations of the tracker, from any
    ledger, the row at an index of the ledger is still at that index
    and its stop-loss is at least what it was: no invocation lowers
    the stop-loss of a position, whether or not the breakeven lock or
    the first-target rule has already fired for it. *)
Theorem stop_loss_never_lowered
        (envs : list Tracker.Env) (fs : Files) (i : nat) (r : Pos.t) :
  nth_error (Tracker.load_tracker fs) i = Some r ->
  exists r' : Pos.t,
    nth_error (Tracker.load_tracker (Tracker.run envs fs)) i = Some r'
    /\ Pos.SL r <= Pos.SL r'.
Proof.
  intro H. exists (Tracker.row_after envs r). split.
  - apply run_nth_error. exact H.
  - apply row_after_SL.
Qed.

(** C7.  Over any sequence of invocations, the actions emitted for one
    position hold at most one T1_HIT; on each invocation the rule fires
    exactly when the flag goes from false to true; and a flag that is
    true stays true.  The row followed is the row of the ledger: after
    the invocations it is at the index it had, and the actions counted
    on the k-th invocation are those for the row as the first k
    invocations left it. *)
Theorem first_target_hit_at_most_once (envs : list Tracker.Env) (r : Pos.t) :
  (Tracker.count_rule "T1_HIT" (flat_map fst (Tracker.trace envs r)) <= 1)%nat
  /\ (forall env : Tracker.Env,
         Tracker.fired "T1_HIT" (fst (Tracker.tick_row env r)) = true <->
         Pos.T1_Hit r = false
         /\ Pos.T1_Hit (snd (Tracker.tick_row env r)) = true)
  /\ (Pos.T1_Hit r = true -> Pos.T1_Hit (Tracker.row_after envs r) = true)
  /\ (forall (fs : Files) (i : nat),
         nth_error (Tracker.load_tracker fs) i = Some r ->
         nth_error (Tracker.load_tracker (Tracker.run envs fs)) i
         = Some (Tracker.row_after envs r))
  /\ (forall (k : nat) (env : Tracker.Env),
         nth_error envs k = Some env ->
         nth_error (Tracker.trace envs r) k
         = Some (Tracker.tick_row env (Tracker.row_after (firstn k envs) r))).
Proof.
  split; [apply trace_T1|]. split; [|split; [|split]].
  - intro env. rewrite fired_count.
    destruct (tick_row_T1 env r) as (Hle & H1 & H0). cbv zeta in *.
    destruct (Tracker.count_rule "T1_HIT" (fst (Tracker.tick_row env r)))
      as [|[|n]] eqn:E.
    + specialize (H0 eq_refl). split; [lia|]. intros [Hf Ht]. congruence.
    + split; [intros _; apply H1; reflexivity | lia].
    + lia.
  - apply row_after_T1.
  - intros fs i H. apply run_nth_error. exact H.
  - intros k env H. apply trace_nth. exact H.
Qed.

(** C8.  On an invocation, an ACTIVE position whose refreshed current
    price is at most its stop-loss gets exactly one action, SL_HIT, and
    its row changes in nothing but its status, which becomes CLOSED: no
    other rule is evaluated for it.  The status of a row either stays
    what it was or goes from ACTIVE to CLOSED, and a row that is not
    ACTIVE gets no action and keeps its status, stop-loss and flag.
    [main] treats each row of the frame in this way. *)
Theorem stop_hit_closes_position :
  (forall (env : Tracker.Env) (r : Pos.t),
      Pos.is_active r = true ->
      Pos.Current (Tracker.prepare env r) <= Pos.SL r ->
      Tracker.tick_row env r
      = ([Tracker.mkAction (Pos.Stock r) "SL_HIT"
            (Tracker.SL_hit_exit (Pos.Current (Tracker.prepare env r)))],
         Pos.set_Status "CLOSED" (Tracker.prepare env r))
      /\ Pos.Current (Tracker.prepare env r)
         = match Tracker.quote env (Pos.Stock r ++ ".NS")%string with
           | Some close => round2 close
           | None => Pos.Current r
           end)
  /\ (forall (env : Tracker.Env) (r : Pos.t),
         Pos.Status (snd (Tracker.tick_row env r)) = Pos.Status r
         \/ (Pos.Status r = "ACTIVE"%string
             /\ Pos.Status (snd (Tracker.tick_row env r)) = "CLOSED"%string))
  /\ (forall (env : Tracker.Env) (r : Pos.t),
         Pos.Status r <> "ACTIVE"%string ->
         fst (Tracker.tick_row env r) = []
         /\ Pos.Status (snd (Tracker.tick_row env r)) = Pos.Status r
         /\ Pos.SL (snd (Tracker.tick_row env r)) = Pos.SL r
         /\ Pos.T1_Hit (snd (Tracker.tick_row env r)) = Pos.T1_Hit r)
  /\ (forall (env : Tracker.Env) (fs : Files),
         Tracker.main env fs
         = (flat_map (fun r => fst (Tracker.tick_row env r))
                     (Tracker.add_new_trades env (Tracker.load_tracker fs)),
            mkFiles (Some (map (fun r => snd (Tracker.tick_row env r))
                               (Tracker.add_new_trades env
                                  (Tracker.load_tracker fs))))
                    (trade_history_csv fs))).
Proof.
  split; [|split; [|split]].
  - intros env r Ha Hle. split; [|apply prepare_current; exact Ha].
    destruct (prepare_keeps env r) as (Hsl & _ & _ & Hst & _).
    unfold Tracker.tick_row, Tracker.check_row.
    rewrite is_active_prepare, Ha. unfold Tracker.trigger_row.
    rewrite Hsl, Hst. apply Qle_bool_iff in Hle. rewrite Hle. reflexivity.
  - exact tick_row_status.
  - intros env r Hs.
    assert (Ha : Pos.is_active r = false).
    { destruct (Pos.is_active r) eqn:E; [|reflexivity].
      apply is_active_eq in E. contradiction. }
    rewrite (tick_row_inactive env r Ha). cbn [fst snd].
    destruct (prepare_keeps env r) as (H1 & H2 & H3 & _). auto.
  - exact main_rows.
Qed.

Lemma stop_loss_never_lowered_witness :
  let p := Pos.mk 0 "ABC" 100 95 106 112 100 10000 100 0 (Fin 0) 0
                  "ACTIVE" "" 4 false in
  let env := Tracker.mkEnv 3 None (fun _ => Some 109) in
  let fs := mkFiles (Some [p]) None in
  nth_error (Tracker.load_tracker fs) 0 = Some p
  /\ exists r' : Pos.t,
      nth_error (Tracker.load_tracker (Tracker.run [env] fs)) 0 = Some r'
      /\ Pos.SL p <= Pos.SL r'.
Proof.
  intros p env fs.
  assert (H : nth_error (Tracker.load_tracker fs) 0 = Some p) by reflexivity.
  split; [exact H|].
  exact (stop_loss_never_lowered [env] fs 0%nat p H).
Defined.

Lemma first_target_hit_at_most_once_witness :
  let p := Pos.mk 0 "ABC" 100 103 106 112 100 10000 109 900 (Fin 9) 3
                  "ACTIVE" "" 4 true in
  let env := Tracker.mkEnv 4 None (fun _ => Some 111) in
  let fs := mkFiles (Some [p]) None in
  Pos.T1_Hit p = true
  /\ Pos.T1_Hit (Tracker.row_after [env; env] p) = true
  /\ nth_error (Tracker.load_tracker fs) 0 = Some p
  /\ nth_error (Tracker.load_tracker (Tracker.run [env; env] fs)) 0
     = Some (Tracker.row_after [env; env] p)
  /\ nth_error [env; env] 1 = Some env
  /\ nth_error (Tracker.trace [env; env] p) 1
     = Some (Tracker.tick_row env (Tracker.row_after (firstn 1 [env; env]) p)).
Proof.
  intros p env fs.
  assert (H : Pos.T1_Hit p = true) by reflexivity.
  assert (Hi : nth_error (Tracker.load_tracker fs) 0 = Some p) by reflexivity.
  assert (Hk : nth_error [env; env] 1 = Some env) by reflexivity.
  pose proof (first_target_hit_at_most_once [env; env] p) as (_ & _ & H3 & H4 & H5).
  split; [exact H|]. split; [exact (H3 H)|].
  split; [exact Hi|]. split; [exact (H4 fs 0%nat Hi)|].
  split; [exact Hk|]. exact (H5 1%nat env Hk).
Defined.

Lemma stop_hit_closes_position_witness :
  let p := Pos.mk 0 "ABC" 100 100 106 112 100 10000 104 400 (Fin 4) 2
                  "ACTIVE" "" 4 false in
  let c := Pos.set_Status "CLOSED" p in
  let env := Tracker.mkEnv 3 None (fun _ => Some 99) in
  (Pos.is_active p = true
   /\ Pos.Current (Tracker.prepare env p) <= Pos.SL p
   /\ Tracker.tick_row env p
      = ([Tracker.mkAction (Pos.Stock p) "SL_HIT"
            (Tracker.SL_hit_exit (Pos.Current (Tracker.prepare env p)))],
         Pos.set_Status "CLOSED" (Tracker.prepare env p)))
  /\ (Pos.Status c <> "ACTIVE"%string
      /\ fst (Tracker.tick_row env c) = []
      /\ Pos.Status (snd (Tracker.tick_row env c)) = Pos.Status c).
Proof.
  intros p c env.
  assert (Ha : Pos.is_active p = true) by reflexivity.
  assert (Hle : Pos.Current (Tracker.prepare env p) <= Pos.SL p)
    by (vm_compute; discriminate).
  assert (Hc : Pos.Status c <> "ACTIVE"%string) by (vm_compute; discriminate).
  pose proof (proj1 (proj2 (proj2 stop_hit_closes_position)) env c Hc)
    as (Hc1 & Hc2 & _).
  split.
  - split; [exact Ha|]. split; [exact Hle|].
    exact (proj1 (proj1 stop_hit_closes_position env p Ha Hle)).
  - split; [exact Hc|]. split; [exact Hc1 | exact Hc2].
Defined.

(* ================================================================== *)
(** ** Ingestion and the ledgers *)
(* ================================================================== *)

Section Ledgers.

Import Tracker.

Lemma new_rows_active (env : Env) : active (new_rows env) = new_rows env.
Proof.
  unfold new_rows, active.
  destruct (signals_file env) as [signals|]; [|reflexivity].
  induction signals as [|s rest IH]; simpl; [reflexivity|].
  rewrite IH. reflexivity.
Qed.

Lemma new_rows_length (env : Env) :
  List.length (new_rows env)
  = match signals_file env with
    | Some signals => List.length signals
    | None => 0%nat
    end.
Proof.
  unfold new_rows. destruct (signals_file env); [apply length_map | reflexivity].
Qed.

Lemma run_history (envs : list Env) (fs : Files) :
  trade_history_csv (run envs fs) = trade_history_csv fs.
Proof.
  revert fs. induction envs as [|env rest IH]; intro fs; simpl; [reflexivity|].
  rewrite IH, main_rows. reflexivity.
Qed.

Lemma main_length (env : Env) (fs : Files) :
  List.length (load_tracker (snd (main env fs)))
  = (List.length (load_tracker fs) + List.length (new_rows env))%nat.
Proof.
  rewrite main_rows. cbn [snd load_tracker trade_tracker_csv].
  rewrite length_map, add_new_trades_app, length_app. reflexivity.
Qed.

End Ledgers.

(** C1, as the code has it.  Ingestion appends one ACTIVE row per
    signal of the day's file to the tracker, whatever rows the tracker
    already holds: ingesting the same batch a second time appends the
    same rows again, so the active rows grow by the size of the batch
    each time. *)
Theorem ingestion_appends_every_signal
        (env : Tracker.Env) (tracker : list Pos.t) :
  Tracker.add_new_trades env tracker = tracker ++ Tracker.new_rows env
  /\ Tracker.add_new_trades env (Tracker.add_new_trades env tracker)
     = Tracker.add_new_trades env tracker ++ Tracker.new_rows env
  /\ Tracker.active (Tracker.add_new_trades env (Tracker.add_new_trades env tracker))
     = Tracker.active (Tracker.add_new_trades env tracker) ++ Tracker.new_rows env
  /\ List.length (Tracker.new_rows env)
     = match Tracker.signals_file env with
       | Some signals => List.length signals
       | None => 0%nat
       end.
Proof.
  split; [apply add_new_trades_app|].
  split; [apply add_new_trades_app|].
  split; [|apply new_rows_length].
  rewrite (add_new_trades_app env (Tracker.add_new_trades env tracker)).
  unfold Tracker.active at 1. rewrite filter_app.
  fold (Tracker.active (Tracker.add_new_trades env tracker)).
  fold (Tracker.active (Tracker.new_rows env)).
  rewrite new_rows_active. reflexivity.
Qed.

(** C1, as stated, fails: ingesting a one-signal batch twice leaves two
    ACTIVE rows for the symbol where one ingestion leaves one, also
    when the tracker is run twice on the day. *)
Lemma reingestion_duplicates_rows :
  let s := Sig.mk 7 "ABC" 100 95 110 116 2 100 10000 500 5 45.84
                  (Fin 102.46) (Fin 9.54) 4 "relaxed" in
  let env := Tracker.mkEnv 7 (Some [s]) (fun _ => None) in
  let once := Tracker.add_new_trades env [] in
  let twice := Tracker.add_new_trades env once in
  Tracker.active once = [Tracker.new_trade 7 s]
  /\ Tracker.active twice = [Tracker.new_trade 7 s; Tracker.new_trade 7 s]
  /\ Tracker.active twice <> Tracker.active once
  /\ List.length
       (Tracker.active
          (Tracker.load_tracker (Tracker.run [env] (mkFiles None None))))
     = 1%nat
  /\ List.length
       (Tracker.active
          (Tracker.load_tracker (Tracker.run [env; env] (mkFiles None None))))
     = 2%nat.
Proof.
  intros s env once twice.
  split; [reflexivity|]. split; [reflexivity|].
  split; [|split; vm_compute; reflexivity].
  intro H. apply (f_equal (@List.length Pos.t)) in H. discriminate H.
Qed.

(** C2, as the code has it.  The tracker never writes the closed-trade
    ledger and never takes a row out of the tracker ledger: an
    invocation leaves every row of the ledger at its index, CLOSED rows
    included, followed by the day's new rows.  A row that is not ACTIVE
    keeps its status over every later invocation, so a CLOSED row is
    never ACTIVE again. *)
Theorem closed_rows_stay_closed_in_tracker
        (envs : list Tracker.Env) (fs : Files) :
  trade_history_csv (Tracker.run envs fs) = trade_history_csv fs
  /\ (forall env : Tracker.Env,
         List.length (Tracker.load_tracker (snd (Tracker.main env fs)))
         = (List.length (Tracker.load_tracker fs)
            + List.length (Tracker.new_rows env))%nat)
  /\ (forall (env : Tracker.Env) (i : nat) (r : Pos.t),
         nth_error (Tracker.load_tracker fs) i = Some r ->
         nth_error (Tracker.load_tracker (snd (Tracker.main env fs))) i
         = Some (snd (Tracker.tick_row env r)))
  /\ (forall (i : nat) (r : Pos.t),
         nth_error (Tracker.load_tracker fs) i = Some r ->
         Pos.is_active r = false ->
         exists r' : Pos.t,
           nth_error (Tracker.load_tracker (Tracker.run envs fs)) i = Some r'
           /\ Pos.Status r' = Pos.Status r
           /\ Pos.is_active r' = false).
Proof.
  split; [apply run_history|].
  split; [intro env; apply main_length|].
  split; [intros env i r; apply main_nth_error|].
  intros i r H Ha. exists (Tracker.row_after envs r).
  split; [apply run_nth_error; exact H|].
  apply row_after_inactive. exact Ha.
Qed.

(** C2, as stated, fails: after the invocation that closes a position
    on its stop, the CLOSED row is still the row of the tracker ledger
    and the closed-trade ledger that the reporter reads is still
    absent. *)
Lemma closed_row_stays_in_tracker_file :
  let p := Pos.mk 0 "ABC" 100 95 106 112 100 10000 100 0 (Fin 0) 0
                  "ACTIVE" "" 4 false in
  let env := Tracker.mkEnv 1 None (fun _ => Some 94) in
  let fs := mkFiles (Some [p]) None in
  let fs' := snd (Tracker.main env fs) in
  map Tracker.Rule (fst (Tracker.main env fs)) = ["SL_HIT"%string]
  /\ map Pos.Stock (Tracker.load_tracker fs') = ["ABC"%string]
  /\ map Pos.Status (Tracker.load_tracker fs') = ["CLOSED"%string]
  /\ trade_history_csv fs' = None
  /\ Reporter.load_trade_history fs' = [].
Proof.
  intros p env fs fs'. repeat split; reflexivity.
Qed.

Lemma closed_rows_stay_closed_in_tracker_witness :
  let p := Pos.mk 0 "ABC" 100 95 106 112 100 10000 94 (-600) (Fin (-6)) 1
                  "CLOSED" "" 4 false in
  let env := Tracker.mkEnv 2 None (fun _ => Some 120) in
  let fs := mkFiles (Some [p]) None in
  nth_error (Tracker.load_tracker fs) 0 = Some p
  /\ Pos.is_active p = false
  /\ nth_error (Tracker.load_tracker (snd (Tracker.main env fs))) 0
     = Some (snd (Tracker.tick_row env p))
  /\ exists r' : Pos.t,
      nth_error (Tracker.load_tracker (Tracker.run [env; env] fs)) 0 = Some r'
      /\ Pos.Status r' = Pos.Status p
      /\ Pos.is_active r' = false.
Proof.
  intros p env fs.
  assert (H : nth_error (Tracker.load_tracker fs) 0 = Some p) by reflexivity.
  assert (Ha : Pos.is_active p = false) by reflexivity.
  pose proof (closed_rows_stay_closed_in_tracker [env; env] fs)
    as (_ & _ & H3 & H4).
  split; [exact H|]. split; [exact Ha|].
  split; [exact (H3 env 0%nat p H)|].
  exact (H4 0%nat p H Ha).
Defined.

(* ================================================================== *)
(** ** More on the tracker: what a row keeps and what fires once *)
(* ================================================================== *)

Section RowFacts.

Import Tracker.

(** The preparation and the rules leave the identity of the position
    alone: only Current, the P&L, the days held, the stop, the status
    and the flag are ever written. *)
Lemma prepare_identity (env : Env) (r : Pos.t) :
  Pos.Date (prepare env r) = Pos.Date r
  /\ Pos.Stock (prepare env r) = Pos.Stock r
  /\ Pos.Entry (prepare env r) = Pos.Entry r
  /\ Pos.T1 (prepare env r) = Pos.T1 r
  /\ Pos.T2 (prepare env r) = Pos.T2 r
  /\ Pos.Quantity (prepare env r) = Pos.Quantity r
  /\ Pos.Position (prepare env r) = Pos.Position r
  /\ Pos.ATR (prepare env r) = Pos.ATR r
  /\ Pos.Notes (prepare env r) = Pos.Notes r.
Proof.
  unfold prepare, days_row, pnl_row, refresh_row, Pos.is_active.
  destruct r; cbn.
  destruct (String.eqb Status "ACTIVE") eqn:Ea; cbn;
    [destruct (quote env _); cbn|]; rewrite ?Ea; cbn; repeat split.
Qed.

Lemma trigger_row_identity (row : Pos.t) :
  Pos.Date (snd (trigger_row row)) = Pos.Date row
  /\ Pos.Stock (snd (trigger_row row)) = Pos.Stock row
  /\ Pos.Entry (snd (trigger_row row)) = Pos.Entry row
  /\ Pos.T1 (snd (trigger_row row)) = Pos.T1 row
  /\ Pos.T2 (snd (trigger_row row)) = Pos.T2 row
  /\ Pos.Quantity (snd (trigger_row row)) = Pos.Quantity row
  /\ Pos.Position (snd (trigger_row row)) = Pos.Position row
  /\ Pos.ATR (snd (trigger_row row)) = Pos.ATR row
  /\ Pos.Notes (snd (trigger_row row)) = Pos.Notes row.
Proof.
  unfold trigger_row.
  destruct (Qle_bool (Pos.Current row) (Pos.SL row));
    [destruct row; cbn; repeat split|].
  destruct (xge (Pos.PnL_Pct row) (Fin 3) && Qltb (Pos.SL row) (Pos.Entry row));
    destruct (Qle_bool (Pos.T1 row) (Pos.Current row) && negb (Pos.T1_Hit row));
    destruct row; cbn; repeat split.
Qed.

Lemma tick_row_identity (env : Env) (r : Pos.t) :
  Pos.Date (snd (tick_row env r)) = Pos.Date r
  /\ Pos.Stock (snd (tick_row env r)) = Pos.Stock r
  /\ Pos.Entry (snd (tick_row env r)) = Pos.Entry r
  /\ Pos.T1 (snd (tick_row env r)) = Pos.T1 r
  /\ Pos.T2 (snd (tick_row env r)) = Pos.T2 r
  /\ Pos.Quantity (snd (tick_row env r)) = Pos.Quantity r
  /\ Pos.Position (snd (tick_row env r)) = Pos.Position r
  /\ Pos.ATR (snd (tick_row env r)) = Pos.ATR r
  /\ Pos.Notes (snd (tick_row env r)) = Pos.Notes r.
Proof.
  destruct (prepare_identity env r) as (H1 & H2 & H3 & H4 & H5 & H6 & H7 & H8 & H9).
  unfold tick_row, check_row.
  destruct (Pos.is_active (prepare env r)); cbn [snd].
  - destruct (trigger_row_identity (prepare env r))
      as (G1 & G2 & G3 & G4 & G5 & G6 & G7 & G8 & G9).
    repeat split; congruence.
  - repeat split; assumption.
Qed.

Lemma row_after_identity (envs : list Env) (r : Pos.t) :
  Pos.Date (row_after envs r) = Pos.Date r
  /\ Pos.Stock (row_after envs r) = Pos.Stock r
  /\ Pos.Entry (row_after envs r) = Pos.Entry r
  /\ Pos.T1 (row_after envs r) = Pos.T1 r
  /\ Pos.T2 (row_after envs r) = Pos.T2 r
  /\ Pos.Quantity (row_after envs r) = Pos.Quantity r
  /\ Pos.Position (row_after envs r) = Pos.Position r
  /\ Pos.ATR (row_after envs r) = Pos.ATR r
  /\ Pos.Notes (row_after envs r) = Pos.Notes r.
Proof.
  revert r. induction envs as [|env rest IH]; intro r; simpl.
  - repeat split.
  - destruct (IH (snd (tick_row env r)))
      as (H1 & H2 & H3 & H4 & H5 & H6 & H7 & H8 & H9).
    destruct (tick_row_identity env r)
      as (G1 & G2 & G3 & G4 & G5 & G6 & G7 & G8 & G9).
    repeat split; congruence.
Qed.

(** [calculate_pnl] reads only Current, Entry and Quantity, which the
    later steps of an invocation do not write: the row an invocation
    leaves has the P&L of its own Current. *)
Lemma pnl_row_idempotent (r : Pos.t) : pnl_row (pnl_row r) = pnl_row r.
Proof. destruct r; reflexivity. Qed.

Lemma pnl_row_days_row (env : Env) (r : Pos.t) :
  pnl_row (days_row env r) = days_row env (pnl_row r).
Proof.
  unfold days_row, pnl_row, Pos.is_active. destruct r; cbn.
  destruct (String.eqb Status "ACTIVE"); reflexivity.
Qed.

Lemma pnl_row_set_Status (v : string) (r : Pos.t) :
  pnl_row (Pos.set_Status v r) = Pos.set_Status v (pnl_row r).
Proof. destruct r; reflexivity. Qed.

Lemma pnl_row_set_SL (v : Q) (r : Pos.t) :
  pnl_row (Pos.set_SL v r) = Pos.set_SL v (pnl_row r).
Proof. destruct r; reflexivity. Qed.

Lemma pnl_row_set_T1_Hit (v : bool) (r : Pos.t) :
  pnl_row (Pos.set_T1_Hit v r) = Pos.set_T1_Hit v (pnl_row r).
Proof. destruct r; reflexivity. Qed.

Lemma pnl_row_trigger_row (row : Pos.t) :
  pnl_row row = row -> pnl_row (snd (trigger_row row)) = snd (trigger_row row).
Proof.
  intro H. unfold trigger_row.
  destruct (Qle_bool (Pos.Current row) (Pos.SL row)).
  - cbn [snd]. rewrite pnl_row_set_Status, H. reflexivity.
  - destruct (xge (Pos.PnL_Pct row) (Fin 3) && Qltb (Pos.SL row) (Pos.Entry row));
      destruct (Qle_bool (Pos.T1 row) (Pos.Current row) && negb (Pos.T1_Hit row));
      cbn [snd fst];
      rewrite ?pnl_row_set_SL, ?pnl_row_set_T1_Hit, ?pnl_row_set_SL, H;
      reflexivity.
Qed.

Lemma pnl_row_tick_row (env : Env) (r : Pos.t) :
  pnl_row (snd (tick_row env r)) = snd (tick_row env r).
Proof.
  assert (Hp : pnl_row (prepare env r) = prepare env r).
  { unfold prepare. rewrite pnl_row_days_row, pnl_row_idempotent. reflexivity. }
  unfold tick_row, check_row.
  destruct (Pos.is_active (prepare env r)); cbn [snd].
  - apply pnl_row_trigger_row. exact Hp.
  - exact Hp.
Qed.

(** A row that is not ACTIVE and already has the P&L of its Current is
    left exactly as it is, with no action. *)
Lemma tick_row_frozen (env : Env) (r : Pos.t) :
  Pos.is_active r = false -> pnl_row r = r -> tick_row env r = ([], r).
Proof.
  intros Ha Hp. rewrite (tick_row_inactive env r Ha). f_equal.
  unfold prepare, refresh_row. rewrite Ha.
  unfold days_row.
  assert (Ha' : Pos.is_active (pnl_row r) = false) by (rewrite Hp; exact Ha).
  rewrite Ha'. exact Hp.
Qed.

Lemma trace_frozen (envs : list Env) (r : Pos.t) :
  Pos.is_active r = false -> pnl_row r = r ->
  flat_map fst (trace envs r) = [] /\ row_after envs r = r.
Proof.
  intros Ha Hp. induction envs as [|env rest IH]; simpl; [auto|].
  rewrite (tick_row_frozen env r Ha Hp). cbn [fst snd]. exact IH.
Qed.

End RowFacts.

Section OnceRules.

Import Tracker.

Lemma trigger_row_breakeven (row : Pos.t) :
  let o := trigger_row row in
  (count_rule "BREAKEVEN" (fst o) <= 1)%nat
  /\ (count_rule "BREAKEVEN" (fst o) = 1%nat ->
      Pos.SL row < Pos.Entry row /\ Pos.Entry row <= Pos.SL (snd o))
  /\ (Pos.Entry row <= Pos.SL row -> count_rule "BREAKEVEN" (fst o) = 0%nat).
Proof.
  cbv zeta. unfold trigger_row.
  destruct (Qle_bool (Pos.Current row) (Pos.SL row));
    [destruct row; cbn; repeat split; auto; discriminate|].
  destruct (Qltb_cases (Pos.SL row) (Pos.Entry row)) as [[E Hlt] | [E Hge]];
    rewrite E.
  - destruct (xge (Pos.PnL_Pct row) (Fin 3));
      destruct (Qle_bool (Pos.T1 row) (Pos.Current row));
      destruct (Pos.T1_Hit row);
      destruct (25 <=? Pos.Days_Held row)%Z;
      destruct row;
      cbn [andb negb fst snd app count_rule filter Rule String.eqb Ascii.eqb
           Bool.eqb List.length Pos.SL Pos.Entry Pos.set_SL Pos.set_T1_Hit] in *;
      repeat split; auto; try discriminate; try lia; try lra;
      try apply py_max_ge_l; try apply Qle_refl.
  - rewrite andb_false_r.
    destruct (Qle_bool (Pos.T1 row) (Pos.Current row));
      destruct (Pos.T1_Hit row);
      destruct (25 <=? Pos.Days_Held row)%Z;
      cbn; repeat split; auto; try discriminate; try lia.
Qed.

Lemma tick_row_breakeven (env : Env) (r : Pos.t) :
  let o := tick_row env r in
  (count_rule "BREAKEVEN" (fst o) <= 1)%nat
  /\ (count_rule "BREAKEVEN" (fst o) = 1%nat ->
      Pos.SL r < Pos.Entry r /\ Pos.Entry r <= Pos.SL (snd o))
  /\ (Pos.Entry r <= Pos.SL r -> count_rule "BREAKEVEN" (fst o) = 0%nat).
Proof.
  cbv zeta.
  destruct (prepare_keeps env r) as (Hsl & _ & _ & _ & He).
  unfold tick_row, check_row.
  destruct (Pos.is_active (prepare env r)).
  - rewrite <- Hsl, <- He. apply trigger_row_breakeven.
  - cbn. repeat split; auto; discriminate.
Qed.

Lemma trace_breakeven (envs : list Env) (r : Pos.t) :
  (count_rule "BREAKEVEN" (flat_map fst (trace envs r)) <= 1)%nat
  /\ (Pos.Entry r <= Pos.SL r ->
      count_rule "BREAKEVEN" (flat_map fst (trace envs r)) = 0%nat).
Proof.
  revert r. induction envs as [|env rest IH]; intro r; simpl.
  - split; [cbv; lia | reflexivity].
  - rewrite count_rule_app.
    destruct (tick_row_breakeven env r) as (Hle & H1 & H0). cbv zeta in *.
    destruct (IH (snd (tick_row env r))) as [IHle IH0].
    destruct (tick_row_identity env r) as (_ & _ & He & _).
    pose proof (tick_row_SL env r) as Hsl.
    split.
    + destruct (count_rule "BREAKEVEN" (fst (tick_row env r))) as [|[|n]] eqn:E;
        [simpl; exact IHle | | lia].
      destruct (H1 eq_refl) as [_ Hge].
      rewrite IH0; [lia|]. rewrite He. exact Hge.
    + intro Hge. rewrite (H0 Hge). simpl. apply IH0.
      rewrite He. eapply Qle_trans; [exact Hge | exact Hsl].
Qed.

Lemma trigger_row_stop (row : Pos.t) :
  let o := trigger_row row in
  (count_rule "SL_HIT" (fst o) <= 1)%nat
  /\ (count_rule "SL_HIT" (fst o) = 1%nat ->
      Pos.Status (snd o) = "CLOSED"%string).
Proof.
  cbv zeta. unfold trigger_row.
  destruct (Qle_bool (Pos.Current row) (Pos.SL row));
    [destruct row; cbn; split; auto|].
  destruct (xge (Pos.PnL_Pct row) (Fin 3) && Qltb (Pos.SL row) (Pos.Entry row));
    destruct (Qle_bool (Pos.T1 row) (Pos.Current row) && negb (Pos.T1_Hit row));
    destruct (25 <=? Pos.Days_Held row)%Z;
    cbn; split; auto; try discriminate; try lia.
Qed.

Lemma tick_row_stop (env : Env) (r : Pos.t) :
  let o := tick_row env r in
  (count_rule "SL_HIT" (fst o) <= 1)%nat
  /\ (count_rule "SL_HIT" (fst o) = 1%nat ->
      Pos.is_active r = true /\ Pos.Status (snd o) = "CLOSED"%string).
Proof.
  cbv zeta. unfold tick_row, check_row.
  destruct (Pos.is_active (prepare env r)) eqn:Ea.
  - rewrite is_active_prepare in Ea.
    destruct (trigger_row_stop (prepare env r)) as [H1 H2].
    split; [exact H1 | intro H; split; [exact Ea | exact (H2 H)]].
  - cbn. split; [lia | discriminate].
Qed.

Lemma closed_not_active (r : Pos.t) :
  Pos.Status r = "CLOSED"%string -> Pos.is_active r = false.
Proof. unfold Pos.is_active. intros ->. reflexivity. Qed.

Lemma trace_stop (envs : list Env) (r : Pos.t) :
  (count_rule "SL_HIT" (flat_map fst (trace envs r)) <= 1)%nat.
Proof.
  revert r. induction envs as [|env rest IH]; intro r; simpl.
  - cbv; lia.
  - rewrite count_rule_app.
    destruct (tick_row_stop env r) as (Hle & H1). cbv zeta in *.
    destruct (count_rule "SL_HIT" (fst (tick_row env r))) as [|[|n]] eqn:E;
      [simpl; apply IH | | lia].
    destruct (H1 eq_refl) as [_ Hc].
    destruct (trace_frozen rest (snd (tick_row env r))
                (closed_not_active _ Hc) (pnl_row_tick_row env r)) as [-> _].
    cbv; lia.
Qed.

End OnceRules.

(** X1.  Over any sequence of invocations the row at an index of the
    ledger keeps its entry date, stock, entry price, targets, quantity,
    notional, ATR and notes: the tracker writes only the current
    price, the P&L, the days held, the stop-loss, the status and the
    first-target flag. *)
Theorem position_identity_never_changes
        (envs : list Tracker.Env) (fs : Files) (i : nat) (r : Pos.t) :
  nth_error (Tracker.load_tracker fs) i = Some r ->
  exists r' : Pos.t,
    nth_error (Tracker.load_tracker (Tracker.run envs fs)) i = Some r'
    /\ Pos.Date r' = Pos.Date r
    /\ Pos.Stock r' = Pos.Stock r
    /\ Pos.Entry r' = Pos.Entry r
    /\ Pos.T1 r' = Pos.T1 r
    /\ Pos.T2 r' = Pos.T2 r
    /\ Pos.Quantity r' = Pos.Quantity r
    /\ Pos.Position r' = Pos.Position r
    /\ Pos.ATR r' = Pos.ATR r
    /\ Pos.Notes r' = Pos.Notes r.
Proof.
  intro H. exists (Tracker.row_after envs r).
  split; [apply run_nth_error; exact H | apply row_after_identity].
Qed.

Lemma position_identity_never_changes_witness :
  let p := Pos.mk 0 "ABC" 100 95 106 112 100 10000 100 0 (Fin 0) 0
                  "ACTIVE" "" 4 false in
  let env := Tracker.mkEnv 3 None (fun _ => Some 109) in
  let fs := mkFiles (Some [p]) None in
  nth_error (Tracker.load_tracker fs) 0 = Some p
  /\ exists r' : Pos.t,
      nth_error (Tracker.load_tracker (Tracker.run [env; env] fs)) 0 = Some r'
      /\ Pos.Entry r' = Pos.Entry p.
Proof.
  intros p env fs.
  assert (H : nth_error (Tracker.load_tracker fs) 0 = Some p) by reflexivity.
  split; [exact H|].
  destruct (position_identity_never_changes [env; env] fs 0%nat p H)
    as [r' (H1 & _ & _ & H3 & _)].
  exists r'. split; assumption.
Defined.

(** X2.  Over any sequence of invocations the actions of one position
    hold at most one BREAKEVEN.  The rule fires only on a stop-loss
    below the entry price, and after it has fired the stop-loss is at
    least the entry price on every later invocation and the rule does
    not fire again. *)
Theorem breakeven_lock_fires_once (envs : list Tracker.Env) (r : Pos.t) :
  (Tracker.count_rule "BREAKEVEN" (flat_map fst (Tracker.trace envs r)) <= 1)%nat
  /\ (forall env : Tracker.Env,
         Tracker.fired "BREAKEVEN" (fst (Tracker.tick_row env r)) = true ->
         Pos.SL r < Pos.Entry r
         /\ Pos.Entry r <= Pos.SL (Tracker.row_after (env :: envs) r)
         /\ Tracker.count_rule "BREAKEVEN"
              (flat_map fst (Tracker.trace envs (snd (Tracker.tick_row env r))))
            = 0%nat)
  /\ (Pos.Entry r <= Pos.SL r ->
      Tracker.count_rule "BREAKEVEN" (flat_map fst (Tracker.trace envs r))
      = 0%nat).
Proof.
  split; [apply trace_breakeven|]. split; [|apply trace_breakeven].
  intros env Hf. apply fired_count in Hf.
  destruct (tick_row_breakeven env r) as (Hle & H1 & _). cbv zeta in *.
  assert (E : Tracker.count_rule "BREAKEVEN" (fst (Tracker.tick_row env r)) = 1%nat)
    by lia.
  destruct (H1 E) as [Hlt Hge].
  destruct (tick_row_identity env r) as (_ & _ & He & _).
  split; [exact Hlt|]. split.
  - simpl. eapply Qle_trans; [exact Hge | apply row_after_SL].
  - apply trace_breakeven. rewrite He. exact Hge.
Qed.

Lemma breakeven_lock_fires_once_witness :
  let p := Pos.mk 0 "ABC" 100 95 106 112 100 10000 100 0 (Fin 0) 0
                  "ACTIVE" "" 4 false in
  let q := Pos.mk 0 "ABC" 100 100 106 112 100 10000 104 400 (Fin 4) 1
                  "ACTIVE" "" 4 false in
  let env := Tracker.mkEnv 2 None (fun _ => Some 104) in
  (Tracker.fired "BREAKEVEN" (fst (Tracker.tick_row env p)) = true
   /\ Pos.Entry p <= Pos.SL (Tracker.row_after [env; env] p))
  /\ (Pos.Entry q <= Pos.SL q
      /\ Tracker.count_rule "BREAKEVEN" (flat_map fst (Tracker.trace [env] q))
         = 0%nat).
Proof.
  intros p q env.
  assert (Hf : Tracker.fired "BREAKEVEN" (fst (Tracker.tick_row env p)) = true)
    by reflexivity.
  assert (Hq : Pos.Entry q <= Pos.SL q) by (vm_compute; discriminate).
  split.
  - split; [exact Hf|].
    exact (proj1 (proj2 (proj1 (proj2 (breakeven_lock_fires_once [env] p)) env Hf))).
  - split; [exact Hq|].
    exact (proj2 (proj2 (breakeven_lock_fires_once [env] q)) Hq).
Defined.

(** X3.  Over any sequence of invocations the actions of one position
    hold at most one SL_HIT.  The invocation on which it fires leaves
    the row CLOSED, and every later invocation emits no action for the
    row and leaves it, in the ledger, exactly as that invocation left
    it. *)
Theorem stop_hit_is_final (envs : list Tracker.Env) (r : Pos.t) :
  (Tracker.count_rule "SL_HIT" (flat_map fst (Tracker.trace envs r)) <= 1)%nat
  /\ (forall env : Tracker.Env,
         Tracker.fired "SL_HIT" (fst (Tracker.tick_row env r)) = true ->
         let r' := snd (Tracker.tick_row env r) in
         Pos.Status r' = "CLOSED"%string
         /\ flat_map fst (Tracker.trace envs r') = []
         /\ Tracker.row_after envs r' = r'
         /\ forall (fs : Files) (i : nat),
             nth_error (Tracker.load_tracker fs) i = Some r ->
             nth_error (Tracker.load_tracker (Tracker.run (env :: envs) fs)) i
             = Some r').
Proof.
  split; [apply trace_stop|].
  intros env Hf. cbv zeta. apply fired_count in Hf.
  destruct (tick_row_stop env r) as (Hle & H1). cbv zeta in *.
  assert (E : Tracker.count_rule "SL_HIT" (fst (Tracker.tick_row env r)) = 1%nat)
    by lia.
  destruct (H1 E) as [_ Hc].
  destruct (trace_frozen envs (snd (Tracker.tick_row env r))
              (closed_not_active _ Hc) (pnl_row_tick_row env r)) as [Ht Hr].
  split; [exact Hc|]. split; [exact Ht|]. split; [exact Hr|].
  intros fs i H.
  rewrite (run_nth_error (env :: envs) fs i r H). simpl. rewrite Hr. reflexivity.
Qed.

Lemma stop_hit_is_final_witness :
  let p := Pos.mk 0 "ABC" 100 95 106 112 100 10000 100 0 (Fin 0) 0
                  "ACTIVE" "" 4 false in
  let env := Tracker.mkEnv 1 None (fun _ => Some 94) in
  let up := Tracker.mkEnv 2 None (fun _ => Some 120) in
  let fs := mkFiles (Some [p]) None in
  Tracker.fired "SL_HIT" (fst (Tracker.tick_row env p)) = true
  /\ nth_error (Tracker.load_tracker fs) 0 = Some p
  /\ nth_error (Tracker.load_tracker (Tracker.run [env; up; up] fs)) 0
     = Some (snd (Tracker.tick_row env p)).
Proof.
  intros p env up fs.
  assert (Hf : Tracker.fired "SL_HIT" (fst (Tracker.tick_row env p)) = true)
    by reflexivity.
  assert (H : nth_error (Tracker.load_tracker fs) 0 = Some p) by reflexivity.
  split; [exact Hf|]. split; [exact H|].
  exact (proj2 (proj2 (proj2 (proj2 (stop_hit_is_final [up; up] p) env Hf)))
           fs 0%nat H).
Defined.

(* ================================================================== *)
(** ** Rounding to two decimals *)
(* ================================================================== *)

Section Rounding.

Lemma round_half_even_bounds (q : Q) :
  (Qfloor q <= round_half_even q <= Qfloor q + 1)%Z.
Proof.
  unfold round_half_even.
  destruct (Qcompare (q - inject_Z (Qfloor q)) (1 # 2));
    [destruct (Z.even (Qfloor q))| |]; lia.
Qed.

Lemma round_half_even_mono (a b : Q) :
  a <= b -> (round_half_even a <= round_half_even b)%Z.
Proof.
  intro Hab.
  pose proof (Qfloor_resp_le _ _ Hab) as Hf.
  pose proof (round_half_even_bounds a) as Ha.
  pose proof (round_half_even_bounds b) as Hb.
  destruct (Z.eq_dec (Qfloor a) (Qfloor b)) as [E | N]; [|lia].
  unfold round_half_even. rewrite <- E.
  destruct (Qcompare (a - inject_Z (Qfloor a)) (1 # 2)) eqn:Ca;
    destruct (Qcompare (b - inject_Z (Qfloor a)) (1 # 2)) eqn:Cb;
    try (destruct (Z.even (Qfloor a))); try lia; exfalso;
    repeat match goal with
           | H : Qcompare _ _ = Eq |- _ => apply Qeq_alt in H
           | H : Qcompare _ _ = Lt |- _ => apply Qlt_alt in H
           | H : Qcompare _ _ = Gt |- _ => apply Qgt_alt in H
           end; lra.
Qed.

Lemma round2_mono (a b : Q) : a <= b -> round2 a <= round2 b.
Proof.
  intro H. unfold round2.
  assert (H100 : a * 100 <= b * 100) by lra.
  pose proof (round_half_even_mono _ _ H100) as Hz.
  assert (Hq : inject_Z (round_half_even (a * 100))
               <= inject_Z (round_half_even (b * 100)))
    by (rewrite <- Zle_Qle; exact Hz).
  unfold Qdiv. apply Qmult_le_compat_r; [exact Hq|].
  vm_compute. discriminate.
Qed.

Lemma round2_nonneg (a : Q) : 0 <= a -> 0 <= round2 a.
Proof.
  intro H. apply (Qle_trans _ (round2 0)); [|apply round2_mono; exact H].
  vm_compute. discriminate.
Qed.

Lemma round2_nonpos (a : Q) : a <= 0 -> round2 a <= 0.
Proof.
  intro H. apply (Qle_trans _ (round2 0)); [apply round2_mono; exact H|].
  vm_compute. discriminate.
Qed.

End Rounding.

Section LedgerFacts.

Import Tracker.

Lemma trigger_row_actions (row : Pos.t) :
  Forall (fun a => Stock a = Pos.Stock row
                   /\ In (Rule a)
                         ["SL_HIT"; "BREAKEVEN"; "T1_HIT"; "MONTH_END"]%string)
         (fst (trigger_row row)).
Proof.
  unfold trigger_row.
  destruct (Qle_bool (Pos.Current row) (Pos.SL row));
    [apply Forall_cons; [split; [reflexivity | cbn; auto 10] | apply Forall_nil]|].
  destruct (xge (Pos.PnL_Pct row) (Fin 3) && Qltb (Pos.SL row) (Pos.Entry row));
    destruct (Qle_bool (Pos.T1 row) (Pos.Current row) && negb (Pos.T1_Hit row));
    destruct (25 <=? Pos.Days_Held row)%Z;
    cbn [fst app];
    repeat (apply Forall_cons; [split; [reflexivity | cbn; auto 10]|]);
    apply Forall_nil.
Qed.

Lemma tick_row_actions (env : Env) (r : Pos.t) :
  Forall (fun a => Pos.is_active r = true
                   /\ Stock a = Pos.Stock r
                   /\ In (Rule a)
                         ["SL_HIT"; "BREAKEVEN"; "T1_HIT"; "MONTH_END"]%string)
         (fst (tick_row env r)).
Proof.
  destruct (prepare_keeps env r) as (_ & _ & _ & Hst & _).
  unfold tick_row, check_row.
  destruct (Pos.is_active (prepare env r)) eqn:Ea; [|constructor].
  rewrite is_active_prepare in Ea.
  pose proof (trigger_row_actions (prepare env r)) as H.
  rewrite Hst in H.
  eapply Forall_impl; [|exact H]. cbn. intros a [H1 H2]. auto.
Qed.

(** The days held that the rules read are those of the day of the
    invocation. *)
Lemma prepare_days_held (env : Env) (r : Pos.t) :
  Pos.is_active r = true ->
  Pos.Days_Held (prepare env r) = (today env - Pos.Date r)%Z.
Proof.
  unfold prepare, days_row, pnl_row, refresh_row, Pos.is_active.
  destruct r; cbn. intro Ha. rewrite Ha.
  destruct (quote env _); cbn; rewrite Ha; reflexivity.
Qed.

Lemma trigger_row_month_end (row : Pos.t) :
  Qle_bool (Pos.Current row) (Pos.SL row) = false ->
  fired "MONTH_END" (fst (trigger_row row)) = (25 <=? Pos.Days_Held row)%Z
  /\ (fst (trigger_row row)
      = [mkAction (Pos.Stock row) "MONTH_END" (Prepare_exit (Pos.Days_Held row))]
      -> snd (trigger_row row) = row).
Proof.
  intro H. unfold trigger_row. rewrite H.
  destruct (xge (Pos.PnL_Pct row) (Fin 3) && Qltb (Pos.SL row) (Pos.Entry row));
    destruct (Qle_bool (Pos.T1 row) (Pos.Current row) && negb (Pos.T1_Hit row));
    destruct (25 <=? Pos.Days_Held row)%Z;
    cbn; split; auto; try discriminate.
Qed.

End LedgerFacts.

(** X4.  Every row of the ledger that an invocation saves, whether it
    was just ingested, is ACTIVE or is CLOSED, carries the P&L of its
    own current price: computing the P&L again changes nothing in the
    row, although the rules ran after the P&L was computed.  With a
    nonnegative quantity the P&L in currency has the sign of
    Current - Entry. *)
Theorem saved_ledger_has_consistent_pnl
        (env : Tracker.Env) (fs : Files) (r : Pos.t) :
  In r (Tracker.load_tracker (snd (Tracker.main env fs))) ->
  Tracker.pnl_row r = r
  /\ ((0 <= Pos.Quantity r)%Z ->
      (Pos.Entry r <= Pos.Current r -> 0 <= Pos.PnL_Rs r)
      /\ (Pos.Current r <= Pos.Entry r -> Pos.PnL_Rs r <= 0)).
Proof.
  intro Hin. rewrite main_rows in Hin.
  cbn [snd Tracker.load_tracker trade_tracker_csv] in Hin.
  apply in_map_iff in Hin. destruct Hin as [r0 [<- _]].
  pose proof (pnl_row_tick_row env r0) as Hp.
  set (r := snd (Tracker.tick_row env r0)) in *.
  assert (H1 : Pos.PnL_Rs r
               = round2 ((Pos.Current r - Pos.Entry r) * inject_Z (Pos.Quantity r))).
  { rewrite <- Hp at 1. destruct r; reflexivity. }
  split; [exact Hp|].
  intro Hq. rewrite H1.
  assert (Hq' : 0 <= inject_Z (Pos.Quantity r))
    by (rewrite Zle_Qle in Hq; exact Hq).
  split; intro H.
  - apply round2_nonneg. apply Qmult_le_0_compat; [lra | exact Hq'].
  - apply round2_nonpos.
    setoid_replace ((Pos.Current r - Pos.Entry r) * inject_Z (Pos.Quantity r))
      with (- ((Pos.Entry r - Pos.Current r) * inject_Z (Pos.Quantity r)))
      by ring.
    assert (0 <= (Pos.Entry r - Pos.Current r) * inject_Z (Pos.Quantity r))
      by (apply Qmult_le_0_compat; [lra | exact Hq']).
    lra.
Qed.

Lemma saved_ledger_has_consistent_pnl_witness :
  let p := Pos.mk 0 "ABC" 100 95 106 112 100 10000 100 0 (Fin 0) 0
                  "ACTIVE" "" 4 false in
  let env := Tracker.mkEnv 3 None (fun _ => Some 104) in
  let fs := mkFiles (Some [p]) None in
  let r := snd (Tracker.tick_row env p) in
  In r (Tracker.load_tracker (snd (Tracker.main env fs)))
  /\ Pos.Status r = "ACTIVE"%string
  /\ (0 <= Pos.Quantity r)%Z
  /\ Pos.Entry r <= Pos.Current r
  /\ 0 <= Pos.PnL_Rs r.
Proof.
  intros p env fs r.
  assert (Hin : In r (Tracker.load_tracker (snd (Tracker.main env fs))))
    by (left; reflexivity).
  assert (Hq : (0 <= Pos.Quantity r)%Z) by (vm_compute; discriminate).
  assert (Hc : Pos.Entry r <= Pos.Current r) by (vm_compute; discriminate).
  split; [exact Hin|]. split; [reflexivity|].
  split; [exact Hq|]. split; [exact Hc|].
  exact (proj1 (proj2 (saved_ledger_has_consistent_pnl env fs r Hin) Hq) Hc).
Defined.

(** X5.  Every action that an invocation emits is for a row of the
    frame that is ACTIVE when the invocation starts or was ingested by
    it, names the stock of that row, and has one of the four rule
    names; rows that are not ACTIVE produce no action. *)
Theorem actions_are_for_active_rows
        (env : Tracker.Env) (fs : Files) (a : Tracker.Action) :
  In a (fst (Tracker.main env fs)) ->
  exists r : Pos.t,
    In r (Tracker.add_new_trades env (Tracker.load_tracker fs))
    /\ Pos.is_active r = true
    /\ Tracker.Stock a = Pos.Stock r
    /\ In (Tracker.Rule a) ["SL_HIT"; "BREAKEVEN"; "T1_HIT"; "MONTH_END"]%string.
Proof.
  intro Hin. rewrite main_rows in Hin. cbn [fst] in Hin.
  apply in_flat_map in Hin. destruct Hin as [r [Hr Ha]].
  exists r. split; [exact Hr|].
  pose proof (tick_row_actions env r) as H.
  rewrite Forall_forall in H. exact (H a Ha).
Qed.

Lemma actions_are_for_active_rows_witness :
  let p := Pos.mk 0 "ABC" 100 95 106 112 100 10000 100 0 (Fin 0) 0
                  "ACTIVE" "" 4 false in
  let env := Tracker.mkEnv 1 None (fun _ => Some 94) in
  let fs := mkFiles (Some [p]) None in
  let a := Tracker.mkAction "ABC" "SL_HIT" (Tracker.SL_hit_exit 94.00) in
  In a (fst (Tracker.main env fs))
  /\ exists r : Pos.t,
      In r (Tracker.add_new_trades env (Tracker.load_tracker fs))
      /\ Pos.is_active r = true
      /\ Tracker.Stock a = Pos.Stock r.
Proof.
  intros p env fs a.
  assert (Hin : In a (fst (Tracker.main env fs))) by (left; reflexivity).
  split; [exact Hin|].
  destruct (actions_are_for_active_rows env fs a Hin) as [r (H1 & H2 & H3 & _)].
  exists r. auto.
Defined.

(** X6.  The holding-period advisory is renewed on every invocation: for
    an ACTIVE position whose refreshed price is above its stop-loss,
    MONTH_END is among the actions exactly when the day of the
    invocation is at least 25 days after the entry date, and an
    invocation whose only action is MONTH_END changes nothing in the
    row but the refreshed price, P&L and days held. *)
Theorem month_end_advisory_repeats (env : Tracker.Env) (r : Pos.t) :
  Pos.is_active r = true ->
  Pos.SL r < Pos.Current (Tracker.prepare env r) ->
  Tracker.fired "MONTH_END" (fst (Tracker.tick_row env r))
  = (25 <=? Tracker.today env - Pos.Date r)%Z
  /\ (fst (Tracker.tick_row env r)
      = [Tracker.mkAction (Pos.Stock r) "MONTH_END"
           (Tracker.Prepare_exit (Tracker.today env - Pos.Date r))] ->
      snd (Tracker.tick_row env r) = Tracker.prepare env r).
Proof.
  intros Ha Hlt.
  destruct (prepare_keeps env r) as (Hsl & _ & _ & Hst & _).
  pose proof (prepare_days_held env r Ha) as Hd.
  assert (Hc : Qle_bool (Pos.Current (Tracker.prepare env r))
                        (Pos.SL (Tracker.prepare env r)) = false).
  { apply Qle_bool_false. rewrite Hsl. exact Hlt. }
  destruct (trigger_row_month_end (Tracker.prepare env r) Hc) as [H1 H2].
  unfold Tracker.tick_row, Tracker.check_row.
  rewrite is_active_prepare, Ha.
  rewrite Hd, Hst in *. split; assumption.
Qed.

Lemma month_end_advisory_repeats_witness :
  let p := Pos.mk 0 "ABC" 100 100 106 112 100 10000 102 200 (Fin 2) 25
                  "ACTIVE" "" 4 true in
  let env := Tracker.mkEnv 26 None (fun _ => Some 102) in
  Pos.is_active p = true
  /\ Pos.SL p < Pos.Current (Tracker.prepare env p)
  /\ Tracker.fired "MONTH_END" (fst (Tracker.tick_row env p))
     = (25 <=? Tracker.today env - Pos.Date p)%Z
  /\ snd (Tracker.tick_row env p) = Tracker.prepare env p.
Proof.
  intros p env.
  assert (Ha : Pos.is_active p = true) by reflexivity.
  assert (Hlt : Pos.SL p < Pos.Current (Tracker.prepare env p))
    by (vm_compute; reflexivity).
  split; [exact Ha|]. split; [exact Hlt|].
  split; [exact (proj1 (month_end_advisory_repeats env p Ha Hlt))|].
  apply (proj2 (month_end_advisory_repeats env p Ha Hlt)). reflexivity.
Defined.

(* ================================================================== *)
(** ** More on the analyzer: what every signal satisfies *)
(* ================================================================== *)

Section SignalFacts.

Import Analyzer.

Lemma sizing_zero_risk (cfg : Config) (entry sl cap : Q) :
  entry - sl <= 0 -> calculate_position_size cfg entry sl cap = (0%Z, 0).
Proof.
  intro H. unfold calculate_position_size.
  apply Qle_bool_iff in H. rewrite H. reflexivity.
Qed.

Lemma generate_signal_fields (cfg : Config) (today : Z) (row : Short.t)
      (sig : Sig.t) :
  generate_signal cfg today row = Some sig ->
  Sig.Date sig = today
  /\ Sig.Stock sig = Short.Symbol row
  /\ Sig.SL sig = Short.SL row
  /\ Sig.RR sig = Short.RR row
  /\ Sig.Risk_Pct sig = Short.Risk_Pct row
  /\ Sig.ATR sig = Short.ATR row
  /\ Sig.Mode sig = Short.Mode row
  /\ Sig.T2 sig = round2 (Short.Target row + 1.5 * Short.ATR row).
Proof.
  unfold generate_signal.
  destruct (calculate_position_size _ _ _ _) as [qty position].
  destruct (qty =? 0)%Z; [discriminate|].
  destruct (xlt _ _); [discriminate|].
  intro H. injection H as <-. cbn. repeat split.
Qed.

Lemma generate_signals_filter (cfg : Config) (today : Z) (df : list Short.t) :
  map Sig.Stock (generate_signals cfg today df)
  = map Short.Symbol
        (filter (fun row => match generate_signal cfg today row with
                            | Some _ => true
                            | None => false
                            end) df).
Proof.
  induction df as [|row rest IH]; simpl; [reflexivity|].
  destruct (generate_signal cfg today row) as [sig|] eqn:E; simpl.
  - rewrite IH. f_equal.
    destruct (generate_signal_fields _ _ _ _ E) as (_ & H & _). exact H.
  - exact IH.
Qed.

Lemma Qfloor_nonneg (q : Q) : 0 <= q -> (0 <= Qfloor q)%Z.
Proof.
  intro H. change 0%Z with (Qfloor 0). apply Qfloor_resp_le. exact H.
Qed.

End SignalFacts.

(** X7.  On a shortlist whose rows have a nonzero entry price, every
    signal that [generate_signals] emits comes from a row of the
    shortlist, in shortlist order, and copies its symbol, entry, stop,
    first target, reward:risk, risk percent, ATR and mode; its stop
    is strictly below its entry, its quantity is not zero and its
    notional is quantity * entry. *)
Theorem signals_copy_rows_with_positive_risk
        (cfg : Config) (today : Z) (df : list Short.t) :
  (forall row, In row df -> ~ Short.Entry row == 0) ->
  map Sig.Stock (Analyzer.generate_signals cfg today df)
  = map Short.Symbol
        (filter (fun row => match Analyzer.generate_signal cfg today row with
                            | Some _ => true
                            | None => false
                            end) df)
  /\ forall sig, In sig (Analyzer.generate_signals cfg today df) ->
       (exists row, In row df
                    /\ Sig.Stock sig = Short.Symbol row
                    /\ Sig.Entry sig = Short.Entry row
                    /\ Sig.SL sig = Short.SL row
                    /\ Sig.T1 sig = Short.Target row
                    /\ Sig.RR sig = Short.RR row
                    /\ Sig.Risk_Pct sig = Short.Risk_Pct row
                    /\ Sig.ATR sig = Short.ATR row
                    /\ Sig.Mode sig = Short.Mode row)
       /\ Sig.SL sig < Sig.Entry sig
       /\ Sig.Quantity sig <> 0%Z
       /\ Sig.Position sig = inject_Z (Sig.Quantity sig) * Sig.Entry sig.
Proof.
  intros _.
  split; [apply generate_signals_filter|].
  intros sig Hin. apply generate_signals_In in Hin.
  destruct Hin as [row [Hrow Hgen]].
  pose proof (generate_signal_some _ _ _ _ Hgen) as H. cbv zeta in H.
  destruct H as (Hq & Hqty & Hpos & _ & He & Ht & _).
  destruct (generate_signal_fields _ _ _ _ Hgen)
    as (_ & Hs & Hsl & Hrr & Hrp & Hatr & Hm & _).
  split; [exists row; repeat split; assumption|].
  split; [|split].
  - rewrite Hsl, He.
    destruct (Qlt_le_dec (Short.SL row) (Short.Entry row)) as [Hlt | Hle];
      [exact Hlt|].
    exfalso. apply Hq.
    rewrite (sizing_zero_risk cfg (Short.Entry row) (Short.SL row)
               (Analyzer.CAPITAL cfg)); [reflexivity | lra].
  - rewrite Hqty. exact Hq.
  - rewrite Hpos, Hqty, He.
    destruct (sizing_notional cfg (Short.Entry row) (Short.SL row)
                (Analyzer.CAPITAL cfg)) as [H0 | H1];
      [contradiction | exact H1].
Qed.

Lemma signals_copy_rows_with_positive_risk_witness :
  let cfg := mkConfig 100000 1 10 5 in
  let row := Short.mk "X" 100 95 110 2 5 4 "testing" in
  ~ Short.Entry row == 0
  /\ exists sig, In sig (Analyzer.generate_signals cfg 7 [row])
              /\ Sig.SL sig < Sig.Entry sig
              /\ Sig.Quantity sig <> 0%Z
              /\ Sig.Mode sig = "testing"%string.
Proof.
  intros cfg row.
  assert (Hnz : ~ Short.Entry row == 0) by (vm_compute; discriminate).
  assert (Hdf : forall r, In r [row] -> ~ Short.Entry r == 0).
  { intros r [<- | []]. exact Hnz. }
  split; [exact Hnz|].
  assert (E : exists sig, In sig (Analyzer.generate_signals cfg 7 [row]))
    by (eexists; vm_compute; left; reflexivity).
  destruct E as [sig Hin]. exists sig. split; [exact Hin|].
  destruct (proj2 (signals_copy_rows_with_positive_risk cfg 7 [row] Hdf) sig Hin)
    as ((r & Hr & _ & _ & _ & _ & _ & _ & _ & Hm) & H1 & H2 & _).
  split; [exact H1|]. split; [exact H2|].
  destruct Hr as [<- | []]. exact Hm.
Defined.

(** X8.  With a nonnegative capital and nonnegative risk and position
    fractions, every signal emitted for a row with a positive entry
    price has a positive quantity and satisfies both caps at once: its
    notional is positive and at most capital * max position fraction,
    and quantity * (entry - stop) is at most capital * risk per trade,
    also when the quantity was recomputed from the position cap. *)
Theorem signals_respect_both_caps
        (cfg : Config) (today : Z) (df : list Short.t) :
  0 <= Analyzer.CAPITAL cfg ->
  0 <= Analyzer.RISK_PER_TRADE cfg ->
  0 <= Analyzer.MAX_POSITION_PCT cfg ->
  (forall row, In row df -> 0 < Short.Entry row) ->
  forall sig, In sig (Analyzer.generate_signals cfg today df) ->
    (0 < Sig.Quantity sig)%Z
    /\ 0 < Sig.Position sig
    /\ Sig.Position sig <= Analyzer.CAPITAL cfg * Analyzer.MAX_POSITION_PCT cfg
    /\ inject_Z (Sig.Quantity sig) * (Sig.Entry sig - Sig.SL sig)
       <= Analyzer.CAPITAL cfg * Analyzer.RISK_PER_TRADE cfg.
Proof.
  intros Hc Hr Hp Hentry sig Hin.
  apply generate_signals_In in Hin. destruct Hin as [row [Hrow Hgen]].
  pose proof (generate_signal_some _ _ _ _ Hgen) as H. cbv zeta in H.
  destruct H as (Hq & Hqty & Hpos & _ & He & _ & _).
  destruct (generate_signal_fields _ _ _ _ Hgen) as (_ & _ & Hsl & _).
  specialize (Hentry row Hrow).
  set (entry := Short.Entry row) in *. set (sl := Short.SL row) in *.
  set (cap := Analyzer.CAPITAL cfg) in *.
  assert (Hrisk : 0 < entry - sl).
  { destruct (Qlt_le_dec 0 (entry - sl)) as [Hlt | Hle]; [exact Hlt|].
    exfalso. apply Hq. rewrite (sizing_zero_risk cfg entry sl cap Hle).
    reflexivity. }
  pose proof (sizing_unfold cfg entry sl cap Hc Hr Hp Hentry Hrisk) as Hu.
  rewrite Hqty, Hpos, He, Hsl. rewrite Hu in *. clear Hu.
  set (mr := cap * Analyzer.RISK_PER_TRADE cfg) in *.
  set (mp := cap * Analyzer.MAX_POSITION_PCT cfg) in *.
  assert (Hmr : 0 <= mr) by (apply Qmult_le_0_compat; assumption).
  assert (Hmp : 0 <= mp) by (apply Qmult_le_0_compat; assumption).
  assert (Hraw0 : (0 <= Qfloor (mr / (entry - sl)))%Z).
  { apply Qfloor_nonneg. apply Qle_shift_div_l; [exact Hrisk | lra]. }
  assert (Hcap0 : (0 <= Qfloor (mp / entry))%Z).
  { apply Qfloor_nonneg. apply Qle_shift_div_l; [exact Hentry | lra]. }
  pose proof (floor_mul_le mr (entry - sl) Hrisk) as Hrawrisk.
  pose proof (floor_mul_le mp entry Hentry) as Hcapmul.
  destruct (Qltb_cases mp (inject_Z (Qfloor (mr / (entry - sl))) * entry))
    as [[E Hover] | [E Hfit]]; rewrite E in *; cbn [fst snd] in *.
  - assert (Hpos' : (0 < Qfloor (mp / entry))%Z) by lia.
    assert (Hq1 : 1 <= inject_Z (Qfloor (mp / entry))).
    { change 1 with (inject_Z 1). rewrite <- Zle_Qle. lia. }
    assert (Hle : inject_Z (Qfloor (mp / entry))
                  <= inject_Z (Qfloor (mr / (entry - sl)))).
    { destruct (Qlt_le_dec (inject_Z (Qfloor (mr / (entry - sl))))
                           (inject_Z (Qfloor (mp / entry)))) as [Hlt | Hge];
        [|exact Hge].
      exfalso.
      assert (inject_Z (Qfloor (mr / (entry - sl))) * entry
              <= inject_Z (Qfloor (mp / entry)) * entry)
        by (apply Qmult_le_compat_r; lra).
      lra. }
    split; [exact Hpos'|]. split.
    + apply (Qlt_le_trans _ (1 * entry)); [lra|].
      apply Qmult_le_compat_r; lra.
    + split; [exact Hcapmul|].
      apply (Qle_trans _ (inject_Z (Qfloor (mr / (entry - sl))) * (entry - sl)));
        [apply Qmult_le_compat_r; lra | exact Hrawrisk].
  - assert (Hpos' : (0 < Qfloor (mr / (entry - sl)))%Z) by lia.
    assert (Hq1 : 1 <= inject_Z (Qfloor (mr / (entry - sl)))).
    { change 1 with (inject_Z 1). rewrite <- Zle_Qle. lia. }
    split; [exact Hpos'|]. split.
    + apply (Qlt_le_trans _ (1 * entry)); [lra|].
      apply Qmult_le_compat_r; lra.
    + split; [exact Hfit | exact Hrawrisk].
Qed.

Lemma signals_respect_both_caps_witness :
  let cfg := mkConfig 100000 1 10 5 in
  let row := Short.mk "X" 100 95 110 2 5 4 "relaxed" in
  0 <= Analyzer.CAPITAL cfg
  /\ 0 <= Analyzer.RISK_PER_TRADE cfg
  /\ 0 <= Analyzer.MAX_POSITION_PCT cfg
  /\ (forall r, In r [row] -> 0 < Short.Entry r)
  /\ exists sig, In sig (Analyzer.generate_signals cfg 7 [row])
       /\ Sig.Position sig
          <= Analyzer.CAPITAL cfg * Analyzer.MAX_POSITION_PCT cfg
       /\ inject_Z (Sig.Quantity sig) * (Sig.Entry sig - Sig.SL sig)
          <= Analyzer.CAPITAL cfg * Analyzer.RISK_PER_TRADE cfg.
Proof.
  intros cfg row.
  assert (Hc : 0 <= Analyzer.CAPITAL cfg) by (vm_compute; discriminate).
  assert (Hr : 0 <= Analyzer.RISK_PER_TRADE cfg) by (vm_compute; discriminate).
  assert (Hp : 0 <= Analyzer.MAX_POSITION_PCT cfg) by (vm_compute; discriminate).
  assert (He : forall r, In r [row] -> 0 < Short.Entry r).
  { intros r [<- | []]. vm_compute. reflexivity. }
  repeat (split; [assumption|]).
  assert (E : exists sig, In sig (Analyzer.generate_signals cfg 7 [row]))
    by (eexists; vm_compute; left; reflexivity).
  destruct E as [sig Hin]. exists sig. split; [exact Hin|].
  destruct (signals_respect_both_caps cfg 7 [row] Hc Hr Hp He sig Hin)
    as (_ & _ & H3 & H4).
  split; assumption.
Defined.

Section ChargesFacts.

Import Analyzer.

Lemma py_min_mono (a b c : Q) : a <= b -> py_min a c <= py_min b c.
Proof.
  intro H. unfold py_min.
  destruct (Qltb_cases c a) as [[-> Ha] | [-> Ha]];
    destruct (Qltb_cases c b) as [[-> Hb] | [-> Hb]]; lra.
Qed.

(** The round-trip cost before rounding, with the brokerage of each
    side taken apart. *)
Lemma charges_mono (a b : Q) :
  a <= b -> calculate_charges a <= calculate_charges b.
Proof.
  intro H. unfold calculate_charges. apply round2_mono.
  pose proof (py_min_mono (a * 0.0005) (b * 0.0005) 20) as Hm.
  assert (Hab : a * 0.0005 <= b * 0.0005) by lra.
  specialize (Hm Hab).
  set (ba := py_min (a * 0.0005) 20) in *.
  set (bb := py_min (b * 0.0005) 20) in *.
  lra.
Qed.

End ChargesFacts.

(** X9.  The round-trip cost never decreases when the notional grows,
    and for a nonnegative notional it is at least 21.83, the depository
    charge with its tax, which is the cost of a zero notional. *)
Theorem charges_grow_with_notional :
  (forall a b : Q,
      a <= b -> Analyzer.calculate_charges a <= Analyzer.calculate_charges b)
  /\ Analyzer.calculate_charges 0 == 21.83
  /\ (forall a : Q, 0 <= a -> 21.83 <= Analyzer.calculate_charges a).
Proof.
  split; [exact charges_mono|]. split; [vm_compute; reflexivity|].
  intros a Ha.
  apply (Qle_trans _ (Analyzer.calculate_charges 0)).
  - vm_compute. discriminate.
  - apply charges_mono. exact Ha.
Qed.

Lemma charges_grow_with_notional_witness :
  10000 <= 20000
  /\ Analyzer.calculate_charges 10000 <= Analyzer.calculate_charges 20000
  /\ 0 <= 10000
  /\ 21.83 <= Analyzer.calculate_charges 10000.
Proof.
  assert (H : 10000 <= 20000) by (vm_compute; discriminate).
  assert (H0 : 0 <= 10000) by (vm_compute; discriminate).
  split; [exact H|].
  split; [exact (proj1 charges_grow_with_notional 10000 20000 H)|].
  split; [exact H0|].
  exact (proj2 (proj2 charges_grow_with_notional) 10000 H0).
Defined.

(** X10.  Every signal emitted with a positive quantity for a row with
    a positive entry price has a finite net expectancy of at least 2
    percent: the break-even check leaves, after the round-trip cost,
    at least the 2 percent safety margin on the notional. *)
Theorem signals_clear_two_percent
        (cfg : Config) (today : Z) (row : Short.t) (sig : Sig.t) :
  Analyzer.generate_signal cfg today row = Some sig ->
  0 < Short.Entry row ->
  (0 < Sig.Quantity sig)%Z ->
  exists e : Q, Sig.Net_Expectancy_Pct sig = Fin e /\ 2 <= e.
Proof.
  intros Hgen He Hq.
  pose proof (generate_signal_some _ _ _ _ Hgen) as H. cbv zeta in H.
  destruct H as (Hq0 & Hqty & _ & _ & _ & _ & Hlt).
  assert (Hne : ~ Short.Entry row == 0) by lra.
  pose proof (sized_notional_nonzero cfg _ (Short.SL row) (Analyzer.CAPITAL cfg)
                Hne Hq0) as Hnz.
  destruct (sizing_notional cfg (Short.Entry row) (Short.SL row)
              (Analyzer.CAPITAL cfg)) as [H0 | Hpos]; [contradiction|].
  revert Hgen. unfold Analyzer.generate_signal.
  destruct (Analyzer.calculate_position_size cfg (Short.Entry row)
              (Short.SL row) (Analyzer.CAPITAL cfg)) as [qty position] eqn:Es.
  cbn [fst snd] in *.
  destruct (qty =? 0)%Z; [discriminate|].
  destruct (xlt _ _) eqn:El; [discriminate|].
  intro Hgen. injection Hgen as <-. cbn [Sig.Net_Expectancy_Pct Sig.Quantity] in *.
  destruct (min_target_finite (Short.Entry row)
              (Analyzer.calculate_charges position) position Hnz)
    as [mt [Hmt1 Hmt2]].
  clear Hlt. rename El into Hlt.
  rewrite Hmt1 in Hlt. cbn [xlt] in Hlt. apply Qltb_ge in Hlt.
  unfold xdiv, xmul. rewrite (Qeq_bool_false _ _ Hnz). cbn [xround2].
  eexists. split; [reflexivity|].
  apply (Qle_trans _ (round2 2)); [vm_compute; discriminate|].
  apply round2_mono.
  set (c := Analyzer.calculate_charges position) in *.
  set (E := Short.Entry row) in *. set (T := Short.Target row) in *.
  assert (Hqq : 0 < inject_Z qty).
  { change 0 with (inject_Z 0). rewrite <- Zlt_Qlt. exact Hq. }
  assert (Hp : 0 < position).
  { rewrite Hpos. apply Qmult_lt_0_compat; assumption. }
  assert (Hkey : position + c + 0.02 * position <= T * inject_Z qty).
  { assert (Hm : mt * inject_Z qty <= T * inject_Z qty)
      by (apply Qmult_le_compat_r; lra).
    assert (Heq : mt * inject_Z qty == position + c + 0.02 * position).
    { rewrite Hmt2, Hpos. field. split; lra. }
    rewrite <- Heq. exact Hm. }
  assert (Hnet : 0.02 * position <= (T - E) * inject_Z qty - c).
  { assert (Hpe : E * inject_Z qty == position) by (rewrite Hpos; ring).
    assert ((T - E) * inject_Z qty == T * inject_Z qty - position)
      by (rewrite <- Hpe; ring).
    lra. }
  assert (Hdiv : 0.02 <= ((T - E) * inject_Z qty - c) / position).
  { apply Qle_shift_div_l; [exact Hp | exact Hnet]. }
  lra.
Qed.

Lemma signals_clear_two_percent_witness :
  let cfg := mkConfig 100000 1 10 5 in
  let row := Short.mk "X" 100 95 110 2 5 4 "relaxed" in
  exists sig,
    Analyzer.generate_signal cfg 7 row = Some sig
    /\ 0 < Short.Entry row
    /\ (0 < Sig.Quantity sig)%Z
    /\ exists e : Q, Sig.Net_Expectancy_Pct sig = Fin e /\ 2 <= e.
Proof.
  intros cfg row.
  assert (E : exists sig, Analyzer.generate_signal cfg 7 row = Some sig)
    by (eexists; vm_compute; reflexivity).
  destruct E as [sig Hgen]. exists sig.
  assert (He : 0 < Short.Entry row) by (vm_compute; reflexivity).
  assert (Hq : (0 < Sig.Quantity sig)%Z).
  { vm_compute in Hgen. injection Hgen as <-. vm_compute. reflexivity. }
  split; [exact Hgen|]. split; [exact He|]. split; [exact Hq|].
  exact (signals_clear_two_percent cfg 7 row sig Hgen He Hq).
Defined.

(* ================================================================== *)
(** ** Capacity: the analyzer and the ingestion together *)
(* ================================================================== *)

Section Capacity.

Lemma allocate_length_le (signals : list Sig.t) (available : Z) :
  (0 < available)%Z ->
  (Z.of_nat (List.length (Analyzer.allocate signals available)) <= available)%Z.
Proof.
  intro Hpos.
  destruct (Z.le_gt_cases (Z.of_nat (List.length signals)) available) as [Hle | Hgt].
  - rewrite (allocate_passes_through _ _ Hle). exact Hle.
  - rewrite allocate_truncates by lia. rewrite length_firstn. lia.
Qed.

Lemma main_some_available (cfg : Config) (today : Z)
      (file : option (list Short.t)) (fs : Files) (out : list Sig.t) :
  Analyzer.main cfg today file fs = Some out ->
  (0 < Analyzer.MAX_TRADES cfg - Analyzer.check_existing_positions fs)%Z.
Proof.
  unfold Analyzer.main.
  destruct (Analyzer.load_shortlist file); [discriminate|].
  destruct (_ <=? 0)%Z eqn:E; [discriminate|].
  intros _. apply Z.leb_gt in E. exact E.
Qed.

Lemma active_count (fs : Files) :
  Analyzer.check_existing_positions fs
  = Z.of_nat (List.length (Tracker.active (Tracker.load_tracker fs))).
Proof.
  unfold Analyzer.check_existing_positions, Tracker.load_tracker, Tracker.active.
  destruct (trade_tracker_csv fs); reflexivity.
Qed.

Lemma StronglySorted_app_l (A : Type) (R : A -> A -> Prop) (l1 l2 : list A) :
  StronglySorted R (l1 ++ l2) -> StronglySorted R l1.
Proof.
  induction l1 as [|x l1 IH]; simpl; intro H; [constructor|].
  inversion H as [|? ? Hs Hall]; subst. constructor; [apply IH; exact Hs|].
  rewrite Forall_forall in Hall |- *. intros y Hy. apply Hall, in_or_app.
  left. exact Hy.
Qed.

End Capacity.

(** X11.  When the tracker ingests the signal file that the analyzer
    wrote from the same ledger (no file when the analyzer wrote none),
    the ACTIVE rows after the ingestion number at most the configured
    maximum of concurrent trades, or the number that were ACTIVE before
    if that was already larger. *)
Theorem ingestion_respects_capacity
        (cfg : Config) (day : Z) (file : option (list Short.t)) (fs : Files)
        (env : Tracker.Env) :
  Tracker.signals_file env = Analyzer.main cfg day file fs ->
  (Z.of_nat (List.length
               (Tracker.active
                  (Tracker.add_new_trades env (Tracker.load_tracker fs))))
   <= Z.max (Analyzer.MAX_TRADES cfg) (Analyzer.check_existing_positions fs))%Z.
Proof.
  intro Hfile.
  rewrite add_new_trades_app. unfold Tracker.active at 1. rewrite filter_app.
  fold (Tracker.active (Tracker.load_tracker fs)).
  fold (Tracker.active (Tracker.new_rows env)).
  rewrite new_rows_active, length_app, new_rows_length, Hfile, active_count.
  rewrite Nat2Z.inj_add.
  destruct (Analyzer.main cfg day file fs) as [out|] eqn:Em;
    [|lia].
  pose proof (main_some_available _ _ _ _ _ Em) as Hav.
  pose proof (main_allocates cfg day file fs) as Hal. cbv zeta in Hal.
  rewrite Em in Hal. rewrite Hal.
  pose proof (allocate_length_le
                (Analyzer.generate_signals cfg day (Analyzer.load_shortlist file))
                _ Hav) as Hlen.
  rewrite active_count in *. lia.
Qed.

Lemma ingestion_respects_capacity_witness :
  let cfg := mkConfig 100000 1 10 1 in
  let rows := [Short.mk "X" 100 95 110 2 5 4 "relaxed";
               Short.mk "Y" 200 190 220 2 5 8 "relaxed"] in
  let fs := mkFiles None None in
  let env := Tracker.mkEnv 7 (Analyzer.main cfg 7 (Some rows) fs) (fun _ => None) in
  Tracker.signals_file env = Analyzer.main cfg 7 (Some rows) fs
  /\ (Z.of_nat (List.length
                  (Tracker.active
                     (Tracker.add_new_trades env (Tracker.load_tracker fs))))
      <= Z.max (Analyzer.MAX_TRADES cfg) (Analyzer.check_existing_positions fs))%Z.
Proof.
  intros cfg rows fs env.
  assert (H : Tracker.signals_file env = Analyzer.main cfg 7 (Some rows) fs)
    by reflexivity.
  split; [exact H|].
  exact (ingestion_respects_capacity cfg 7 (Some rows) fs env H).
Defined.

(** X12.  When the allocation truncates, the signals it writes are in
    rank order: no written signal is followed by one that ranks
    strictly before it (a larger reward:risk, or an equal reward:risk
    and a larger net expectancy). *)
Theorem truncated_signals_are_ranked (signals : list Sig.t) (available : Z) :
  (0 < available < Z.of_nat (List.length signals))%Z ->
  StronglySorted Analyzer.ranked (Analyzer.allocate signals available).
Proof.
  intro H. rewrite (allocate_truncates _ _ H).
  apply (StronglySorted_app_l _ _ _
           (skipn (Z.to_nat available) (Analyzer.sort_values signals))).
  rewrite firstn_skipn. apply sort_values_sorted.
Qed.

Lemma truncated_signals_are_ranked_witness :
  let mk rr ne :=
    Sig.mk 0 "S" 100 95 110 116 rr 10 1000 50 5 3 (Fin 102) (Fin ne) 4 "relaxed" in
  let signals := [mk 1.5 9; mk 2 1; mk 2 3] in
  (0 < 2 < Z.of_nat (List.length signals))%Z
  /\ StronglySorted Analyzer.ranked (Analyzer.allocate signals 2).
Proof.
  intros mk signals.
  assert (H : (0 < 2 < Z.of_nat (List.length signals))%Z) by (simpl; lia).
  split; [exact H|].
  exact (truncated_signals_are_ranked signals 2 H).
Defined.

(* ================================================================== *)
(** ** The screener from the raw data to the shortlist frame *)
(* ================================================================== *)

Section Screening.

Import Pipeline.

Lemma filter_fuse (A : Type) (p q : A -> bool) (l : list A) :
  filter p (filter q l) = filter (fun x => q x && p x) l.
Proof.
  induction l as [|x l IH]; simpl; [reflexivity|].
  destruct (q x); simpl; [destruct (p x)|]; rewrite IH; reflexivity.
Qed.

Lemma map_filter_comm (A B : Type) (f : A -> B) (p : B -> bool) (l : list A) :
  map f (filter (fun x => p (f x)) l) = filter p (map f l).
Proof.
  induction l as [|x l IH]; simpl; [reflexivity|].
  destruct (p (f x)); simpl; rewrite IH; reflexivity.
Qed.

End Screening.

Section ScreeningBinary.

Import Pipeline64.

Lemma layers_fused64 (df : list Raw.t) (F : Pipeline.Filters) :
  layer3_filter (layer2_filter (Pipeline.layer1_filter df F) F) F
  = filter (passes F) df.
Proof.
  unfold layer3_filter, layer2_filter, Pipeline.layer1_filter.
  rewrite !filter_fuse. apply filter_ext. intro r. unfold passes.
  destruct (Pipeline.volume_ok F r), (Pipeline.price_ok F r),
    (Pipeline.ma_ok F r), (Pipeline.rsi_ok F r), (Pipeline.adx_ok F r),
    (surge_ok F r), (Screener64.breakout (Raw.snap r)),
    (Screener64.extension_ok (Pipeline.layer3 F) (Raw.snap r)),
    (Screener64.rr_ok (Pipeline.layer3 F) (Raw.snap r)),
    (Screener64.risk_ok (Pipeline.layer3 F) (Raw.snap r)); reflexivity.
Qed.

Lemma main_fused (BASE : Pipeline.Filters) (mode : string)
      (file : option (list Raw.t)) :
  main BASE mode file
  = match filter (passes (load_filters BASE mode))
                 (Pipeline.load_latest_data file) with
    | [] => None
    | df => Some (map (shortlist_row mode) df)
    end.
Proof.
  rewrite <- layers_fused64. unfold main. cbv zeta.
  set (F := load_filters BASE mode).
  destruct (Pipeline.load_latest_data file) as [|r0 df0] eqn:E0; [reflexivity|].
  destruct (Pipeline.layer1_filter (r0 :: df0) F) as [|r1 df1] eqn:E1;
    [reflexivity|].
  destruct (layer2_filter (r1 :: df1) F) as [|r2 df2] eqn:E2; [reflexivity|].
  destruct (layer3_filter (r2 :: df2) F); reflexivity.
Qed.

End ScreeningBinary.

(** X13.  The screener's chain of layers, with its early returns on an
    empty frame, writes one row for each row of the day's data that
    meets every condition of the three layers, in the order of the
    data, and writes no file when there is no such row: it never
    writes an empty shortlist.  Every written row carries the symbol
    of its source row and the mode of the run. *)
Theorem screen_is_one_filter
        (BASE : Pipeline.Filters) (mode : string) (file : option (list Raw.t)) :
  let F := Pipeline64.load_filters BASE mode in
  let kept := filter (Pipeline64.passes F) (Pipeline.load_latest_data file) in
  Pipeline64.main BASE mode file
  = match kept with
    | [] => None
    | df => Some (map (Pipeline64.shortlist_row mode) df)
    end
  /\ (forall out, Pipeline64.main BASE mode file = Some out ->
        out <> []
        /\ map Pipeline64.Symbol out = map (fun r => Snap.Symbol (Raw.snap r)) kept
        /\ Forall (fun row => Pipeline64.Mode row = mode) out).
Proof.
  cbv zeta. split.
  { rewrite main_fused.
    destruct (filter (Pipeline64.passes (Pipeline64.load_filters BASE mode))
                     (Pipeline.load_latest_data file)); reflexivity. }
  intros out H. rewrite main_fused in H.
  destruct (filter (Pipeline64.passes (Pipeline64.load_filters BASE mode))
                   (Pipeline.load_latest_data file)) as [|x l];
    [discriminate|].
  injection H as <-. split; [discriminate|]. split.
  - exact (map_map (Pipeline64.shortlist_row mode) Pipeline64.Symbol (x :: l)).
  - apply Forall_forall. intros row Hin.
    change (In row (map (Pipeline64.shortlist_row mode) (x :: l))) in Hin.
    apply in_map_iff in Hin.
    destruct Hin as [r [<- _]]. reflexivity.
Qed.

Lemma screen_is_one_filter_witness :
  let tie := Raw.mk (Snap.mk "T" (B64.lit 115.69) (B64.lit 100.6) 110 110 3)
                    100 90 60 20 300000 400000 in
  let flat := Raw.mk (Snap.mk "R" (B64.lit 199.01) 195 190 (B64.lit 200.01) 3)
                     180 170 60 20 300000 400000 in
  let file := Some [tie; flat] in
  Screener64.extension_ok Screener64.relaxed_filters (Raw.snap tie) = false
  /\ exists row,
       Pipeline64.main Pipeline64.relaxed_filters "relaxed" file = Some [row]
       /\ Pipeline64.Symbol row = "R"%string
       /\ Pipeline64.Mode row = "relaxed"%string
       /\ Pipeline64.Entry row = Pipeline64.SL row.
Proof.
  intros tie flat file.
  split; [vm_compute; reflexivity|].
  destruct (Pipeline64.main Pipeline64.relaxed_filters "relaxed" file)
    as [out|] eqn:E; [|vm_compute in E; discriminate E].
  destruct (proj2 (screen_is_one_filter Pipeline64.relaxed_filters "relaxed" file)
              out E) as (Hne & Hsym & Hmode).
  vm_compute in E. injection E as <-.
  eexists. split; [reflexivity|]. repeat split.
Defined.


Section Profiles.

Import Pipeline.

Lemma xle_weaken (x : xnum) (a b : Q) :
  a <= b -> xle x (Fin a) = true -> xle x (Fin b) = true.
Proof.
  intros Hab. destruct x; cbn; auto.
  intro H. apply Qle_bool_iff in H. apply Qle_bool_iff. lra.
Qed.

Lemma xge_weaken (x : xnum) (a b : Q) :
  b <= a -> xge x (Fin a) = true -> xge x (Fin b) = true.
Proof.
  intros Hab. unfold xge. destruct x; cbn; auto.
  intro H. apply Qle_bool_iff in H. apply Qle_bool_iff. lra.
Qed.

Lemma ma_standard_relaxed (r : Raw.t) :
  ma_standard r = true -> ma_relaxed r = true.
Proof.
  unfold ma_standard, ma_relaxed. intro H.
  repeat (apply andb_true_iff in H; destruct H as [H ?]).
  apply andb_true_iff. split; assumption.
Qed.

End Profiles.

(** X15.  With a positive minimum volume, every row that layer 1 keeps
    has a positive 20-day average volume, so the volume ratio that
    layer 2 computes for it is a finite number, and the volume-surge
    filter keeps the row exactly when the 5-day average volume is at
    least the threshold times the 20-day average volume. *)
Theorem volume_ratio_is_finite_after_layer1
        (df : list Raw.t) (F : Pipeline.Filters) (r : Raw.t) :
  0 < Pipeline.min_volume F ->
  In r (Pipeline.layer1_filter df F) ->
  (0 < Raw.Vol_20D_Avg r)%Z
  /\ (exists q : Q, Pipeline.Vol_Ratio r = Fin q)
  /\ (Pipeline.surge_ok F r = true <->
      Pipeline.volume_surge F * inject_Z (Raw.Vol_20D_Avg r)
      <= inject_Z (Raw.Vol_5D_Avg r)).
Proof.
  intros Hmin Hin.
  unfold Pipeline.layer1_filter in Hin.
  apply filter_In in Hin. destruct Hin as [Hin _].
  apply filter_In in Hin. destruct Hin as [_ Hv].
  unfold Pipeline.volume_ok in Hv. apply Qle_bool_iff in Hv.
  assert (Hq : 0 < inject_Z (Raw.Vol_20D_Avg r)) by lra.
  assert (Hz : (0 < Raw.Vol_20D_Avg r)%Z).
  { change 0 with (inject_Z 0) in Hq. rewrite <- Zlt_Qlt in Hq. exact Hq. }
  assert (Hne : ~ inject_Z (Raw.Vol_20D_Avg r) == 0) by lra.
  split; [exact Hz|].
  unfold Pipeline.surge_ok, Pipeline.Vol_Ratio, xdiv, xge.
  rewrite (Qeq_bool_false _ _ Hne). cbn [xle].
  split; [eexists; reflexivity|].
  rewrite Qle_bool_iff. split; intro H.
  - assert (Hm : Pipeline.volume_surge F * inject_Z (Raw.Vol_20D_Avg r)
                 <= inject_Z (Raw.Vol_5D_Avg r) / inject_Z (Raw.Vol_20D_Avg r)
                    * inject_Z (Raw.Vol_20D_Avg r))
      by (apply Qmult_le_compat_r; lra).
    assert (Hx : inject_Z (Raw.Vol_5D_Avg r) / inject_Z (Raw.Vol_20D_Avg r)
                 * inject_Z (Raw.Vol_20D_Avg r) == inject_Z (Raw.Vol_5D_Avg r))
      by (field; exact Hne).
    rewrite Hx in Hm. exact Hm.
  - apply Qle_shift_div_l; assumption.
Qed.

Lemma volume_ratio_is_finite_after_layer1_witness :
  let r := Raw.mk (Snap.mk "Y" 100 95 90 96 3) 92 85 60 30 300000 400000 in
  let F := Pipeline.relaxed_filters in
  0 < Pipeline.min_volume F
  /\ In r (Pipeline.layer1_filter [r] F)
  /\ (0 < Raw.Vol_20D_Avg r)%Z
  /\ exists q : Q, Pipeline.Vol_Ratio r = Fin q.
Proof.
  intros r F.
  assert (H0 : 0 < Pipeline.min_volume F) by (vm_compute; reflexivity).
  assert (H1 : In r (Pipeline.layer1_filter [r] F)) by (left; reflexivity).
  split; [exact H0|]. split; [exact H1|].
  destruct (volume_ratio_is_finite_after_layer1 [r] F r H0 H1) as (H2 & H3 & _).
  split; assumption.
Defined.

(** X16.  Of two filter sets that differ only in the mode, everything
    that layer 2 keeps in standard mode it also keeps in relaxed mode:
    the standard trend rule implies the relaxed one.  The testing rule
    is not implied: a row with the moving averages stacked 20 > 50 >
    200 and a close between the 20-day and the 50-day average passes
    the standard rule and fails the testing rule. *)
Theorem standard_trend_rule_implies_relaxed
        (df : list Raw.t) (Fs Fr : Pipeline.Filters) (r : Raw.t) :
  Pipeline.mode_of Fs = "standard"%string ->
  Pipeline.mode_of Fr = "relaxed"%string ->
  Pipeline.rsi_min Fr = Pipeline.rsi_min Fs ->
  Pipeline.rsi_max Fr = Pipeline.rsi_max Fs ->
  Pipeline.adx_min Fr = Pipeline.adx_min Fs ->
  Pipeline.volume_surge Fr = Pipeline.volume_surge Fs ->
  (In r (Pipeline.layer2_filter df Fs) -> In r (Pipeline.layer2_filter df Fr))
  /\ (Raw.MA200 r < Raw.MA50 r -> Raw.MA50 r < Raw.Close r ->
      Raw.Close r <= Raw.MA20 r ->
      Pipeline.ma_standard r = true /\ Pipeline.ma_testing r = false).
Proof.
  intros Hs Hr H1 H2 H3 H4. split.
  - unfold Pipeline.layer2_filter. rewrite !filter_In.
    unfold Pipeline.ma_ok, Pipeline.rsi_ok, Pipeline.adx_ok, Pipeline.surge_ok.
    rewrite Hs, Hr, H1, H2, H3, H4. cbn [String.eqb Ascii.eqb Bool.eqb].
    intros ((((Hin & Hma) & Hrsi) & Hadx) & Hsurge).
    repeat split; auto. apply ma_standard_relaxed. exact Hma.
  - intros Ha Hb Hc. unfold Pipeline.ma_standard, Pipeline.ma_testing. split.
    + repeat (apply andb_true_iff; split); apply Qltb_lt; lra.
    + apply Qltb_ge. exact Hc.
Qed.

Lemma standard_trend_rule_implies_relaxed_witness :
  let r := Raw.mk (Snap.mk "Y" 100 105 90 96 3) 95 90 60 30 300000 400000 in
  let Fs := Pipeline.mkFilters 200000 100 5000 45 75 15 1.1
              (Screener.mkFilters (Some "standard"%string) 15 1.8) in
  let Fr := Pipeline.relaxed_filters in
  In r (Pipeline.layer2_filter [r] Fs)
  /\ In r (Pipeline.layer2_filter [r] Fr)
  /\ Pipeline.ma_testing r = false.
Proof.
  intros r Fs Fr.
  assert (Hin : In r (Pipeline.layer2_filter [r] Fs)) by (left; reflexivity).
  pose proof (standard_trend_rule_implies_relaxed [r] Fs Fr r
                eq_refl eq_refl eq_refl eq_refl eq_refl eq_refl) as [Ha Hb].
  split; [exact Hin|]. split; [exact (Ha Hin)|].
  apply Hb; vm_compute; (reflexivity || discriminate).
Defined.

(** X17.  The testing profile is at least as permissive as the relaxed
    profile in layers 1 and 3: every row that layer 1 or layer 3 keeps
    under the relaxed thresholds it also keeps under the testing
    thresholds. *)
Theorem testing_profile_contains_relaxed (df : list Raw.t) (r : Raw.t) :
  (In r (Pipeline.layer1_filter df Pipeline.relaxed_filters) ->
   In r (Pipeline.layer1_filter df Pipeline.testing_filters))
  /\ (In r (Pipeline.layer3_filter df Pipeline.relaxed_filters) ->
      In r (Pipeline.layer3_filter df Pipeline.testing_filters)).
Proof.
  split.
  - unfold Pipeline.layer1_filter. rewrite !filter_In.
    unfold Pipeline.volume_ok, Pipeline.price_ok.
    cbn [Pipeline.min_volume Pipeline.min_price Pipeline.max_price
         Pipeline.relaxed_filters Pipeline.testing_filters].
    intros ((Hin & Hv) & Hp).
    apply andb_true_iff in Hp. destruct Hp as [Hp1 Hp2].
    apply Qle_bool_iff in Hv, Hp1, Hp2.
    repeat split; [exact Hin | |].
    + apply Qle_bool_iff. lra.
    + apply andb_true_iff. split; apply Qle_bool_iff; lra.
  - unfold Pipeline.layer3_filter. rewrite !filter_In.
    unfold Screener.extension_ok, Screener.rr_ok, Screener.risk_ok.
    cbn [Pipeline.layer3 Pipeline.relaxed_filters Pipeline.testing_filters
         Screener.relaxed_filters Screener.testing_filters
         Screener.max_extension Screener.min_rr Screener.is_testing
         Screener.mode String.eqb Ascii.eqb Bool.eqb].
    intros ((((Hin & Hb) & He) & Hrr) & Hrisk).
    repeat split; [exact Hin | exact Hb | | |].
    + apply (xle_weaken _ 15 25); [vm_compute; discriminate | exact He].
    + apply (xge_weaken _ 1.8 1.2); [vm_compute; discriminate | exact Hrr].
    + apply (xle_weaken _ 5 12); [vm_compute; discriminate | exact Hrisk].
Qed.

Lemma testing_profile_contains_relaxed_witness :
  let r := Raw.mk (Snap.mk "Y" 100 95 90 96 3) 92 85 60 30 300000 400000 in
  In r (Pipeline.layer3_filter [r] Pipeline.relaxed_filters)
  /\ In r (Pipeline.layer3_filter [r] Pipeline.testing_filters).
Proof.
  intro r.
  assert (H : In r (Pipeline.layer3_filter [r] Pipeline.relaxed_filters))
    by (left; reflexivity).
  split; [exact H|].
  exact (proj2 (testing_profile_contains_relaxed [r] r) H).
Defined.

(* ================================================================== *)
(** ** The reporter's metrics *)
(* ================================================================== *)

Section MetricsFacts.

Import Metrics.

Lemma win_not_loss (r : Hist.t) : is_win r = true -> is_loss r = false.
Proof.
  unfold is_win, is_loss. intro H. apply Qltb_lt in H. apply Qltb_ge.
  apply Qlt_le_weak. exact H.
Qed.

Lemma wins_losses_le (l : list Hist.t) :
  (List.length (filter is_win l) + List.length (filter is_loss l)
   <= List.length l)%nat.
Proof.
  induction l as [|r l IH]; simpl; [lia|].
  destruct (is_win r) eqn:Ew.
  - rewrite (win_not_loss r Ew). simpl. lia.
  - destruct (is_loss r); simpl; lia.
Qed.

Lemma filter_length_le (A : Type) (p : A -> bool) (l : list A) :
  (List.length (filter p l) <= List.length l)%nat.
Proof.
  induction l as [|x l IH]; simpl; [lia|]. destruct (p x); simpl; lia.
Qed.

Lemma Qmin2_le_l (a b : Q) : Qmin2 a b <= a.
Proof.
  unfold Qmin2. destruct (Qle_bool a b) eqn:E; [apply Qle_refl|].
  apply Qle_bool_false in E. apply Qlt_le_weak. exact E.
Qed.

Lemma Qmin2_le_r (a b : Q) : Qmin2 a b <= b.
Proof.
  unfold Qmin2. destruct (Qle_bool a b) eqn:E; [|apply Qle_refl].
  apply Qle_bool_iff. exact E.
Qed.

Lemma Qmax2_ge_l (a b : Q) : a <= Qmax2 a b.
Proof.
  unfold Qmax2. destruct (Qle_bool a b) eqn:E; [|apply Qle_refl].
  apply Qle_bool_iff. exact E.
Qed.

Lemma Qmax2_ge_r (a b : Q) : b <= Qmax2 a b.
Proof.
  unfold Qmax2. destruct (Qle_bool a b) eqn:E; [apply Qle_refl|].
  apply Qle_bool_false in E. apply Qlt_le_weak. exact E.
Qed.

Lemma series_min_le (x : Q) (rest : list Q) :
  series_min x rest <= x /\ forall y, In y rest -> series_min x rest <= y.
Proof.
  unfold series_min. revert x.
  induction rest as [|z rest IH]; intro x; simpl.
  - split; [apply Qle_refl | contradiction].
  - destruct (IH (Qmin2 x z)) as [H1 H2]. split.
    + eapply Qle_trans; [exact H1 | apply Qmin2_le_l].
    + intros y [<- | Hy]; [|apply H2; exact Hy].
      eapply Qle_trans; [exact H1 | apply Qmin2_le_r].
Qed.

Lemma series_max_ge (x : Q) (rest : list Q) :
  x <= series_max x rest /\ forall y, In y rest -> y <= series_max x rest.
Proof.
  unfold series_max. revert x.
  induction rest as [|z rest IH]; intro x; simpl.
  - split; [apply Qle_refl | contradiction].
  - destruct (IH (Qmax2 x z)) as [H1 H2]. split.
    + eapply Qle_trans; [apply Qmax2_ge_l | exact H1].
    + intros y [<- | Hy]; [|apply H2; exact Hy].
      eapply Qle_trans; [apply Qmax2_ge_r | exact H1].
Qed.

Lemma Qsum_bounds (lo hi : Q) (l : list Q) :
  (forall y, In y l -> lo <= y <= hi) ->
  lo * inject_Z (Z.of_nat (List.length l)) <= Qsum l
  /\ Qsum l <= hi * inject_Z (Z.of_nat (List.length l)).
Proof.
  induction l as [|x l IH]; intro H.
  - change (inject_Z (Z.of_nat (List.length (@nil Q)))) with 0.
    change (Qsum []) with 0. split; lra.
  - assert (Hx : lo <= x <= hi) by (apply H; left; reflexivity).
    destruct IH as [IH1 IH2]; [intros y Hy; apply H; right; exact Hy|].
    cbn [Qsum fold_right List.length]. fold (Qsum l).
    rewrite Nat2Z.inj_succ. unfold Z.succ. rewrite inject_Z_plus.
    change (inject_Z 1) with 1.
    split; lra.
Qed.

Lemma mean_bounds (lo hi x : Q) (rest : list Q) :
  (forall y, In y (x :: rest) -> lo <= y <= hi) ->
  lo <= mean (x :: rest) <= hi.
Proof.
  intro H. destruct (Qsum_bounds lo hi (x :: rest) H) as [H1 H2].
  unfold mean.
  set (n := inject_Z (Z.of_nat (List.length (x :: rest)))) in *.
  assert (Hn : 0 < n).
  { unfold n. change 0 with (inject_Z 0). rewrite <- Zlt_Qlt. simpl. lia. }
  split.
  - apply Qle_shift_div_l; assumption.
  - apply Qle_shift_div_r; assumption.
Qed.

Lemma count_pos (r : Hist.t) (rs : list Hist.t) : (0 < count (r :: rs))%Z.
Proof. unfold count. simpl. lia. Qed.

End MetricsFacts.

(** X18.  [weekly_metrics] returns nothing exactly when no trade of the
    history exited in the last seven days.  Otherwise the number of
    trades is positive, wins and losses together are at most the
    trades (a trade with a zero P&L is neither), the win rate is
    between 0 and 100, and the average percentage P&L lies between the
    worst and the best trade. *)
Theorem weekly_metrics_are_consistent (c : Metrics.Clock) (df : list Hist.t) :
  (Metrics.weekly_metrics c df = None <->
   filter (Metrics.exited_since (Metrics.week_start c)) df = [])
  /\ forall m, Metrics.weekly_metrics c df = Some m ->
       (0 < Metrics.W_Trades m)%Z
       /\ (0 <= Metrics.W_Wins m)%Z /\ (0 <= Metrics.W_Losses m)%Z
       /\ (Metrics.W_Wins m + Metrics.W_Losses m <= Metrics.W_Trades m)%Z
       /\ 0 <= Metrics.W_WinRate m <= 100
       /\ Metrics.W_Worst_Trade m <= Metrics.W_Avg_PnL m
       /\ Metrics.W_Avg_PnL m <= Metrics.W_Best_Trade m.
Proof.
  unfold Metrics.weekly_metrics.
  destruct (filter (Metrics.exited_since (Metrics.week_start c)) df)
    as [|r rs] eqn:Ew.
  - split; [split; reflexivity | discriminate].
  - split; [split; discriminate|].
    intros m H. injection H as <-.
    cbn [Metrics.W_Trades Metrics.W_Wins Metrics.W_Losses Metrics.W_WinRate
         Metrics.W_Avg_PnL Metrics.W_Best_Trade Metrics.W_Worst_Trade].
    pose proof (wins_losses_le (r :: rs)) as Hwl.
    pose proof (filter_length_le _ Metrics.is_win (r :: rs)) as Hw.
    unfold Metrics.count. cbn [filter] in *.
    set (w := List.length (if Metrics.is_win r then _ else _)) in *.
    set (l := List.length (if Metrics.is_loss r then _ else _)) in *.
    set (n := List.length (r :: rs)) in *.
    assert (Hn : (0 < n)%nat) by (unfold n; simpl; lia).
    split; [lia|]. split; [lia|]. split; [lia|]. split; [lia|].
    assert (Hnq : 0 < inject_Z (Z.of_nat n)).
    { change 0 with (inject_Z 0). rewrite <- Zlt_Qlt. lia. }
    assert (Hwq : 0 <= inject_Z (Z.of_nat w)).
    { change 0 with (inject_Z 0). rewrite <- Zle_Qle. lia. }
    assert (Hwn : inject_Z (Z.of_nat w) <= inject_Z (Z.of_nat n)).
    { rewrite <- Zle_Qle. lia. }
    assert (Hr0 : 0 <= inject_Z (Z.of_nat w) / inject_Z (Z.of_nat n)).
    { apply Qle_shift_div_l; [exact Hnq | lra]. }
    assert (Hr1 : inject_Z (Z.of_nat w) / inject_Z (Z.of_nat n) <= 1).
    { apply Qle_shift_div_r; [exact Hnq | lra]. }
    split.
    { split.
      - apply round2_nonneg. lra.
      - apply (Qle_trans _ (round2 100)); [apply round2_mono; lra|].
        vm_compute. discriminate. }
    destruct (series_min_le (Hist.PnL_Pct r) (map Hist.PnL_Pct rs)) as [Hm1 Hm2].
    destruct (series_max_ge (Hist.PnL_Pct r) (map Hist.PnL_Pct rs)) as [HM1 HM2].
    destruct (mean_bounds
                (Metrics.series_min (Hist.PnL_Pct r) (map Hist.PnL_Pct rs))
                (Metrics.series_max (Hist.PnL_Pct r) (map Hist.PnL_Pct rs))
                (Hist.PnL_Pct r) (map Hist.PnL_Pct rs)) as [Hlo Hhi].
    { intros y [<- | Hy]; split; auto. }
    split; apply round2_mono; assumption.
Qed.

Lemma weekly_metrics_are_consistent_witness :
  let c := Metrics.mkClock 20.5 21 in
  let df := [Hist.mk 10 18 500 5; Hist.mk 11 19 (-200) (-2);
             Hist.mk 1 5 900 9] in
  exists m, Metrics.weekly_metrics c df = Some m
            /\ (Metrics.W_Wins m + Metrics.W_Losses m <= Metrics.W_Trades m)%Z
            /\ Metrics.W_Worst_Trade m <= Metrics.W_Avg_PnL m.
Proof.
  intros c df.
  assert (E : exists m, Metrics.weekly_metrics c df = Some m)
    by (eexists; vm_compute; reflexivity).
  destruct E as [m Hm]. exists m. split; [exact Hm|].
  destruct (proj2 (weekly_metrics_are_consistent c df) m Hm)
    as (_ & _ & _ & H4 & _ & H6 & _).
  split; assumption.
Defined.

Section MonthlyFacts.

Import Metrics.

Lemma round_half_even_comp (a b : Q) :
  a == b -> round_half_even a = round_half_even b.
Proof.
  intro H. unfold round_half_even.
  rewrite (Qfloor_comp _ _ H).
  assert (Hc : Qcompare (a - inject_Z (Qfloor b)) (1 # 2)
               = Qcompare (b - inject_Z (Qfloor b)) (1 # 2)).
  { apply Qcompare_comp; [rewrite H; reflexivity | reflexivity]. }
  rewrite Hc. reflexivity.
Qed.

Lemma round2_comp (a b : Q) : a == b -> round2 a = round2 b.
Proof.
  intro H. unfold round2. f_equal. f_equal.
  apply round_half_even_comp. rewrite H. reflexivity.
Qed.

Lemma filter_perm (A : Type) (p : A -> bool) (l l' : list A) :
  Permutation l l' -> Permutation (filter p l) (filter p l').
Proof.
  induction 1 as [|x l l' _ IH|x y l|l l' l'' _ IH1 _ IH2]; simpl.
  - constructor.
  - destruct (p x); [constructor|]; exact IH.
  - destruct (p x), (p y); try reflexivity. apply perm_swap.
  - etransitivity; eassumption.
Qed.

Lemma loss_streak_bound (losses : list bool) (m c : Z) :
  (0 <= c)%Z ->
  (m <= loss_streak losses m c
   <= Z.max m (c + Z.of_nat (List.length (filter (fun b => b) losses))))%Z.
Proof.
  revert m c. induction losses as [|b rest IH]; intros m c Hc; simpl.
  - lia.
  - destruct b; simpl.
    + assert (Hc1 : (0 <= c + 1)%Z) by lia.
      specialize (IH (Z.max m (c + 1)) (c + 1)%Z Hc1). lia.
    + specialize (IH m 0%Z (Z.le_refl 0)). lia.
Qed.

Lemma filter_map_length (A : Type) (p : A -> bool) (l : list A) :
  List.length (filter (fun b => b) (map p l)) = List.length (filter p l).
Proof.
  induction l as [|x l IH]; simpl; [reflexivity|].
  destruct (p x); simpl; rewrite IH; reflexivity.
Qed.

Lemma drawdown_head (a : Q) (l : list Q) :
  exists d ds, drawdown (a :: l) = d :: ds /\ d == 0.
Proof.
  unfold drawdown, cumsum, cummax. cbn [cumsum_from series_sub].
  eexists. eexists. split; [reflexivity | ring].
Qed.

Lemma filter_split_length (A : Type) (p : A -> bool) (l : list A) :
  (List.length (filter p l) + List.length (filter (fun x => negb (p x)) l)
   = List.length l)%nat.
Proof.
  induction l as [|x l IH]; simpl; [reflexivity|].
  destruct (p x); simpl; lia.
Qed.

End MonthlyFacts.

(** X19.  For any sort of the month's trades by exit date,
    [monthly_metrics] returns nothing exactly when no trade exited
    since the start of the month.  Otherwise the number of trades is
    positive, wins and losses together are at most the trades, the win
    rate is between 0 and 100, the longest run of consecutive losses
    is between 0 and the number of losses, and the maximum drawdown is
    a finite number that is at most 0. *)
Theorem monthly_metrics_are_consistent
        (sort_by_exit_date : list Hist.t -> list Hist.t)
        (c : Metrics.Clock) (df : list Hist.t) :
  (forall l, Permutation (sort_by_exit_date l) l) ->
  (Metrics.monthly_metrics sort_by_exit_date c df = None <->
   filter (Metrics.exited_since (Metrics.month_start c)) df = [])
  /\ forall m, Metrics.monthly_metrics sort_by_exit_date c df = Some m ->
       (0 < Metrics.M_Trades m)%Z
       /\ (Metrics.M_Wins m + Metrics.M_Losses m <= Metrics.M_Trades m)%Z
       /\ 0 <= Metrics.M_WinRate m <= 100
       /\ (0 <= Metrics.M_Max_Consecutive_Losses m <= Metrics.M_Losses m)%Z
       /\ exists d : Q, Metrics.M_Max_Drawdown_Rs m = Fin d /\ d <= 0.
Proof.
  intro Hsort. unfold Metrics.monthly_metrics.
  destruct (filter (Metrics.exited_since (Metrics.month_start c)) df)
    as [|r rs] eqn:Em.
  - split; [split; reflexivity | discriminate].
  - split; [split; discriminate|].
    intros m H. injection H as <-.
    cbn [Metrics.M_Trades Metrics.M_Wins Metrics.M_Losses Metrics.M_WinRate
         Metrics.M_Max_Consecutive_Losses Metrics.M_Max_Drawdown_Rs].
    pose proof (wins_losses_le (r :: rs)) as Hwl.
    pose proof (filter_length_le _ Metrics.is_win (r :: rs)) as Hw.
    pose proof (loss_streak_bound
                  (map Metrics.is_loss (sort_by_exit_date (r :: rs))) 0 0
                  (Z.le_refl 0)) as Hstreak.
    rewrite filter_map_length in Hstreak.
    rewrite (Permutation_length
               (filter_perm _ Metrics.is_loss _ _ (Hsort (r :: rs)))) in Hstreak.
    unfold Metrics.win_rate. unfold Metrics.count. cbn [filter] in *.
    set (w := List.length (if Metrics.is_win r then _ else _)) in *.
    set (l := List.length (if Metrics.is_loss r then _ else _)) in *.
    set (month := r :: rs) in *.
    assert (Hn : List.length month = S (List.length rs)) by reflexivity.
    split; [lia|]. split; [lia|].
    assert (Hnq : 0 < inject_Z (Z.of_nat (List.length month))).
    { change 0 with (inject_Z 0). rewrite <- Zlt_Qlt. lia. }
    assert (Hwq : 0 <= inject_Z (Z.of_nat w)).
    { change 0 with (inject_Z 0). rewrite <- Zle_Qle. lia. }
    assert (Hwn : inject_Z (Z.of_nat w) <= inject_Z (Z.of_nat (List.length month))).
    { rewrite <- Zle_Qle. lia. }
    assert (Hr0 : 0 <= inject_Z (Z.of_nat w)
                       / inject_Z (Z.of_nat (List.length month))).
    { apply Qle_shift_div_l; [exact Hnq | lra]. }
    assert (Hr1 : inject_Z (Z.of_nat w)
                  / inject_Z (Z.of_nat (List.length month)) <= 1).
    { apply Qle_shift_div_r; [exact Hnq | lra]. }
    split.
    { split.
      - apply round2_nonneg. lra.
      - apply (Qle_trans _ (round2 100)); [apply round2_mono; lra|].
        vm_compute. discriminate. }
    split; [lia|].
    destruct (sort_by_exit_date month) as [|s ss] eqn:Es.
    { exfalso. pose proof (Permutation_length (Hsort month)) as Hp.
      rewrite Es in Hp. simpl in Hp. lia. }
    cbn [map].
    destruct (drawdown_head (Hist.PnL_Rs s) (map Hist.PnL_Rs ss))
      as [d [ds [Hd Hd0]]].
    rewrite Hd. cbn [Metrics.min_of xround2].
    eexists. split; [reflexivity|].
    apply round2_nonpos.
    destruct (series_min_le d ds) as [Hmin _]. lra.
Qed.

Lemma monthly_metrics_are_consistent_witness :
  let c := Metrics.mkClock 20.5 21 in
  let df := [Hist.mk 1 5 (-900) (-9); Hist.mk 10 18 500 5;
             Hist.mk 11 19 (-200) (-2)] in
  let in_order := fun l : list Hist.t => l in
  (forall l : list Hist.t, Permutation (in_order l) l)
  /\ exists m, Metrics.monthly_metrics in_order c df = Some m
       /\ (0 <= Metrics.M_Max_Consecutive_Losses m <= Metrics.M_Losses m)%Z
       /\ exists d : Q, Metrics.M_Max_Drawdown_Rs m = Fin d /\ d <= 0.
Proof.
  intros c df in_order.
  assert (Hs : forall l : list Hist.t, Permutation (in_order l) l)
    by (intro l; reflexivity).
  split; [exact Hs|].
  assert (E : exists m, Metrics.monthly_metrics in_order c df = Some m)
    by (eexists; vm_compute; reflexivity).
  destruct E as [m Hm]. exists m. split; [exact Hm|].
  destruct (proj2 (monthly_metrics_are_consistent in_order c df Hs) m Hm)
    as (_ & _ & _ & H4 & H5).
  split; assumption.
Defined.

(** X21.  The month window starts at the current time of day on the
    first of the month: a trade whose exit date is the first day of
    the month is counted by [monthly_metrics] only when the report
    runs at midnight exactly, while a trade that exited on a later day
    of the month is always counted. *)
Theorem month_window_starts_at_time_of_day (c : Metrics.Clock) (r : Hist.t) :
  let first := (Qfloor (Metrics.now c) - (Metrics.day_of_month c - 1))%Z in
  (Hist.Exit_Date r = first ->
   (Metrics.exited_since (Metrics.month_start c) r = true <->
    Metrics.now c == inject_Z (Qfloor (Metrics.now c))))
  /\ ((first < Hist.Exit_Date r)%Z ->
      Metrics.exited_since (Metrics.month_start c) r = true).
Proof.
  cbv zeta. unfold Metrics.exited_since, Metrics.month_start.
  pose proof (Qfloor_le (Metrics.now c)) as Hf.
  pose proof (Qlt_floor (Metrics.now c)) as Hc.
  rewrite inject_Z_plus in Hc. change (inject_Z 1) with 1 in Hc.
  set (k := (Metrics.day_of_month c - 1)%Z).
  assert (He : inject_Z (Qfloor (Metrics.now c) - k)
               == inject_Z (Qfloor (Metrics.now c)) - inject_Z k).
  { unfold Z.sub. rewrite inject_Z_plus, inject_Z_opp. ring. }
  split.
  - intros ->. rewrite Qle_bool_iff, He. split; intro H; lra.
  - intro Hlt. apply Qle_bool_iff.
    assert (Hq : inject_Z (Qfloor (Metrics.now c) - k) + 1
                 <= inject_Z (Hist.Exit_Date r)).
    { change 1 with (inject_Z 1). rewrite <- inject_Z_plus, <- Zle_Qle. lia. }
    rewrite He in Hq. lra.
Qed.

Lemma month_window_starts_at_time_of_day_witness :
  let c := Metrics.mkClock 20.5 21 in
  let r := Hist.mk (-5) 0 500 5 in
  let later := Hist.mk (-5) 1 500 5 in
  Hist.Exit_Date r
  = (Qfloor (Metrics.now c) - (Metrics.day_of_month c - 1))%Z
  /\ Metrics.exited_since (Metrics.month_start c) r = false
  /\ Metrics.exited_since (Metrics.month_start c) later = true.
Proof.
  intros c r later.
  assert (H : Hist.Exit_Date r
              = (Qfloor (Metrics.now c) - (Metrics.day_of_month c - 1))%Z)
    by reflexivity.
  pose proof (month_window_starts_at_time_of_day c r) as [H1 _].
  pose proof (month_window_starts_at_time_of_day c later) as [_ H2].
  split; [exact H|]. split.
  - pose proof (proj1 (H1 H)) as Himp.
    destruct (Metrics.exited_since (Metrics.month_start c) r);
      [|reflexivity].
    exfalso. specialize (Himp eq_refl). vm_compute in Himp. discriminate Himp.
  - apply H2. vm_compute. reflexivity.
Defined.

(* ================================================================== *)
(** ** What a cleanup keeps *)
(* ================================================================== *)

Section CleanupFacts.

Import Cleanup.

Lemma mem_In (s : string) (l : list string) : mem s l = true <-> In s l.
Proof.
  unfold mem. rewrite existsb_exists. split.
  - intros [x [Hin He]]. apply String.eqb_eq in He. subst. exact Hin.
  - intro H. exists s. split; [exact H | apply String.eqb_refl].
Qed.

Lemma clean_entries_filter (pattern : string -> bool) (older : option Z)
      (pl dry : bool) (entries : list Entry) :
  clean_entries pattern older pl dry entries
  = ((Z.of_nat (List.length (filter (deletes pattern older pl dry) entries)),
      total_size (filter (deletes pattern older pl dry) entries)),
     filter (fun e => negb (deletes pattern older pl dry e)) entries).
Proof.
  induction entries as [|e rest IH]; [reflexivity|].
  cbn [clean_entries filter]. rewrite IH.
  destruct (deletes pattern older pl dry e); cbn [negb]; [|reflexivity].
  cbn [List.length total_size fold_right].
  fold (total_size (filter (deletes pattern older pl dry) rest)).
  f_equal. f_equal; lia.
Qed.

Lemma deletes_dry (pattern : string -> bool) (older : option Z) (pl : bool)
      (e : Entry) :
  deletes pattern older pl true e = false.
Proof.
  unfold deletes.
  destruct (negb (pattern (name e))); [reflexivity|].
  destruct (negb (is_file e)); [reflexivity|].
  destruct (should_preserve (name e) pl); [reflexivity|].
  destruct older as [d|]; [destruct (get_file_age_days e <? d)%Z|];
    destruct (negb (removable e)); reflexivity.
Qed.

Lemma deletes_preserved (pattern : string -> bool) (older : option Z)
      (pl dry : bool) (e : Entry) :
  should_preserve (name e) pl = true -> deletes pattern older pl dry e = false.
Proof.
  intro H. unfold deletes. rewrite H.
  destruct (negb (pattern (name e))); [reflexivity|].
  destruct (negb (is_file e)); reflexivity.
Qed.

Lemma should_preserve_always (filename : string) (pl : bool) :
  In filename (PRESERVE_config ++ PRESERVE_data ++ PRESERVE_root) ->
  should_preserve filename pl = true.
Proof.
  intro H. unfold should_preserve.
  apply in_app_or in H. destruct H as [H | H].
  - apply mem_In in H. rewrite H. reflexivity.
  - destruct (mem filename PRESERVE_config); [reflexivity|].
    apply in_app_or in H. destruct H as [H | H].
    + apply mem_In in H. rewrite H. reflexivity.
    + destruct (mem filename PRESERVE_data); [reflexivity|].
      apply mem_In in H. rewrite H. reflexivity.
Qed.

Lemma deletes_true (pattern : string -> bool) (older : option Z)
      (pl dry : bool) (e : Entry) :
  deletes pattern older pl dry e = true ->
  pattern (name e) = true /\ is_file e = true
  /\ should_preserve (name e) pl = false
  /\ removable e = true /\ dry = false
  /\ forall d, older = Some d -> (d <= get_file_age_days e)%Z.
Proof.
  unfold deletes.
  destruct (pattern (name e)); [|discriminate].
  destruct (is_file e); [|discriminate].
  destruct (should_preserve (name e) pl); [discriminate|].
  cbn [negb].
  destruct older as [d|].
  - destruct (get_file_age_days e <? d)%Z eqn:Ed; [discriminate|].
    destruct (removable e); [|discriminate]. cbn [negb].
    destruct dry; [discriminate|]. intros _.
    repeat split. intros d' Hd. injection Hd as <-.
    apply Z.ltb_ge in Ed. exact Ed.
  - destruct (removable e); [|discriminate]. cbn [negb].
    destruct dry; [discriminate|]. intros _.
    repeat split. discriminate.
Qed.

Lemma total_size_split (p : Entry -> bool) (entries : list Entry) :
  total_size entries
  = (total_size (filter (fun e => negb (p e)) entries)
     + total_size (filter p entries))%Z.
Proof.
  induction entries as [|e rest IH]; [reflexivity|].
  cbn [filter total_size fold_right]. fold (total_size rest).
  destruct (p e); cbn [negb total_size fold_right];
    fold (total_size (filter (fun e => negb (p e)) rest));
    fold (total_size (filter p rest)); lia.
Qed.

End CleanupFacts.

(** X22.  Whatever the pattern, the age limit and the keep-latest
    option, [clean_directory] never removes a file that
    [should_preserve] protects, and the configuration files, the
    watchlist, the two ledgers and the root files are protected under
    every option.  In a dry run it removes nothing and reports 0 files
    and 0 bytes, as it does for a directory that does not exist. *)
Theorem cleanup_keeps_preserved_files
        (entries : list Cleanup.Entry) (pattern : string -> bool)
        (older : option Z) (pl dry : bool) :
  exists kept : list Cleanup.Entry,
    snd (Cleanup.clean_directory (Some entries) pattern older pl dry) = Some kept
    /\ (forall e, In e kept -> In e entries)
    /\ (forall e, In e entries ->
          Cleanup.should_preserve (Cleanup.name e) pl = true -> In e kept)
    /\ (forall e, In e entries ->
          In (Cleanup.name e)
             (Cleanup.PRESERVE_config ++ Cleanup.PRESERVE_data
              ++ Cleanup.PRESERVE_root) ->
          In e kept)
    /\ (dry = true ->
        Cleanup.clean_directory (Some entries) pattern older pl dry
        = ((0%Z, 0%Z), Some entries))
    /\ Cleanup.clean_directory None pattern older pl dry = ((0%Z, 0%Z), None).
Proof.
  unfold Cleanup.clean_directory. rewrite clean_entries_filter. cbn [snd].
  eexists. split; [reflexivity|].
  split; [intros e He; apply filter_In in He; apply He|].
  split.
  { intros e He Hp. apply filter_In. split; [exact He|].
    rewrite (deletes_preserved pattern older pl dry e Hp). reflexivity. }
  split.
  { intros e He Hn. apply filter_In. split; [exact He|].
    rewrite (deletes_preserved pattern older pl dry e
               (should_preserve_always _ pl Hn)). reflexivity. }
  split; [|reflexivity].
  intros ->.
  assert (Hd : filter (Cleanup.deletes pattern older pl true) entries = []).
  { induction entries as [|e rest IH]; [reflexivity|].
    cbn [filter]. rewrite deletes_dry. exact IH. }
  assert (Hk : filter (fun e => negb (Cleanup.deletes pattern older pl true e))
                      entries = entries).
  { induction entries as [|e rest IH]; [reflexivity|].
    cbn [filter]. rewrite deletes_dry. cbn [negb]. f_equal.
    apply IH. cbn [filter] in Hd. rewrite deletes_dry in Hd. exact Hd. }
  rewrite Hd, Hk. reflexivity.
Qed.

Lemma cleanup_keeps_preserved_files_witness :
  let ledger := Cleanup.mkEntry "trade_tracker.csv" true 900 (Some 40%Z) true in
  let old := Cleanup.mkEntry "daily_signals_20250101.csv" true 300 (Some 40%Z) true in
  let entries := [ledger; old] in
  snd (Cleanup.clean_directory (Some entries) (fun _ => true) (Some 7%Z) false false)
  = Some [ledger]
  /\ Cleanup.clean_directory (Some entries) (fun _ => true) (Some 7%Z) false true
     = ((0%Z, 0%Z), Some entries).
Proof.
  intros ledger old entries.
  split; [reflexivity|].
  destruct (cleanup_keeps_preserved_files entries (fun _ => true) (Some 7%Z)
              false true) as [kept (_ & _ & _ & _ & H & _)].
  exact (H eq_refl).
Defined.

(** X23.  [clean_directory] accounts for what it removes: the count it
    returns is the number of entries that left the directory and the
    bytes it returns are their total size.  Every entry it removes
    matches the pattern, is a regular file that could be removed, is
    not protected and, under an age limit, is at least that many days
    old; a file whose modification time cannot be read counts as 0 days
    old and is kept under any positive age limit. *)
Theorem cleanup_accounts_for_removals
        (entries : list Cleanup.Entry) (pattern : string -> bool)
        (older : option Z) (pl dry : bool) :
  let r := Cleanup.clean_directory (Some entries) pattern older pl dry in
  exists kept : list Cleanup.Entry,
    snd r = Some kept
    /\ (Z.of_nat (List.length entries)
        = Z.of_nat (List.length kept) + fst (fst r))%Z
    /\ (Cleanup.total_size entries
        = Cleanup.total_size kept + snd (fst r))%Z
    /\ (forall e, In e entries -> ~ In e kept ->
          pattern (Cleanup.name e) = true
          /\ Cleanup.is_file e = true
          /\ Cleanup.removable e = true
          /\ Cleanup.should_preserve (Cleanup.name e) pl = false
          /\ dry = false
          /\ forall d, older = Some d ->
               (d <= Cleanup.get_file_age_days e)%Z
               /\ (Cleanup.age e = None -> (d <= 0)%Z)).
Proof.
  cbv zeta. unfold Cleanup.clean_directory. rewrite clean_entries_filter.
  cbn [fst snd]. eexists. split; [reflexivity|].
  split.
  { pose proof (filter_split_length _ (Cleanup.deletes pattern older pl dry)
                  entries) as H. lia. }
  split; [apply total_size_split|].
  intros e He Hn.
  assert (Hd : Cleanup.deletes pattern older pl dry e = true).
  { destruct (Cleanup.deletes pattern older pl dry e) eqn:E; [reflexivity|].
    exfalso. apply Hn. apply filter_In. split; [exact He|].
    rewrite E. reflexivity. }
  destruct (deletes_true _ _ _ _ _ Hd) as (H1 & H2 & H3 & H4 & H5 & H6).
  repeat split; auto.
  intro Ha. specialize (H6 d H). unfold Cleanup.get_file_age_days in H6.
  rewrite Ha in H6. exact H6.
Qed.

Lemma cleanup_accounts_for_removals_witness :
  let log_old := Cleanup.mkEntry "tracking_20250101.txt" true 300 (Some 40%Z) true in
  let log_new := Cleanup.mkEntry "tracking_20250210.txt" true 200 (Some 1%Z) true in
  let unread := Cleanup.mkEntry "locked.txt" true 100 None true in
  let entries := [log_old; log_new; unread] in
  Cleanup.clean_directory (Some entries) (fun _ => true) (Some 7%Z) false false
  = ((1%Z, 300%Z), Some [log_new; unread])
  /\ In log_old entries
  /\ ~ In log_old [log_new; unread]
  /\ (7 <= Cleanup.get_file_age_days log_old)%Z.
Proof.
  intros log_old log_new unread entries.
  assert (E : Cleanup.clean_directory (Some entries) (fun _ => true) (Some 7%Z)
                false false = ((1%Z, 300%Z), Some [log_new; unread]))
    by reflexivity.
  assert (Hin : In log_old entries) by (left; reflexivity).
  assert (Hn : ~ In log_old [log_new; unread]).
  { intros [H | [H | []]]; discriminate H. }
  split; [exact E|]. split; [exact Hin|]. split; [exact Hn|].
  destruct (cleanup_accounts_for_removals entries (fun _ => true) (Some 7%Z)
              false false) as [kept (Hk & _ & _ & H)].
  cbv zeta in Hk. rewrite E in Hk. cbn [snd] in Hk. injection Hk as <-.
  destruct (H log_old Hin Hn) as (_ & _ & _ & _ & _ & Hage).
  exact (proj1 (Hage 7%Z eq_refl)).
Defined.

(* ================================================================== *)
(** ** The data collector's regime gate *)
(* ================================================================== *)

(** X24.  The data collector never skips on a RED regime: a regime
    check that succeeds reports GREEN with the trade flag up when the
    index closes above both moving averages and the rounded volatility
    index is below 20, and YELLOW with the flag down otherwise, in
    particular whenever a moving average is NaN.  [main] ends with the
    KeyError of [regime['Status']] exactly when the check failed;
    otherwise it goes on to the watchlist whatever the regime, aborting
    on an empty watchlist and fetching the listed symbols if not. *)
Theorem collector_never_skips
        (nifty : option (xnum * xnum * xnum)) (vix : option xnum)
        (saved : bool) (watchlist_file : option (list (option string))) :
  let regime := Collector.check_market_regime nifty vix saved in
  Collector.main nifty vix saved watchlist_file <> Collector.Skipped_RED
  /\ (Collector.main nifty vix saved watchlist_file = Collector.Raised_KeyError
      <-> nifty = None \/ vix = None \/ saved = false)
  /\ (forall close ma50 ma200 v,
         nifty = Some (close, ma50, ma200) -> vix = Some v -> saved = true ->
         (Collector.trade_of regime = true <->
          xlt ma50 close = true /\ xlt ma200 close = true
          /\ xlt (xround2 v) (Fin 20) = true)
         /\ Collector.status_of regime
            = Some (if Collector.trade_of regime then "GREEN" else "YELLOW")%string
         /\ (ma50 = NaN \/ ma200 = NaN -> Collector.trade_of regime = false)
         /\ Collector.main nifty vix saved watchlist_file
            = match Collector.load_watchlist watchlist_file with
              | [] => Collector.Aborted_empty_watchlist
              | watchlist => Collector.Fetched watchlist
              end).
Proof.
  cbv zeta. unfold Collector.main, Collector.check_market_regime, xgt.
  destruct nifty as [[[close ma50] ma200]|]; destruct vix as [v|];
    try (split; [discriminate|]; split;
         [split; [auto | reflexivity] | intros; discriminate]).
  destruct saved.
  2:{ split; [discriminate|]. split; [split; auto|]. intros; discriminate. }
  assert (Hnan : forall a, xlt NaN a = false) by reflexivity.
  destruct (xlt ma50 close) eqn:E1; destruct (xlt ma200 close) eqn:E2;
    destruct (xlt (xround2 v) (Fin 20)) eqn:E3;
    cbn [andb fst snd Collector.trade_of Collector.status_of
         String.eqb Ascii.eqb Bool.eqb];
    (split; [destruct (Collector.load_watchlist watchlist_file); discriminate|]);
    (split; [split; [destruct (Collector.load_watchlist watchlist_file);
                     discriminate
                    | intros [H | [H | H]]; discriminate H]|]);
    intros c m5 m2 v' Hn Hv _; injection Hn as <- <- <-; injection Hv as <-;
    rewrite ?E1, ?E2, ?E3;
    (split; [split; [try discriminate; auto
                    | intros (? & ? & ?); try reflexivity; discriminate]|]);
    (split; [reflexivity|]);
    (split; [| reflexivity]);
    try reflexivity;
    intros [-> | ->]; rewrite Hnan in *; discriminate.
Qed.

Lemma collector_never_skips_witness :
  let nifty := Some (Fin 22000, Fin 21500, NaN) in
  let vix := Some (Fin 12) in
  let file := Some [Some "TCS"%string; None; Some "INFY"%string] in
  nifty = Some (Fin 22000, Fin 21500, NaN)
  /\ vix = Some (Fin 12)
  /\ Collector.trade_of (Collector.check_market_regime nifty vix true) = false
  /\ Collector.main nifty vix true file
     = Collector.Fetched ["TCS.NS"; "INFY.NS"]%string.
Proof.
  intros nifty vix file.
  destruct (proj2 (proj2 (collector_never_skips nifty vix true file))
              (Fin 22000) (Fin 21500) NaN (Fin 12) eq_refl eq_refl eq_refl)
    as (_ & _ & Hnan & H).
  split; [reflexivity|]. split; [reflexivity|].
  split; [apply Hnan; right; reflexivity|].
  rewrite H. reflexivity.
Defined.

(* ================================================================== *)
(** ** Facts about binary64 rounding *)
(* ================================================================== *)

Section Binary64Facts.

Lemma round_half_even_error (y : Q) :
  - (1 # 2) <= inject_Z (round_half_even y) - y <= 1 # 2.
Proof.
  unfold round_half_even.
  pose proof (Qfloor_le y) as Hl. pose proof (Qlt_floor y) as Hu.
  rewrite inject_Z_plus in Hu. change (inject_Z 1) with 1 in Hu.
  destruct (Qcompare (y - inject_Z (Qfloor y)) (1 # 2)) eqn:C.
  - apply Qeq_alt in C.
    destruct (Z.even (Qfloor y));
      [|rewrite inject_Z_plus; change (inject_Z 1) with 1]; lra.
  - apply Qlt_alt in C. lra.
  - apply Qgt_alt in C. rewrite inject_Z_plus. change (inject_Z 1) with 1. lra.
Qed.

Lemma two_pow_pos (e : Z) : 0 < 2 ^ e.
Proof. apply Qpower_0_lt. reflexivity. Qed.

Lemma two_pow_succ (e : Z) : 2 ^ (e + 1) == 2 * 2 ^ e.
Proof. rewrite Qpower_plus by discriminate. change (2 ^ 1) with 2. ring. Qed.

Lemma mag_spec (q : Q) :
  ~ q == 0 -> 2 ^ B64.mag q <= Qabs q < 2 ^ (B64.mag q + 1).
Proof.
  intro Hq. unfold B64.mag.
  set (a := Z.abs (Qnum q)). set (b := Zpos (Qden q)).
  set (k := (Z.log2 a - Z.log2 b)%Z).
  assert (Ha : (0 < a)%Z).
  { unfold a. destruct q as [n d]. unfold Qeq in Hq. simpl in *. lia. }
  assert (Hb : (0 < b)%Z) by (unfold b; lia).
  destruct (Z.log2_spec a Ha) as [Ha1 Ha2].
  destruct (Z.log2_spec b Hb) as [Hb1 Hb2].
  pose proof (Z.log2_nonneg a) as La. pose proof (Z.log2_nonneg b) as Lb.
  assert (Habs : Qabs q == inject_Z a / inject_Z b).
  { destruct q as [n d]. unfold a, b. simpl Qnum. simpl Qden.
    unfold Qabs. unfold Qeq, Qdiv, Qmult, Qinv, inject_Z. simpl.
    destruct n; simpl; lia. }
  assert (Pa1 : 2 ^ Z.log2 a <= inject_Z a).
  { rewrite <- (Zpower_Qpower 2) by lia. rewrite <- Zle_Qle. exact Ha1. }
  assert (Pa2 : inject_Z a < 2 ^ (Z.log2 a + 1)).
  { rewrite <- (Zpower_Qpower 2) by lia. rewrite <- Zlt_Qlt.
    replace (Z.log2 a + 1)%Z with (Z.succ (Z.log2 a)) by lia. exact Ha2. }
  assert (Pb1 : 2 ^ Z.log2 b <= inject_Z b).
  { rewrite <- (Zpower_Qpower 2) by lia. rewrite <- Zle_Qle. exact Hb1. }
  assert (Pb2 : inject_Z b < 2 ^ (Z.log2 b + 1)).
  { rewrite <- (Zpower_Qpower 2) by lia. rewrite <- Zlt_Qlt.
    replace (Z.log2 b + 1)%Z with (Z.succ (Z.log2 b)) by lia. exact Hb2. }
  assert (Qb : 0 < inject_Z b) by (rewrite Zlt_Qlt in Hb; exact Hb).
  (* |q| < 2^(k+1) and 2^(k-1) < |q| *)
  assert (Hup : Qabs q < 2 ^ (k + 1)).
  { rewrite Habs. apply Qlt_shift_div_r; [exact Qb|].
    apply Qlt_le_trans with (2 ^ (Z.log2 a + 1)); [exact Pa2|].
    replace (Z.log2 a + 1)%Z with ((k + 1) + Z.log2 b)%Z by (unfold k; lia).
    rewrite Qpower_plus by discriminate.
    apply Qmult_le_l; [apply two_pow_pos | exact Pb1]. }
  assert (Hlo : 2 ^ (k - 1) < Qabs q).
  { rewrite Habs. apply Qlt_shift_div_l; [exact Qb|].
    apply Qlt_le_trans with (2 ^ (k - 1) * 2 ^ (Z.log2 b + 1)).
    - apply Qmult_lt_l; [apply two_pow_pos | exact Pb2].
    - rewrite <- Qpower_plus by discriminate.
      replace (k - 1 + (Z.log2 b + 1))%Z with (Z.log2 a) by (unfold k; lia).
      exact Pa1. }
  destruct (Qle_bool (2 ^ k) (Qabs q)) eqn:E.
  - apply Qle_bool_iff in E. split; assumption.
  - assert (E' : Qabs q < 2 ^ k).
    { apply Qnot_le_lt. intro H. apply Qle_bool_iff in H. congruence. }
    split; [apply Qlt_le_weak; exact Hlo|].
    replace (k - 1 + 1)%Z with k by lia. exact E'.
Qed.

Lemma mag_unique (q : Q) (k : Z) :
  2 ^ k <= Qabs q < 2 ^ (k + 1) -> B64.mag q = k.
Proof.
  intros [H1 H2].
  assert (Hq : ~ q == 0).
  { intro H. rewrite H in H1. pose proof (two_pow_pos k). simpl in H1. lra. }
  destruct (mag_spec q Hq) as [M1 M2].
  assert (A : (B64.mag q < k + 1)%Z).
  { apply (Qpower_lt_compat_l_inv 2); [|reflexivity].
    apply Qle_lt_trans with (Qabs q); assumption. }
  assert (B : (k < B64.mag q + 1)%Z).
  { apply (Qpower_lt_compat_l_inv 2); [|reflexivity].
    apply Qle_lt_trans with (Qabs q); assumption. }
  lia.
Qed.

Lemma mag_comp (a b : Q) : a == b -> ~ a == 0 -> B64.mag a = B64.mag b.
Proof.
  intros H Ha. symmetry. apply mag_unique. rewrite <- H. apply mag_spec. exact Ha.
Qed.

Lemma fl_comp (a b : Q) : a == b -> B64.fl a = B64.fl b.
Proof.
  intro H. unfold B64.fl.
  assert (E0 : Qeq_bool a 0 = Qeq_bool b 0).
  { destruct (Qeq_bool a 0) eqn:Ea; destruct (Qeq_bool b 0) eqn:Eb; try reflexivity.
    - apply Qeq_bool_iff in Ea. rewrite H in Ea. apply Qeq_bool_iff in Ea. congruence.
    - apply Qeq_bool_iff in Eb. rewrite <- H in Eb. apply Qeq_bool_iff in Eb. congruence. }
  rewrite <- E0. destruct (Qeq_bool a 0) eqn:Ea; [reflexivity|].
  assert (Ha : ~ a == 0) by (intro Hz; apply Qeq_bool_iff in Hz; congruence).
  rewrite <- (mag_comp a b H Ha).
  set (e := Z.max (B64.mag a - 52) (-1074)).
  assert (Er : round_half_even (a / 2 ^ e) = round_half_even (b / 2 ^ e)).
  { apply round_half_even_comp. rewrite H. reflexivity. }
  rewrite <- Er.
  assert (Es : Qle_bool 0 a = Qle_bool 0 b).
  { destruct (Qle_bool 0 a) eqn:E1; destruct (Qle_bool 0 b) eqn:E2; try reflexivity.
    - apply Qle_bool_iff in E1. rewrite H in E1. apply Qle_bool_iff in E1. congruence.
    - apply Qle_bool_iff in E2. rewrite <- H in E2. apply Qle_bool_iff in E2. congruence. }
  rewrite <- Es. reflexivity.
Qed.

(** The unit roundoff and the underflow unit of binary64. *)
Lemma Qabs_bounds (x m : Q) : Qabs x <= m <-> - m <= x <= m.
Proof. apply Qabs_Qle_condition. Qed.

(** The exact rounded value before the overflow test. *)
Lemma fl_raw_error (q : Q) :
  ~ q == 0 ->
  let e := Z.max (B64.mag q - 52) (-1074) in
  let r := inject_Z (round_half_even (q / 2 ^ e)) * 2 ^ e in
  Qabs (r - q) <= B64.u64 * Qabs q + B64.eta64.
Proof.
  intros Hq e r.
  pose proof (two_pow_pos e) as He.
  pose proof (round_half_even_error (q / 2 ^ e)) as Hr.
  assert (Hd : r - q == (inject_Z (round_half_even (q / 2 ^ e)) - q / 2 ^ e) * 2 ^ e).
  { unfold r. field. lra. }
  assert (H1 : Qabs (r - q) <= (1 # 2) * 2 ^ e).
  { rewrite Hd. rewrite Qabs_Qmult. rewrite (Qabs_pos (2 ^ e)) by lra.
    apply Qmult_le_compat_r; [|lra].
    apply Qabs_bounds. exact Hr. }
  pose proof (Qabs_nonneg q) as Hn.
  assert (Hu : 0 <= B64.u64) by (unfold B64.u64; apply Qlt_le_weak, two_pow_pos).
  assert (Hη : 0 <= B64.eta64) by (unfold B64.eta64; apply Qlt_le_weak, two_pow_pos).
  assert (Hun : 0 <= B64.u64 * Qabs q) by (apply Qmult_le_0_compat; assumption).
  destruct (Z.max_spec (B64.mag q - 52) (-1074)) as [[Hlt Hm] | [Hge Hm]];
    fold e in Hm.
  - (* e = -1074 *)
    assert (Ee : (1 # 2) * 2 ^ e == B64.eta64).
    { rewrite Hm. unfold B64.eta64.
      replace (-1074)%Z with (1 + -1075)%Z by lia.
      rewrite Qpower_plus by discriminate. change (2 ^ 1) with 2. field. }
    rewrite Ee in H1. lra.
  - (* e = mag q - 52 *)
    destruct (mag_spec q Hq) as [M1 _].
    assert (Ee : (1 # 2) * 2 ^ e == B64.u64 * 2 ^ B64.mag q).
    { rewrite Hm. unfold B64.u64.
      rewrite <- Qpower_plus by discriminate.
      replace (-53 + B64.mag q)%Z with (-1 + (B64.mag q - 52))%Z by lia.
      rewrite Qpower_plus by discriminate. change (2 ^ (-1)) with (1 # 2).
      reflexivity. }
    rewrite Ee in H1.
    assert (H2 : B64.u64 * 2 ^ B64.mag q <= B64.u64 * Qabs q).
    { unfold B64.u64. apply Qmult_le_l; [apply two_pow_pos | exact M1]. }
    lra.
Qed.

Lemma fl_error (q M : Q) :
  Qabs q <= M -> M <= B64.big ->
  exists r : Q, B64.fl q = Fin r
                /\ - (B64.ulp_half * M + B64.tiny) <= r - q <= B64.ulp_half * M + B64.tiny.
Proof.
  intros HM HB.
  pose proof (Qabs_nonneg q) as Hn.
  destruct (Qeq_bool q 0) eqn:E0.
  - exists 0. unfold B64.fl. rewrite E0. split; [reflexivity|].
    apply Qeq_bool_iff in E0. unfold B64.ulp_half, B64.tiny. lra.
  - assert (Hq : ~ q == 0) by (intro Hz; apply Qeq_bool_iff in Hz; congruence).
    pose proof (fl_raw_error q Hq) as Hr. cbv zeta in Hr.
    unfold B64.fl. rewrite E0.
    set (e := Z.max (B64.mag q - 52) (-1074)) in *.
    set (r := inject_Z (round_half_even (q / 2 ^ e)) * 2 ^ e) in *.
    assert (Hu : B64.u64 == B64.ulp_half) by reflexivity.
    assert (He : B64.eta64 <= B64.tiny) by (vm_compute; discriminate).
    assert (Hb : B64.big * (1 + B64.ulp_half) + B64.tiny < 2 ^ 1024) by (vm_compute; reflexivity).
    rewrite Hu in Hr.
    assert (Hq1 : B64.ulp_half * Qabs q <= B64.ulp_half * M).
    { apply Qmult_le_l; [reflexivity | exact HM]. }
    assert (Hq2 : B64.ulp_half * M <= B64.ulp_half * B64.big).
    { apply Qmult_le_l; [reflexivity | exact HB]. }
    apply Qabs_bounds in Hr.
    assert (Habs : Qabs r < 2 ^ 1024).
    { apply Qle_lt_trans with (B64.big * (1 + B64.ulp_half) + B64.tiny); [|exact Hb].
      apply Qabs_bounds. apply Qabs_bounds in HM.
      set (B := B64.big) in *. set (U := B64.ulp_half) in *. set (T := B64.tiny) in *.
      assert (HT : 0 <= T) by (unfold T, B64.tiny; lra).
      split; lra. }
    assert (Eo : Qle_bool (2 ^ 1024) (Qabs r) = false).
    { apply Qle_bool_false. exact Habs. }
    rewrite Eo. exists r. split; [reflexivity|]. lra.
Qed.

Lemma round_half_even_0 : round_half_even 0 = 0%Z.
Proof. reflexivity. Qed.

Lemma fl_nonpos (q : Q) :
  q <= 0 -> (exists r : Q, B64.fl q = Fin r /\ r <= 0) \/ B64.fl q = NInf.
Proof.
  intro Hq. unfold B64.fl.
  destruct (Qeq_bool q 0) eqn:E0; [left; exists 0; split; [reflexivity | lra]|].
  assert (Hne : ~ q == 0) by (intro Hz; apply Qeq_bool_iff in Hz; congruence).
  set (e := Z.max (B64.mag q - 52) (-1074)).
  pose proof (two_pow_pos e) as He.
  assert (Hy : q / 2 ^ e <= 0).
  { apply Qle_shift_div_r; [exact He | lra]. }
  pose proof (round_half_even_mono _ _ Hy) as Hz.
  rewrite round_half_even_0 in Hz.
  assert (Hr : inject_Z (round_half_even (q / 2 ^ e)) * 2 ^ e <= 0).
  { assert (Hi : inject_Z (round_half_even (q / 2 ^ e)) <= 0).
    { rewrite Zle_Qle in Hz. exact Hz. }
    assert (Hm : inject_Z (round_half_even (q / 2 ^ e)) * 2 ^ e <= 0 * 2 ^ e)
      by (apply Qmult_le_compat_r; lra).
    lra. }
  destruct (Qle_bool (2 ^ 1024) _).
  - right. assert (El : Qle_bool 0 q = false).
    { apply Qle_bool_false. lra. }
    rewrite El. reflexivity.
  - left. eexists. split; [reflexivity | exact Hr].
Qed.

Lemma Qdiv_bounds_pos (d R a b : Q) :
  0 < R -> a * R <= d -> d <= b * R -> a <= d / R <= b.
Proof.
  intros HR H1 H2. split.
  - apply Qle_shift_div_l; assumption.
  - apply Qle_shift_div_r; assumption.
Qed.

Lemma Qdiv_bounds_neg (d R a b : Q) :
  R < 0 -> d <= a * R -> b * R <= d -> a <= d / R <= b.
Proof.
  intros HR H1 H2.
  assert (E : d / R == (- d) / (- R)) by (field; lra).
  rewrite E. apply Qdiv_bounds_pos; lra.
Qed.

(** The reward:risk chain of lines 186 to 188 on an entry [E] and a
    computed risk [R]. *)
Lemma rr_chain_near_two (E R : Q) :
  1 # 100 <= E -> E <= 1000000000 ->
  E <= 1099511627776 * Qabs R ->
  Qabs R <= 1099511627776 * E ->
  exists q : Q,
    B64.div (B64.sub (B64.add (Fin E) (B64.mul (Fin 2) (Fin R))) (Fin E)) (Fin R)
    = Fin q
    /\ 2 - (1 # 4096) <= q <= 2 + (1 # 4096).
Proof.
  intros HE1 HE2 HK1 HK2.
  set (r0 := Qabs R) in *.
  assert (Hr0 : - r0 <= R <= r0) by (apply Qabs_bounds; unfold r0; lra).
  assert (Hr0pos : (1 # 100) <= 1099511627776 * r0) by lra.
  (* 2 * R *)
  unfold B64.mul at 1. cbn [xmul B64.rnd].
  destruct (fl_error (2 * R) (2 * r0)) as [t2 [E2 B2]].
  { apply Qabs_bounds. lra. }
  { unfold B64.big. lra. }
  rewrite E2.
  (* E + 2R *)
  unfold B64.add. cbn [xadd B64.rnd].
  destruct (fl_error (E + t2) (1099511627779 * r0)) as [t [Et Bt]].
  { apply Qabs_bounds. unfold B64.ulp_half, B64.tiny in *. lra. }
  { unfold B64.big. lra. }
  rewrite Et.
  (* T - E *)
  unfold B64.sub. unfold xsub. cbn [xopp xadd B64.rnd].
  destruct (fl_error (t + - E) (3 * r0)) as [d [Ed Bd]].
  { apply Qabs_bounds. unfold B64.ulp_half, B64.tiny in *. lra. }
  { unfold B64.big. lra. }
  rewrite Ed.
  (* D / R *)
  assert (Hd : - ((1 # 8000) * r0) <= d - 2 * R <= (1 # 8000) * r0).
  { unfold B64.ulp_half, B64.tiny in *. lra. }
  assert (HRnz : ~ R == 0).
  { intro Hz. assert (r0 == 0) by (unfold r0; rewrite Hz; reflexivity). lra. }
  unfold B64.div. cbn [xdiv]. rewrite (Qeq_bool_false R 0 HRnz). cbn [B64.rnd].
  assert (Hz : 2 - (1 # 8000) <= d / R <= 2 + (1 # 8000)).
  { destruct (Qlt_le_dec 0 R) as [Hp | Hn].
    - assert (Er : r0 == R) by (unfold r0; apply Qabs_pos; lra).
      apply Qdiv_bounds_pos; [exact Hp | lra | lra].
    - assert (Hn' : R < 0).
      { destruct (Qlt_le_dec R 0) as [H | H]; [exact H|]. exfalso. apply HRnz. lra. }
      assert (Er : r0 == - R) by (unfold r0; apply Qabs_neg; lra).
      apply Qdiv_bounds_neg; [exact Hn' | lra | lra]. }
  destruct (fl_error (d / R) 3) as [q [Eq Bq]].
  { apply Qabs_bounds. lra. }
  { unfold B64.big. lra. }
  rewrite Eq. exists q. split; [reflexivity|].
  unfold B64.ulp_half, B64.tiny in *. lra.
Qed.
End Binary64Facts.

(* ================================================================== *)
(** ** Layer 3 in binary64 *)
(* ================================================================== *)

Section Layer3Binary.

Import Screener64.

Lemma layer3_filter64_In (df : list Snap.t) (F : Screener.Filters) (s : Snap.t) :
  In s (layer3_filter df F)
  <-> In s (rr_frame df F) /\ rr_ok F s = true /\ risk_ok F s = true.
Proof.
  unfold layer3_filter, rr_frame. rewrite !filter_In. tauto.
Qed.

Lemma rr_frame64_In (df : list Snap.t) (F : Screener.Filters) (s : Snap.t) :
  In s (rr_frame df F)
  <-> In s df /\ breakout s = true /\ extension_ok F s = true.
Proof.
  unfold rr_frame. rewrite !filter_In. tauto.
Qed.

Lemma is_double_fl (q : Q) :
  B64.is_double q = true -> exists r : Q, B64.fl q = Fin r /\ r == q.
Proof.
  unfold B64.is_double. destruct (B64.fl q) as [r| | |]; try discriminate.
  intro H. apply Qeq_bool_iff in H. exists r. split; [reflexivity | exact H].
Qed.

Lemma fl_zero (q : Q) : q == 0 -> B64.fl q = Fin 0.
Proof. intro H. rewrite (fl_comp q 0 H). reflexivity. Qed.

(** A zero computed risk makes the ratio the undefined 0 / 0. *)
Lemma RR_zero_risk (s : Snap.t) (r : Q) :
  B64.is_double (Snap.Close s) = true ->
  Risk_Per_Share s = Fin r -> r == 0 -> RR s = NaN.
Proof.
  intros Hd Hr Hz. unfold RR, Target. rewrite Hr. unfold Entry.
  destruct (is_double_fl _ Hd) as [c [Ec Hc]].
  unfold B64.mul at 1. cbn [xmul B64.rnd].
  rewrite (fl_zero (2 * r)) by (rewrite Hz; reflexivity).
  unfold B64.add. cbn [xadd B64.rnd].
  rewrite (fl_comp (Snap.Close s + 0) (Snap.Close s)) by ring.
  rewrite Ec.
  unfold B64.sub, xsub. cbn [xopp xadd B64.rnd].
  rewrite (fl_zero (c + - Snap.Close s)) by (rewrite Hc; ring).
  unfold B64.div. cbn [xdiv].
  assert (E : Qeq_bool r 0 = true) by (apply Qeq_bool_iff; exact Hz).
  rewrite E. reflexivity.
Qed.

(** A negative computed risk on a positive entry gives a risk percent
    that is negative or zero, which passes either ceiling. *)
Lemma risk_ok_negative64 (F : Screener.Filters) (s : Snap.t) (R : Q) :
  Risk_Per_Share s = Fin R -> R < 0 -> 0 < Snap.Close s ->
  risk_ok F s = true.
Proof.
  intros Hr Hneg He.
  assert (H : forall c : Q, 0 <= c -> xle (Risk_Pct s) (Fin c) = true).
  { intros c Hc. unfold Risk_Pct. rewrite Hr. unfold Entry.
    unfold B64.div. cbn [xdiv].
    assert (Hne : ~ Snap.Close s == 0) by lra.
    rewrite (Qeq_bool_false _ _ Hne). cbn [B64.rnd].
    assert (Hq : R / Snap.Close s <= 0).
    { apply Qle_shift_div_r; [exact He | lra]. }
    destruct (fl_nonpos _ Hq) as [[a [Ea Ha]] | Ea]; rewrite Ea.
    - unfold B64.mul. cbn [xmul B64.rnd].
      assert (Hq' : a * 100 <= 0) by lra.
      destruct (fl_nonpos _ Hq') as [[b [Eb Hb]] | Eb]; rewrite Eb.
      + cbn [xle]. apply Qle_bool_iff. lra.
      + reflexivity.
    - reflexivity. }
  unfold risk_ok. destruct (Screener.is_testing F); apply H; lra.
Qed.

Lemma RR_near_two (s : Snap.t) (R : Q) :
  Risk_Per_Share s = Fin R ->
  1 # 100 <= Snap.Close s -> Snap.Close s <= 1000000000 ->
  Snap.Close s <= 1099511627776 * Qabs R ->
  Qabs R <= 1099511627776 * Snap.Close s ->
  exists q : Q, RR s = Fin q /\ 2 - (1 # 4096) <= q <= 2 + (1 # 4096).
Proof.
  intros Hr H1 H2 H3 H4. unfold RR, Target. rewrite Hr. unfold Entry.
  apply rr_chain_near_two; assumption.
Qed.

Lemma rr_ok_near_two (F : Screener.Filters) (s : Snap.t) (R : Q) :
  Risk_Per_Share s = Fin R ->
  1 # 100 <= Snap.Close s -> Snap.Close s <= 1000000000 ->
  Snap.Close s <= 1099511627776 * Qabs R ->
  Qabs R <= 1099511627776 * Snap.Close s ->
  Screener.min_rr F <= 2 - (1 # 4096) ->
  rr_ok F s = true.
Proof.
  intros Hr H1 H2 H3 H4 Hm.
  destruct (RR_near_two s R Hr H1 H2 H3 H4) as [q [Eq Hq]].
  unfold rr_ok, xge. rewrite Eq. cbn [xle]. apply Qle_bool_iff. lra.
Qed.

End Layer3Binary.

(** C3, as the code has it.  Layer 3 has no guard on entry - stop: the
    reward:risk division is evaluated on every row that passed the
    breakout and extension filters.  A row whose computed entry - stop
    is 0 never survives Layer 3 (its ratio is the undefined 0 / 0,
    which fails the minimum-RR comparison).  A row whose computed
    entry - stop is negative is not excluded: for a price between 0.01
    and 10^9 and a risk whose magnitude is between 2^-40 and 2^40
    times the price, it survives Layer 3 when the minimum RR is at
    most 2 - 2^-12, as it is in the testing (1.2) and relaxed (1.8)
    profiles. *)
Theorem layer3_degenerate_risk (df : list Snap.t) (F : Screener.Filters) :
  (forall s, In s df -> Screener64.breakout s = true ->
             Screener64.extension_ok F s = true ->
             In s (Screener64.rr_frame df F))
  /\ (forall s r, In s (Screener64.layer3_filter df F) ->
                  B64.is_double (Snap.Close s) = true ->
                  Screener64.Risk_Per_Share s = Fin r ->
                  ~ r == 0)
  /\ (forall s R, In s (Screener64.rr_frame df F) ->
                  Screener64.Risk_Per_Share s = Fin R ->
                  R < 0 ->
                  1 # 100 <= Snap.Close s -> Snap.Close s <= 1000000000 ->
                  Snap.Close s <= 1099511627776 * - R ->
                  - R <= 1099511627776 * Snap.Close s ->
                  Screener.min_rr F <= 2 - (1 # 4096) ->
                  In s (Screener64.layer3_filter df F))
  /\ Screener.min_rr Screener64.testing_filters <= 2 - (1 # 4096)
  /\ Screener.min_rr Screener64.relaxed_filters <= 2 - (1 # 4096).
Proof.
  split; [|split; [|split; [|split]]].
  - intros s H1 H2 H3. apply rr_frame64_In. auto.
  - intros s r Hin Hd Hr Hz. apply layer3_filter64_In in Hin.
    destruct Hin as (_ & Hrr & _).
    unfold Screener64.rr_ok in Hrr. rewrite (RR_zero_risk s r Hd Hr Hz) in Hrr.
    discriminate.
  - intros s R Hin Hr Hneg H1 H2 H3 H4 Hm. apply layer3_filter64_In.
    assert (Ea : Qabs R == - R) by (apply Qabs_neg; lra).
    split; [exact Hin|]. split.
    + apply (rr_ok_near_two F s R Hr H1 H2); [rewrite Ea | rewrite Ea | ]; assumption.
    + apply (risk_ok_negative64 F s R Hr Hneg). lra.
  - vm_compute. discriminate.
  - vm_compute. discriminate.
Qed.

(** C3, as stated, fails: a row whose stop (109.45) is above its entry
    (100) reaches the reward:risk division and survives Layer 3 under
    the relaxed profile. *)
Lemma layer3_keeps_negative_risk_row :
  let s := Snap.mk "X" 100 95 90 110 3 in
  (exists R : Q, Screener64.Risk_Per_Share s = Fin R /\ R < 0)
  /\ In s (Screener64.rr_frame [s] Screener64.relaxed_filters)
  /\ Screener64.layer3_filter [s] Screener64.relaxed_filters = [s]
  /\ ~ (forall r, In r (Screener64.layer3_filter [s] Screener64.relaxed_filters) ->
                  exists R : Q, Screener64.Risk_Per_Share r = Fin R /\ 0 < R).
Proof.
  intro s.
  assert (HR : exists R : Q, Screener64.Risk_Per_Share s = Fin R /\ R < 0).
  { eexists. split; [vm_compute; reflexivity | vm_compute; reflexivity]. }
  assert (HL : Screener64.layer3_filter [s] Screener64.relaxed_filters = [s])
    by (vm_compute; reflexivity).
  split; [exact HR|]. split; [vm_compute; left; reflexivity|]. split; [exact HL|].
  intro H. rewrite HL in H.
  destruct (H s (or_introl eq_refl)) as [R [E1 Hp]].
  destruct HR as [R' [E2 Hn]]. rewrite E1 in E2. injection E2 as <-. lra.
Qed.

Lemma layer3_degenerate_risk_witness :
  let s := Snap.mk "X" 100 95 90 110 3 in
  let F := Screener64.relaxed_filters in
  In s (Screener64.rr_frame [s] F)
  /\ (exists R : Q, Screener64.Risk_Per_Share s = Fin R /\ R < 0)
  /\ B64.is_double (Snap.Close s) = true
  /\ In s (Screener64.layer3_filter [s] F)
  /\ (forall r, Screener64.Risk_Per_Share s = Fin r -> ~ r == 0).
Proof.
  intros s F.
  assert (H0 : In s [s]) by (left; reflexivity).
  assert (Hb : Screener64.breakout s = true) by (vm_compute; reflexivity).
  assert (He : Screener64.extension_ok F s = true) by (vm_compute; reflexivity).
  pose proof (proj1 (layer3_degenerate_risk [s] F) s H0 Hb He) as H1.
  assert (HR : exists R : Q, Screener64.Risk_Per_Share s = Fin R /\ R < 0).
  { eexists. split; [vm_compute; reflexivity | vm_compute; reflexivity]. }
  assert (Hd : B64.is_double (Snap.Close s) = true) by (vm_compute; reflexivity).
  destruct HR as [R [ER Hneg]].
  assert (Hm : Screener.min_rr F <= 2 - (1 # 4096)) by (vm_compute; discriminate).
  assert (A1 : 1 # 100 <= Snap.Close s) by (vm_compute; discriminate).
  assert (A2 : Snap.Close s <= 1000000000) by (vm_compute; discriminate).
  assert (Hin : In s (Screener64.layer3_filter [s] F)).
  { apply (proj1 (proj2 (proj2 (layer3_degenerate_risk [s] F))) s R H1 ER Hneg A1 A2);
      [| | exact Hm].
    - vm_compute in ER. injection ER as <-. vm_compute. discriminate.
    - vm_compute in ER. injection ER as <-. vm_compute. discriminate. }
  split; [exact H1|]. split; [exists R; split; assumption|].
  split; [exact Hd|]. split; [exact Hin|].
  intros r Hr. exact (proj1 (proj2 (layer3_degenerate_risk [s] F)) s r Hin Hd Hr).
Defined.

(** C10, as the code has it.  The reward:risk ratio is computed in
    binary64 from the rounded target, so it is 2 only up to rounding:
    for a price between 0.01 and 10^9 and a computed risk whose
    magnitude is between 2^-40 and 2^40 times the price, the computed
    ratio is within 2^-12 of 2.  The minimum-RR filter therefore
    removes no such row with a positive risk when the threshold is at
    most 2 - 2^-12, as the thresholds of the testing (1.2) and relaxed
    (1.8) profiles are. *)
Theorem reward_risk_near_two :
  (forall (s : Snap.t) (R : Q),
      Screener64.Risk_Per_Share s = Fin R ->
      1 # 100 <= Snap.Close s -> Snap.Close s <= 1000000000 ->
      Snap.Close s <= 1099511627776 * Qabs R ->
      Qabs R <= 1099511627776 * Snap.Close s ->
      exists q : Q, Screener64.RR s = Fin q
                    /\ 2 - (1 # 4096) <= q <= 2 + (1 # 4096))
  /\ (forall (df : list Snap.t) (F : Screener.Filters) (s : Snap.t) (R : Q),
         In s (Screener64.rr_frame df F) ->
         Screener64.Risk_Per_Share s = Fin R ->
         0 < R ->
         1 # 100 <= Snap.Close s -> Snap.Close s <= 1000000000 ->
         Snap.Close s <= 1099511627776 * R ->
         R <= 1099511627776 * Snap.Close s ->
         Screener.min_rr F <= 2 - (1 # 4096) ->
         In s (filter (Screener64.rr_ok F) (Screener64.rr_frame df F)))
  /\ Screener.min_rr Screener64.testing_filters <= 2 - (1 # 4096)
  /\ Screener.min_rr Screener64.relaxed_filters <= 2 - (1 # 4096).
Proof.
  split; [exact RR_near_two|]. split; [|split].
  - intros df F s R Hin Hr Hpos H1 H2 H3 H4 Hm. apply filter_In.
    split; [exact Hin|].
    assert (Ea : Qabs R == R) by (apply Qabs_pos; lra).
    apply (rr_ok_near_two F s R Hr H1 H2); [rewrite Ea | rewrite Ea |]; assumption.
  - vm_compute. discriminate.
  - vm_compute. discriminate.
Qed.

(** C10, as stated, fails: for the close 117.76 and the support 113.03
    the risk is positive and the computed ratio is
    1.9999999999999973, so a minimum RR of 2 removes the row. *)
Lemma reward_risk_below_two :
  let s := Snap.mk "A" (B64.lit 117.76) 115 110 (B64.lit 113.03) 3 in
  let F := Screener64.load_filters (Screener.mkFilters None 15 2) "standard" in
  (exists R : Q, Screener64.Risk_Per_Share s = Fin R /\ 0 < R)
  /\ (exists q : Q, Screener64.RR s = Fin q /\ q < 2)
  /\ In s (Screener64.rr_frame [s] F)
  /\ Screener.min_rr F <= 2
  /\ filter (Screener64.rr_ok F) (Screener64.rr_frame [s] F) = [].
Proof.
  intros s F.
  split; [eexists; split; vm_compute; reflexivity|].
  split; [eexists; split; vm_compute; reflexivity|].
  split; [vm_compute; left; reflexivity|].
  split; [vm_compute; discriminate|].
  vm_compute. reflexivity.
Qed.

Lemma reward_risk_near_two_witness :
  let s := Snap.mk "A" (B64.lit 117.76) 115 110 (B64.lit 113.03) 3 in
  let F := Screener64.relaxed_filters in
  In s (Screener64.rr_frame [s] F)
  /\ (exists R : Q, Screener64.Risk_Per_Share s = Fin R /\ 0 < R)
  /\ (exists q : Q, Screener64.RR s = Fin q
                    /\ 2 - (1 # 4096) <= q <= 2 + (1 # 4096))
  /\ In s (filter (Screener64.rr_ok F) (Screener64.rr_frame [s] F)).
Proof.
  intros s F.
  assert (H1 : In s (Screener64.rr_frame [s] F)) by (vm_compute; left; reflexivity).
  assert (HR : exists R : Q, Screener64.Risk_Per_Share s = Fin R /\ 0 < R).
  { eexists. split; vm_compute; reflexivity. }
  destruct HR as [R [ER Hpos]].
  assert (A1 : 1 # 100 <= Snap.Close s) by (vm_compute; discriminate).
  assert (A2 : Snap.Close s <= 1000000000) by (vm_compute; discriminate).
  assert (A3 : Snap.Close s <= 1099511627776 * R).
  { vm_compute in ER. injection ER as <-. vm_compute. discriminate. }
  assert (A4 : R <= 1099511627776 * Snap.Close s).
  { vm_compute in ER. injection ER as <-. vm_compute. discriminate. }
  assert (Ea : Qabs R == R) by (apply Qabs_pos; lra).
  assert (Hm : Screener.min_rr F <= 2 - (1 # 4096)) by (vm_compute; discriminate).
  split; [exact H1|]. split; [exists R; split; assumption|]. split.
  - apply (proj1 reward_risk_near_two s R ER A1 A2); rewrite Ea; assumption.
  - exact (proj1 (proj2 reward_risk_near_two) [s] F s R H1 ER Hpos A1 A2 A3 A4 Hm).
Defined.

(** The zero that removes a row is the computed one.  For the close
    113.43 and the support 114, the stop is 113.43 in decimals, but
    the computed risk is 2^-46: the row is kept by Layer 3 and written
    with an entry equal to its stop. *)
Example decimal_zero_risk_is_kept :
  let s := Snap.mk "C" (B64.lit 113.43) 110 110 114 3 in
  (exists R : Q, Screener64.Risk_Per_Share s = Fin R
                 /\ R == 1 # 70368744177664)
  /\ Screener64.layer3_filter [s] Screener64.relaxed_filters = [s]
  /\ B64.np_round2 (Screener64.Entry s) = B64.np_round2 (Screener64.SL s).
Proof.
  intro s. split; [eexists; split; vm_compute; reflexivity|].
  split; vm_compute; reflexivity.
Qed.
